(** * yt-transcript-ts: the embedded-object extractor and the caption decoder

  A shallow embedding of [src/js-var-parser.ts] and
  [src/transcript-parser.ts], with the properties their specification
  states about them.

  JavaScript strings are sequences of UTF-16 code units.  They are
  modelled as [string]: one [ascii] per code unit, which covers the code
  units 0..255.  A double quote inside a literal is written as a backtick
  and turned into the real character by [qq], so that sample inputs stay
  readable. *)

From Stdlib Require Import String Ascii List ZArith NArith Bool Arith Lia.
Import ListNotations.

Set Warnings "-register-all".
Open Scope string_scope.

(* ================================================================== *)
(** * JavaScript string primitives *)
(* ================================================================== *)

Module Js.

Definition dquote : ascii := "034"%char.
Definition squote : ascii := "'"%char.
Definition backslash : ascii := "\"%char.

(** [qq s] is [s] with every backtick replaced by a double quote. *)
Fixpoint qq (s : string) : string :=
  match s with
  | EmptyString => EmptyString
  | String c s' => String (if Ascii.eqb c "`" then dquote else c) (qq s')
  end.

(** [s.startsWith(p)] *)
Fixpoint startsWith (p s : string) : bool :=
  match p, s with
  | EmptyString, _ => true
  | String _ _, EmptyString => false
  | String a p', String b s' => Ascii.eqb a b && startsWith p' s'
  end.

(** [s.includes(sub)] *)
Fixpoint includes (sub s : string) : bool :=
  startsWith sub s ||
  match s with
  | EmptyString => false
  | String _ s' => includes sub s'
  end.

(** [s.indexOf(sub)], [None] standing for -1. *)
Fixpoint indexOf (sub s : string) : option nat :=
  if startsWith sub s then Some 0
  else match s with
       | EmptyString => None
       | String _ s' => option_map S (indexOf sub s')
       end.

(** The suffix of [s] from index [n] on. *)
Fixpoint drop (n : nat) (s : string) : string :=
  match n, s with
  | 0, _ => s
  | S _, EmptyString => EmptyString
  | S n', String _ s' => drop n' s'
  end.

(** The first [n] characters of [s]. *)
Fixpoint take (n : nat) (s : string) : string :=
  match n, s with
  | 0, _ => EmptyString
  | S _, EmptyString => EmptyString
  | S n', String c s' => String c (take n' s')
  end.

(** [s.substring(from, to)] for [from <= to]. *)
Definition substring (from to : nat) (s : string) : string :=
  take (to - from) (drop from s).

(** [s.split(sep)] for a non-empty separator: occurrences are taken
    leftmost first and do not overlap.  [skip] counts the characters of
    the current occurrence that are still to be passed over. *)
Fixpoint splitOn (sep : string) (skip : nat) (s : string) : list string :=
  match s with
  | EmptyString => [EmptyString]
  | String c s' =>
      match skip with
      | S k => splitOn sep k s'
      | 0 =>
          if startsWith sep s
          then EmptyString :: splitOn sep (String.length sep - 1) s'
          else match splitOn sep 0 s' with
               | [] => [String c EmptyString]
               | p :: ps => String c p :: ps
               end
      end
  end.

Fixpoint chars (s : string) : list string :=
  match s with
  | EmptyString => []
  | String c s' => String c EmptyString :: chars s'
  end.

(** [s.split(sep)]; an empty separator cuts between every two code
    units. *)
Definition split (sep s : string) : list string :=
  match sep with
  | EmptyString => chars s
  | String _ _ => splitOn sep 0 s
  end.

(** ECMAScript [WhiteSpace] and [LineTerminator] code points below 256:
    TAB, LF, VT, FF, CR, SP and NBSP.  This is the class [\s] of regular
    expressions and the class removed by [trim] and skipped by
    [parseFloat]. *)
Definition isSpace (c : ascii) : bool :=
  let n := nat_of_ascii c in
  ((9 <=? n) && (n <=? 13) || (n =? 32) || (n =? 160))%nat.

Definition isDigit (c : ascii) : bool :=
  let n := nat_of_ascii c in ((48 <=? n) && (n <=? 57))%nat.

(** The class [\w] of regular expressions. *)
Definition isWord (c : ascii) : bool :=
  let n := nat_of_ascii c in
  isDigit c
  || ((65 <=? n) && (n <=? 90) || (97 <=? n) && (n <=? 122) || (n =? 95))%nat.

End Js.

(* ================================================================== *)
(** * Error taxonomy ([src/errors.ts]) *)
(* ================================================================== *)

Inductive CouldNotRetrieveTranscriptReason : Type :=
| TranscriptsDisabled
| NoTranscriptFound
| VideoUnavailable
| VideoUnplayable
| IpBlocked
| RequestBlocked
| TranslationUnavailable
| TranslationLanguageUnavailable
| FailedToCreateConsentCookie
| YouTubeRequestFailed
| InvalidVideoId
| AgeRestricted
| YouTubeDataUnparsable.

(** [CouldNotRetrieveTranscript]; the optional [reasonData] is left out,
  since the factory used by the extractor never sets it. *)
Record CouldNotRetrieveTranscript : Type := {
videoId : string;
reason : option CouldNotRetrieveTranscriptReason
}.

Definition youTubeDataUnparsable (videoId : string) : CouldNotRetrieveTranscript :=
{| videoId := videoId; reason := Some YouTubeDataUnparsable |}.

(** A call either returns a value or throws. *)
Inductive result (A E : Type) : Type :=
| Ok (a : A)
| Err (e : E).
Arguments Ok {A E} a.
Arguments Err {A E} e.

(* ================================================================== *)
(** * StructuredValue: what [JSON.parse] returns *)
(* ================================================================== *)

(** A number is kept as the exact decimal its literal denotes,
  [(-1)^negative * mantissa * 10^exponent10]; the rounding to a double is
  not modelled. *)
Record Decimal : Type := {
negative : bool;
mantissa : N;
exponent10 : Z
}.

(** String values are lists of code units, since [\uXXXX] escapes reach
  beyond 255. An object keeps its members in source order, a repeated
  key keeping its first place and its last value. *)
Inductive JsonValue : Type :=
| JNull
| JBool (b : bool)
| JNumber (d : Decimal)
| JString (s : list N)
| JArray (items : list JsonValue)
| JObject (members : list (list N * JsonValue)).

Definition codeUnits (s : string) : list N :=
map N_of_ascii (list_ascii_of_string s).

(** ** A reference model of the built-in [JSON.parse]

  The extractor is stated over an arbitrary [JSON.parse]; this model,
  written after ECMA-404, is what the sample inputs are run with. *)

Module Json.
Import Js.

Definition isWs (c : ascii) : bool :=
  let n := nat_of_ascii c in
  ((n =? 32) || (n =? 9) || (n =? 10) || (n =? 13))%nat.

Fixpoint skipWs (s : string) : string :=
  match s with
  | EmptyString => EmptyString
  | String c s' => if isWs c then skipWs s' else s
  end.

Definition digitValue (c : ascii) : N := (N_of_ascii c - 48)%N.

(** A run of decimal digits read onto [acc]; the count of digits read
    comes with the value. *)
Fixpoint digits (acc : N) (count : nat) (s : string) : N * nat * string :=
  match s with
  | EmptyString => (acc, count, s)
  | String c s' =>
      if isDigit c then digits (acc * 10 + digitValue c)%N (S count) s'
      else (acc, count, s)
  end.

Definition hexValue (c : ascii) : option N :=
  let n := N_of_ascii c in
  if isDigit c then Some (n - 48)%N
  else if ((97 <=? n) && (n <=? 102))%N then Some (n - 87)%N
  else if ((65 <=? n) && (n <=? 70))%N then Some (n - 55)%N
  else None.

Definition number (s : string) : option (Decimal * string) :=
  let '(neg, s1) :=
    match s with
    | String c r => if Ascii.eqb c "-" then (true, r) else (false, s)
    | EmptyString => (false, s)
    end in
  let intPart :=
    match s1 with
    | String c r =>
        if Ascii.eqb c "0" then Some (0%N, r)
        else if isDigit c then
          let '(v, _, r') := digits 0 0 s1 in Some (v, r')
        else None
    | EmptyString => None
    end in
  match intPart with
  | None => None
  | Some (i, s2) =>
      let fracPart :=
        match s2 with
        | String c r =>
            if Ascii.eqb c "." then
              let '(v, n, r') := digits i 0 r in
              match n with
              | 0 => None
              | S _ => Some (v, Z.of_nat n, r')
              end
            else Some (i, 0%Z, s2)
        | EmptyString => Some (i, 0%Z, s2)
        end in
      match fracPart with
      | None => None
      | Some (m, fracLen, s3) =>
          let expPart :=
            match s3 with
            | String c r =>
                if Ascii.eqb c "e" || Ascii.eqb c "E" then
                  let '(eneg, r1) :=
                    match r with
                    | String d r' =>
                        if Ascii.eqb d "-" then (true, r')
                        else if Ascii.eqb d "+" then (false, r')
                        else (false, r)
                    | EmptyString => (false, r)
                    end in
                  let '(v, n, r2) := digits 0 0 r1 in
                  match n with
                  | 0 => None
                  | S _ => Some (if eneg then (- Z.of_N v)%Z else Z.of_N v, r2)
                  end
                else Some (0%Z, s3)
            | EmptyString => Some (0%Z, s3)
            end in
          match expPart with
          | None => None
          | Some (e, s4) =>
              Some ({| negative := neg; mantissa := m;
                       exponent10 := (e - fracLen)%Z |}, s4)
          end
      end
  end.

(** The characters of a string literal after its opening quote. *)
Fixpoint stringBody (acc : list N) (s : string) : option (list N * string) :=
  match s with
  | EmptyString => None
  | String c s' =>
      if Ascii.eqb c dquote then Some (rev acc, s')
      else if Ascii.eqb c backslash then
        match s' with
        | EmptyString => None
        | String e r =>
            if Ascii.eqb e "u" then
              match r with
              | String h1 (String h2 (String h3 (String h4 r'))) =>
                  match hexValue h1, hexValue h2, hexValue h3, hexValue h4 with
                  | Some a, Some b, Some c', Some d =>
                      stringBody ((((a * 16 + b) * 16 + c') * 16 + d)%N :: acc) r'
                  | _, _, _, _ => None
                  end
              | _ => None
              end
            else
              let simple (n : N) := stringBody (n :: acc) r in
              if Ascii.eqb e dquote then simple 34%N
              else if Ascii.eqb e backslash then simple 92%N
              else if Ascii.eqb e "/" then simple 47%N
              else if Ascii.eqb e "b" then simple 8%N
              else if Ascii.eqb e "f" then simple 12%N
              else if Ascii.eqb e "n" then simple 10%N
              else if Ascii.eqb e "r" then simple 13%N
              else if Ascii.eqb e "t" then simple 9%N
              else None
        end
      else if (N_of_ascii c <? 32)%N then None
      else stringBody (N_of_ascii c :: acc) s'
  end.

Definition keyEqb (a b : list N) : bool :=
  if list_eq_dec N.eq_dec a b then true else false.

(** Defining a property: a key already present keeps its place. *)
Fixpoint setMember (k : list N) (v : JsonValue)
         (l : list (list N * JsonValue)) : list (list N * JsonValue) :=
  match l with
  | [] => [(k, v)]
  | (k', v') :: l' =>
      if keyEqb k k' then (k, v) :: l' else (k', v') :: setMember k v l'
  end.

Fixpoint value (fuel : nat) (s : string) : option (JsonValue * string) :=
  match fuel with
  | 0 => None
  | S fuel' =>
      match skipWs s with
      | EmptyString => None
      | String c r =>
          if Ascii.eqb c "{" then
            match skipWs r with
            | String c' r' =>
                if Ascii.eqb c' "}" then Some (JObject [], r')
                else members fuel' [] (String c' r')
            | EmptyString => None
            end
          else if Ascii.eqb c "[" then
            match skipWs r with
            | String c' r' =>
                if Ascii.eqb c' "]" then Some (JArray [], r')
                else elements fuel' [] (String c' r')
            | EmptyString => None
            end
          else if Ascii.eqb c dquote then
            match stringBody [] r with
            | Some (str, r') => Some (JString str, r')
            | None => None
            end
          else if startsWith "true" (String c r) then
            Some (JBool true, drop 4 (String c r))
          else if startsWith "false" (String c r) then
            Some (JBool false, drop 5 (String c r))
          else if startsWith "null" (String c r) then
            Some (JNull, drop 4 (String c r))
          else
            match number (String c r) with
            | Some (d, r') => Some (JNumber d, r')
            | None => None
            end
      end
  end
with elements (fuel : nat) (acc : list JsonValue) (s : string)
     : option (JsonValue * string) :=
  match fuel with
  | 0 => None
  | S fuel' =>
      match value fuel' s with
      | None => None
      | Some (v, r) =>
          match skipWs r with
          | String c r' =>
              if Ascii.eqb c "," then elements fuel' (v :: acc) r'
              else if Ascii.eqb c "]" then Some (JArray (rev (v :: acc)), r')
              else None
          | EmptyString => None
          end
      end
  end
with members (fuel : nat) (acc : list (list N * JsonValue)) (s : string)
     : option (JsonValue * string) :=
  match fuel with
  | 0 => None
  | S fuel' =>
      match skipWs s with
      | String q r =>
          if Ascii.eqb q dquote then
            match stringBody [] r with
            | None => None
            | Some (k, r1) =>
                match skipWs r1 with
                | String c r2 =>
                    if Ascii.eqb c ":" then
                      match value fuel' r2 with
                      | None => None
                      | Some (v, r3) =>
                          match skipWs r3 with
                          | String d r4 =>
                              if Ascii.eqb d "," then
                                members fuel' (setMember k v acc) r4
                              else if Ascii.eqb d "}" then
                                Some (JObject (setMember k v acc), r4)
                              else None
                          | EmptyString => None
                          end
                      end
                    else None
                | EmptyString => None
                end
            end
          else None
      | EmptyString => None
      end
  end.

(** Every call below consumes a character within two levels of fuel,
    so twice the length of the text is enough fuel. *)
Definition parse (text : string) : option JsonValue :=
  match value (2 * String.length text + 2) text with
  | Some (v, r) =>
      match skipWs r with
      | EmptyString => Some v
      | String _ _ => None
      end
  | None => None
  end.

End Json.

(* ================================================================== *)
(** * The embedded-object extractor ([src/js-var-parser.ts]) *)
(* ================================================================== *)

Module JsVarParser.
Import Js.

(** ** The brace matcher of [parseCharByChar] (step 3) *)

(** The four loop variables; [stringChar] is [None] for the empty
    string the source stores outside a literal. *)
Record ScanState : Type := {
  braceCount : Z;
  inString : bool;
  escapeNext : bool;
  stringChar : option ascii
}.

Definition initialScan : ScanState :=
  {| braceCount := 0; inString := false; escapeNext := false;
     stringChar := None |}.

(** One turn of the loop body either goes on to the next index or
    leaves the loop with [endIndex] set to the current one. *)
Inductive Turn : Type :=
| Next (st : ScanState)
| Break (st : ScanState).

Definition setEscapeNext (b : bool) (st : ScanState) : ScanState :=
  {| braceCount := braceCount st; inString := inString st;
     escapeNext := b; stringChar := stringChar st |}.

Definition setBraceCount (n : Z) (st : ScanState) : ScanState :=
  {| braceCount := n; inString := inString st;
     escapeNext := escapeNext st; stringChar := stringChar st |}.

Definition setString (b : bool) (q : option ascii) (st : ScanState) : ScanState :=
  {| braceCount := braceCount st; inString := b;
     escapeNext := escapeNext st; stringChar := q |}.

Definition scanChar (st : ScanState) (char : ascii) : Turn :=
  if escapeNext st then Next (setEscapeNext false st)
  else if Ascii.eqb char backslash then Next (setEscapeNext true st)
  else if negb (inString st) then
    if Ascii.eqb char dquote || Ascii.eqb char squote then
      Next (setString true (Some char) st)
    else if Ascii.eqb char "{" then
      Next (setBraceCount (braceCount st + 1) st)
    else if Ascii.eqb char "}" then
      let st' := setBraceCount (braceCount st - 1) st in
      if (braceCount st' =? 0)%Z then Break st' else Next st'
    else Next st
  else
    match stringChar st with
    | Some q =>
        if Ascii.eqb char q then Next (setString false None st)
        else Next st
    | None => Next st
    end.

(** [for (let i = ...; i < afterVar.length; i++)], on the characters
    from index [i] on; [None] stands for [endIndex === -1]. *)
Fixpoint scanLoop (st : ScanState) (i : nat) (rest : string) : option nat :=
  match rest with
  | EmptyString => None
  | String char rest' =>
      match scanChar st char with
      | Break _ => Some i
      | Next st' => scanLoop st' (S i) rest'
      end
  end.

(** The state in which the loop reaches index [i + length pre], having
    read [pre] from [st] without leaving. *)
Fixpoint scanRun (st : ScanState) (pre : string) : option ScanState :=
  match pre with
  | EmptyString => Some st
  | String char pre' =>
      match scanChar st char with
      | Break _ => None
      | Next st' => scanRun st' pre'
      end
  end.

Definition findEnd (startIndex : nat) (afterVar : string) : option nat :=
  scanLoop initialScan startIndex (drop startIndex afterVar).

(** ** The rules of the matcher, case by case *)

Definition isQuote (c : ascii) : bool :=
  Ascii.eqb c dquote || Ascii.eqb c squote.

(** What the loop body does to a character that is neither escaped nor
    a backslash, outside a string literal. *)
Definition outsideRule (st : ScanState) (c : ascii) : Turn :=
  if isQuote c then Next (setString true (Some c) st)
  else if Ascii.eqb c "{" then Next (setBraceCount (braceCount st + 1) st)
  else if Ascii.eqb c "}" then
    if (braceCount st - 1 =? 0)%Z
    then Break (setBraceCount (braceCount st - 1) st)
    else Next (setBraceCount (braceCount st - 1) st)
  else Next st.

(** The same inside a literal opened by [q]. *)
Definition insideRule (st : ScanState) (q c : ascii) : Turn :=
  if Ascii.eqb c q then Next (setString false None st) else Next st.

(** The reading of the specification under which a backslash met
    outside a string literal leaves the treatment of the next character
    as it would be without it. *)
Definition backslashInertOutsideStrings : Prop :=
  forall st st1 c,
    inString st = false -> escapeNext st = false ->
    scanChar st backslash = Next st1 ->
    scanChar st1 c = scanChar st c.

(** ** The fallback patterns of [parseWithRegex]

    The variable name is spliced into the pattern source as it is.  The
    model covers names made of ASCII letters, digits, '_' and '$'
    ([identName]): letters, digits and '_' stand for themselves, and '$'
    is the end-of-input assertion, after which each pattern still asks
    for a character, so a name holding '$' matches nowhere. *)

Definition identChar (c : ascii) : bool := isWord c || Ascii.eqb c "$".

Fixpoint identName (name : string) : bool :=
  match name with
  | EmptyString => true
  | String c name' => identChar c && identName name'
  end.

(** A greedy run of white space. *)
Fixpoint skipSpaces (s : string) : string :=
  match s with
  | EmptyString => EmptyString
  | String c s' => if isSpace c then skipSpaces s' else s
  end.

(** A literal piece of a pattern: what is left of [s] after [p]. *)
Definition eat (p s : string) : option string :=
  if startsWith p s then Some (drop (String.length p) s) else None.

(** The object-literal pattern shared by the three expressions: '{',
    a run of characters other than '}', any number of groups made of
    '{', such a run, '}' and such a run, then '}'.  [objectEnd] matches
    it, followed by [;] when [semi] is set, from just after the opening
    brace; the result is the length of the match up to its closing
    brace, [n] characters being matched already.
    Backtracking tries the closing braces in text order: one is the end
    of the match when [;] follows (or none is asked for); otherwise the
    search goes on past it only if a '{' was met since the previous
    closing brace, as each repetition of the group opens with one. *)
Fixpoint objectEnd (semi sawOpen : bool) (n : nat) (s : string) : option nat :=
  match s with
  | EmptyString => None
  | String c s' =>
      if Ascii.eqb c "}" then
        if negb semi || startsWith ";" s' then Some (S n)
        else if sawOpen then objectEnd semi false (S n) s'
        else None
      else objectEnd semi (sawOpen || Ascii.eqb c "{") (S n) s'
  end.

(** Group 1 of a pattern whose object literal starts at [s]. *)
Definition objectLiteral (semi : bool) (s : string) : option string :=
  match s with
  | EmptyString => None
  | String c s' =>
      if Ascii.eqb c "{" then
        match objectEnd semi false 1 s' with
        | Some n => Some (take n s)
        | None => None
        end
      else None
  end.

(** The first position of [s], from the left, at which [m] matches. *)
Fixpoint firstMatch (m : string -> option string) (s : string) : option string :=
  match m s with
  | Some g => Some g
  | None =>
      match s with
      | EmptyString => None
      | String _ s' => firstMatch m s'
      end
  end.

(** [.] without the [s] flag matches no line terminator. *)
Definition isLineTerminator (c : ascii) : bool :=
  let n := nat_of_ascii c in ((n =? 10) || (n =? 13))%nat.

(** The body of a single-quoted literal in the quote-normalising
    expression: characters other than a quote and a backslash, or a
    backslash with the character [.] accepts after it, up to the closing
    quote.  From just after the opening quote: the length of the match,
    closing quote included. *)
Fixpoint quotedBody (n : nat) (s : string) : option nat :=
  match s with
  | EmptyString => None
  | String c s' =>
      if Ascii.eqb c squote then Some (S n)
      else if Ascii.eqb c backslash then
        match s' with
        | EmptyString => None
        | String d s'' =>
            if isLineTerminator d then None else quotedBody (S (S n)) s''
        end
      else quotedBody (S n) s'
  end.

(** The global [jsonStr.replace] that turns every single-quoted
    literal into a double-quoted one with the same body; [skip] counts
    the characters of the current match still to pass over. *)
Fixpoint normalizeQuotes (skip : nat) (s : string) : string :=
  match s with
  | EmptyString => EmptyString
  | String c s' =>
      match skip with
      | S k => normalizeQuotes k s'
      | 0 =>
          if Ascii.eqb c squote then
            match quotedBody 0 s' with
            | Some n =>
                String dquote
                  (take (n - 1) s' ++ String dquote (normalizeQuotes n s'))
            | None => String c (normalizeQuotes 0 s')
            end
          else String c (normalizeQuotes 0 s')
      end
  end.

Section Parser.

(** The built-in [JSON.parse]; [None] stands for a [SyntaxError]. *)
Variable JSON_parse : string -> option JsonValue.

(** [this.varName] *)
Variable varName : string.

Definition Outcome : Type := result JsonValue CouldNotRetrieveTranscript.

(** Steps 1 to 3 of [parseCharByChar]: the text between the braces,
    braces included, or [None] where the source throws. *)
Definition extractLiteral (html : string) : option string :=
  let varMarker := "var " ++ varName in
  let parts := split varMarker html in
  let found :=
    if (List.length parts <=? 1)%nat then
      let parts := split varName html in
      if (List.length parts <=? 1)%nat then None else Some parts
    else Some parts in
  match found with
  | None => None
  | Some parts =>
      let afterVar := nth 1 parts EmptyString in
      match indexOf "{" afterVar with
      | None => None
      | Some openBraceIndex =>
          let startIndex := openBraceIndex in
          match findEnd startIndex afterVar with
          | None => None
          | Some endIndex =>
              Some (substring startIndex (endIndex + 1) afterVar)
          end
      end
  end.

Definition parseCharByChar (html videoId : string) : Outcome :=
  match extractLiteral html with
  | None => Err (youTubeDataUnparsable videoId)
  | Some jsonStr =>
      match JSON_parse jsonStr with
      | Some v => Ok v
      | None => Err (youTubeDataUnparsable videoId)
      end
  end.

(** ** The fallback patterns

    The source splices [varName] unescaped into [new RegExp].  The three
    definitions below read the name as literal text, which is what the
    expression does when the name is an identifier: letters, digits and
    '_' stand for themselves, and a '$' asserts the end of the input in
    the middle of the pattern, so that nothing matches ([regexMatch]).
    For a name with other characters of the expression syntax, such as
    a parenthesis or a dot, the expression is another one, or none at
    all, and these definitions do not describe it: what is proved of
    the fallback is proved for identifiers. *)

(** First pattern: [var], white space, the name, [=] and the object
    literal followed by [;], with optional white space around [=]. *)
Definition matchVarAssign (s : string) : option string :=
  match eat "var" s with
  | None => None
  | Some s1 =>
      match s1 with
      | EmptyString => None
      | String c _ =>
          if isSpace c then
            match eat varName (skipSpaces s1) with
            | None => None
            | Some s2 =>
                match eat "=" (skipSpaces s2) with
                | None => None
                | Some s3 => objectLiteral true (skipSpaces s3)
                end
            end
          else None
      end
  end.

(** Second pattern: the first without [var]. *)
Definition matchAssign (s : string) : option string :=
  match eat varName s with
  | None => None
  | Some s2 =>
      match eat "=" (skipSpaces s2) with
      | None => None
      | Some s3 => objectLiteral true (skipSpaces s3)
      end
  end.

(** Third pattern: the name between double quotes, [:] and the object
    literal, with optional white space around [:]. *)
Definition matchProperty (s : string) : option string :=
  match eat (String dquote varName ++ String dquote EmptyString) s with
  | None => None
  | Some s2 =>
      match eat ":" (skipSpaces s2) with
      | None => None
      | Some s3 => objectLiteral false (skipSpaces s3)
      end
  end.

Definition patterns : list (string -> option string) :=
  [matchVarAssign; matchAssign; matchProperty].

(** [html.match(pattern)]: group 1 of the leftmost match. *)
Definition regexMatch (pattern : string -> option string) (html : string)
  : option string :=
  if includes "$" varName then None else firstMatch pattern html.

(** What one pattern yields: the value parsed from its group 1 after
    the quotes are normalised. *)
Definition patternValue (pattern : string -> option string) (html : string)
  : option JsonValue :=
  match regexMatch pattern html with
  | Some group1 => JSON_parse (normalizeQuotes 0 group1)
  | None => None
  end.

Fixpoint tryPatterns (ps : list (string -> option string))
         (html videoId : string) : Outcome :=
  match ps with
  | [] => Err (youTubeDataUnparsable videoId)
  | pattern :: ps' =>
      match patternValue pattern html with
      | Some v => Ok v
      | None => tryPatterns ps' html videoId
      end
  end.

Definition parseWithRegex (html videoId : string) : Outcome :=
  tryPatterns patterns html videoId.

Definition parse (html videoId : string) : Outcome :=
  match parseCharByChar html videoId with
  | Ok v => Ok v
  | Err _ => parseWithRegex html videoId
  end.

End Parser.

End JsVarParser.

(* ================================================================== *)
(** * The document tree handled through cheerio *)
(* ================================================================== *)

Module Dom.
Import Js.

(** A parsed document is a forest of text nodes and elements.  Comments,
    CDATA sections and directives are not represented. *)
Inductive Node : Type :=
| Text (data : string)
| Element (name : string) (attribs : list (string * string))
          (children : list Node).

(** [$element.attr(name)]: [None] stands for [undefined]. *)
Fixpoint attr (name : string) (attribs : list (string * string)) : option string :=
  match attribs with
  | [] => None
  | (k, v) :: rest => if String.eqb k name then Some v else attr name rest
  end.

(** [$element.text()] and [$.text()]: the text of all descendants. *)
Fixpoint textOfNode (n : Node) : string :=
  match n with
  | Text data => data
  | Element _ _ children => String.concat "" (map textOfNode children)
  end.

Definition textContent (nodes : list Node) : string :=
  String.concat "" (map textOfNode nodes).

(** [$(selector)] for a selector on the tag name: the matching elements
    in document order, an element before its descendants. *)
Fixpoint selectNode (p : string -> bool) (n : Node) : list Node :=
  match n with
  | Text _ => []
  | Element name _ children =>
      (if p name then [n] else []) ++ flat_map (selectNode p) children
  end.

Definition select (p : string -> bool) (nodes : list Node) : list Node :=
  flat_map (selectNode p) nodes.

Definition childrenOf (n : Node) : list Node :=
  match n with
  | Text _ => []
  | Element _ _ children => children
  end.

Definition attribsOf (n : Node) : list (string * string) :=
  match n with
  | Text _ => []
  | Element _ attribs _ => attribs
  end.

End Dom.

(* ================================================================== *)
(** * More built-ins: [parseFloat], [replace], [trim] *)
(* ================================================================== *)

Module JsLib.
Import Js.

(** A JavaScript number as far as the decoder looks at it. *)
Inductive JsNumber : Type :=
| NaN
| Infinity (neg : bool)
| Finite (d : Decimal).

Definition isNaN (x : JsNumber) : bool :=
  match x with
  | NaN => true
  | _ => false
  end.

Fixpoint trimStart (s : string) : string :=
  match s with
  | EmptyString => EmptyString
  | String c s' => if isSpace c then trimStart s' else s
  end.

Fixpoint trimEnd (s : string) : string :=
  match s with
  | EmptyString => EmptyString
  | String c s' =>
      match trimEnd s' with
      | EmptyString => if isSpace c then EmptyString else String c EmptyString
      | t => String c t
      end
  end.

(** [s.trim()] *)
Definition trim (s : string) : string := trimEnd (trimStart s).

(** The exponent part of a decimal literal, when there is a complete
    one at the start of [s]. *)
Definition exponentPart (s : string) : Z :=
  match s with
  | String c r =>
      if Ascii.eqb c "e" || Ascii.eqb c "E" then
        let '(eneg, r1) :=
          match r with
          | String d r' =>
              if Ascii.eqb d "-" then (true, r')
              else if Ascii.eqb d "+" then (false, r')
              else (false, r)
          | EmptyString => (false, r)
          end in
        let '(v, n, _) := Json.digits 0 0 r1 in
        match n with
        | 0 => 0%Z
        | S _ => if eneg then (- Z.of_N v)%Z else Z.of_N v
        end
      else 0%Z
  | EmptyString => 0%Z
  end.

(** [parseFloat(s)]: leading white space is skipped, then the longest
    prefix that is a decimal literal is read; [NaN] when there is none. *)
Definition parseFloat (s : string) : JsNumber :=
  let t := trimStart s in
  let '(neg, t1) :=
    match t with
    | String c r =>
        if Ascii.eqb c "-" then (true, r)
        else if Ascii.eqb c "+" then (false, r)
        else (false, t)
    | EmptyString => (false, t)
    end in
  if startsWith "Infinity" t1 then Infinity neg
  else
    let '(i, n1, t2) := Json.digits 0 0 t1 in
    let '(m, n2, t3) :=
      match t2 with
      | String c r =>
          if Ascii.eqb c "." then Json.digits i 0 r else (i, 0, t2)
      | EmptyString => (i, 0, t2)
      end in
    match n1 + n2 with
    | 0 => NaN
    | S _ =>
        Finite {| negative := neg; mantissa := m;
                  exponent10 := (exponentPart t3 - Z.of_nat n2)%Z |}
    end.

(** The replacement text of [String.prototype.replace] for a string
    pattern: [$$] is a dollar sign, [$&] the matched text, [$`] what
    precedes it and [$'] what follows it; there are no captures, so any
    other use of [$] stands for itself. *)
Fixpoint getSubstitution (matched before after replacement : string) : string :=
  match replacement with
  | EmptyString => EmptyString
  | String c r =>
      if Ascii.eqb c "$" then
        match r with
        | EmptyString => String c EmptyString
        | String d r' =>
            if Ascii.eqb d "$" then
              String "$" (getSubstitution matched before after r')
            else if Ascii.eqb d "&" then
              matched ++ getSubstitution matched before after r'
            else if Ascii.eqb d "`" then
              before ++ getSubstitution matched before after r'
            else if Ascii.eqb d "'" then
              after ++ getSubstitution matched before after r'
            else
              String c (String d (getSubstitution matched before after r'))
        end
      else String c (getSubstitution matched before after r)
  end.

(** [s.replace(pattern, replacement)] for a string pattern: the first
    occurrence only. *)
Definition replace (s pattern replacement : string) : string :=
  match indexOf pattern s with
  | None => s
  | Some pos =>
      let before := take pos s in
      let after := drop (pos + String.length pattern) s in
      before ++ getSubstitution pattern before after replacement ++ after
  end.

(** [text.replace(/\s+/g, ' ')]; [inRun] is set while inside a run of
    white space whose blank is already written. *)
Fixpoint collapseSpaces (inRun : bool) (s : string) : string :=
  match s with
  | EmptyString => EmptyString
  | String c s' =>
      if isSpace c then
        if inRun then collapseSpaces true s'
        else String " " (collapseSpaces true s')
      else String c (collapseSpaces false s')
  end.

(** The number of matches of [/<text[^>]*>/g]; [skip] counts the
    characters of the current match still to pass over. *)
Fixpoint countOpenTags (skip : nat) (s : string) : nat :=
  match s with
  | EmptyString => 0
  | String c s' =>
      match skip with
      | S k => countOpenTags k s'
      | 0 =>
          if startsWith "<text" s then
            match indexOf ">" (drop 4 s') with
            | Some j => S (countOpenTags (4 + j + 1) s')
            | None => countOpenTags 0 s'
            end
          else countOpenTags 0 s'
      end
  end.

(** The number of matches of a global expression made of the literal
    text [lit] (not empty). *)
Fixpoint countLiteral (lit : string) (skip : nat) (s : string) : nat :=
  match s with
  | EmptyString => 0
  | String c s' =>
      match skip with
      | S k => countLiteral lit k s'
      | 0 =>
          if startsWith lit s
          then S (countLiteral lit (String.length lit - 1) s')
          else countLiteral lit 0 s'
      end
  end.

End JsLib.

(* ================================================================== *)
(** * The caption decoder ([src/transcript-parser.ts]) *)
(* ================================================================== *)

Module TranscriptParser.
Import Js JsLib Dom.

(** What the decoder uses of cheerio.  Parsing and serialising are the
    library's business and stay abstract; the traversals and the
    replacements the decoder asks for are modelled on the tree. *)
Record Engine : Type := {
  (** the children of the root of [load(text, { xmlMode: true })] *)
  loadXml : string -> list Node;
  (** the children of the root of [load(text, { xmlMode: false })] *)
  loadHtml : string -> list Node;
  (** the nodes that [replaceWith(text)] puts in place of an element *)
  parseFragment : string -> list Node;
  (** [.html()] on an element of an XML document, given its children *)
  renderXml : list Node -> string;
  (** [.html()] on an element of an HTML document, given its children *)
  renderHtml : list Node -> string
}.

(** [FetchedTranscriptSnippet] *)
Record FetchedTranscriptSnippet : Type := {
  text : string;
  start : JsNumber;
  duration : JsNumber
}.

(** The two fields of a [TranscriptParser]. *)
Record TranscriptParser : Type := {
  preserveFormatting : bool;
  linkFormat : string
}.

Definition FORMATTING_TAGS : list string :=
  [ "strong"; "em"; "b"; "i"; "mark"; "small"; "del"; "ins"; "sub"; "sup";
    "span"; "a" ].

Definition defaultLinkFormat : string := "{text} ({url})".

(** [new TranscriptParser(preserveFormatting, linkFormat)] *)
Definition new (preserveFormatting : bool) (linkFormat : string) : TranscriptParser :=
  {| preserveFormatting := preserveFormatting; linkFormat := linkFormat |}.

Definition withConfig (preserveFormatting : bool) (linkFormat : string)
  : result TranscriptParser string :=
  if negb (includes "{text}" linkFormat) || negb (includes "{url}" linkFormat)
  then Err "Link format must contain {text} and {url} placeholders"
  else Ok (new preserveFormatting linkFormat).

Definition isTag (tag name : string) : bool := String.eqb name tag.

Fixpoint memberOf (name : string) (names : list string) : bool :=
  match names with
  | [] => false
  | n :: rest => String.eqb name n || memberOf name rest
  end.

(** The first element a tag selector finds, as [.html()] reads it. *)
Definition firstChildren (tag : string) (doc : list Node) : option (list Node) :=
  match select (isTag tag) doc with
  | [] => None
  | n :: _ => Some (childrenOf n)
  end.

(** [value || fallback] on strings *)
Definition orElse (value fallback : string) : string :=
  match value with
  | EmptyString => fallback
  | String _ _ => value
  end.

(** The table of the manual decoding. *)
Definition entities (entity : string) : option string :=
  if String.eqb entity "&amp;" then Some "&"
  else if String.eqb entity "&lt;" then Some "<"
  else if String.eqb entity "&gt;" then Some ">"
  else if String.eqb entity (qq "&quot;") then Some (String dquote EmptyString)
  else if String.eqb entity "&#39;" then Some "'"
  else if String.eqb entity "&apos;" then Some "'"
  else None.

(** After an ampersand: the length of the run of '#' and word characters
    that a semicolon ends, when there is one and it is not empty. *)
Fixpoint entityRun (n : nat) (s : string) : option nat :=
  match s with
  | EmptyString => None
  | String c s' =>
      if isWord c || Ascii.eqb c "#" then entityRun (S n) s'
      else if Ascii.eqb c ";" then
        match n with
        | 0 => None
        | S _ => Some n
        end
      else None
  end.

(** The global replacement of [&name;] through [entities], an unknown
    entity staying as it is. *)
Fixpoint decodeManually (skip : nat) (s : string) : string :=
  match s with
  | EmptyString => EmptyString
  | String c s' =>
      match skip with
      | S k => decodeManually k s'
      | 0 =>
          if Ascii.eqb c "&" then
            match entityRun 0 s' with
            | Some n =>
                let entity := String c (take (S n) s') in
                match entities entity with
                | Some decoded => decoded ++ decodeManually (S n) s'
                | None => entity ++ decodeManually (S n) s'
                end
            | None => String c (decodeManually 0 s')
            end
          else String c (decodeManually 0 s')
      end
  end.

Section Decoder.

Variable cheerio : Engine.
Variable this : TranscriptParser.

Definition decodeHtmlEntities (text : string) : string :=
  let doc := loadHtml cheerio ("<div>" ++ text ++ "</div>") in
  let decodedHtml :=
    match firstChildren "div" doc with
    | Some children => orElse (renderHtml cheerio children) text
    | None => text
    end in
  if negb (String.eqb decodedHtml text) then decodedHtml
  else decodeManually 0 text.

(** The text an anchor is replaced with. *)
Definition linkReplacement (attribs : list (string * string))
           (children : list Node) : string :=
  let href := attr "href" attribs in
  let linkText := textContent children in
  match href, linkText with
  | Some (String h hs), String _ _ =>
      replace (replace (linkFormat this) "{text}" linkText)
              "{url}" (String h hs)
  | _, _ => linkText
  end.

(** [$('a').each(...)]: the anchors are visited in document order, each
    being replaced by the nodes its replacement text parses to.  An
    anchor inside an anchor already replaced is no longer part of the
    document, so that replacing it changes nothing. *)
Fixpoint rewriteLinks (n : Node) : list Node :=
  match n with
  | Text _ => [n]
  | Element name attribs children =>
      if isTag "a" name
      then parseFragment cheerio (linkReplacement attribs children)
      else [Element name attribs (flat_map rewriteLinks children)]
  end.

Definition htmlToPlainText (html : string) : string :=
  let doc := loadHtml cheerio html in
  textContent (flat_map rewriteLinks doc).

(** Whether [.not('div, strong, em, ...')] takes an element out of the
    selection. *)
Definition keptTag (name : string) : bool :=
  memberOf name ("div" :: FORMATTING_TAGS).

(** The second pass of [processWithFormatting]: the elements selected
    beforehand are visited in document order, each being replaced by the
    nodes its inner markup (or, failing that, its text) parses to.  As
    with the anchors, an element inside one already replaced is no
    longer part of the document. *)
Fixpoint stripTags (n : Node) : list Node :=
  match n with
  | Text _ => [n]
  | Element name attribs children =>
      if keptTag name
      then [Element name attribs (flat_map stripTags children)]
      else parseFragment cheerio
             (orElse (renderHtml cheerio children) (textContent children))
  end.

Definition processWithFormatting (text : string) : string :=
  let doc := loadHtml cheerio ("<div>" ++ text ++ "</div>") in
  let doc := flat_map rewriteLinks doc in
  let doc := flat_map stripTags doc in
  match firstChildren "div" doc with
  | Some children => orElse (renderHtml cheerio children) ""
  | None => ""
  end.

(** [!str] for the result of [attr] *)
Definition missing (str : option string) : bool :=
  match str with
  | None => true
  | Some EmptyString => true
  | Some (String _ _) => false
  end.

Definition valueOf (str : option string) : string :=
  match str with
  | Some s => s
  | None => EmptyString
  end.

(** The part of the text pipeline that follows the timing checks. *)
Definition renderText (children : list Node) : string :=
  let text := orElse (renderXml cheerio children) "" in
  let text := decodeHtmlEntities text in
  let text :=
    if preserveFormatting this then processWithFormatting text
    else htmlToPlainText text in
  trim (collapseSpaces false text).

(** The callback of [$('text').each(...)]: the snippet a [text] element
    adds to [snippets], if any. *)
Definition snippetOf (element : Node) : option FetchedTranscriptSnippet :=
  let startStr := attr "start" (attribsOf element) in
  let durStr := attr "dur" (attribsOf element) in
  if missing startStr || missing durStr then None
  else
    let start := parseFloat (valueOf startStr) in
    let duration := parseFloat (valueOf durStr) in
    if isNaN start || isNaN duration then None
    else
      let text := renderText (childrenOf element) in
      match text with
      | EmptyString => None
      | String _ _ =>
          Some {| text := text; start := start; duration := duration |}
      end.

Fixpoint collect (elements : list Node) : list FetchedTranscriptSnippet :=
  match elements with
  | [] => []
  | element :: rest =>
      match snippetOf element with
      | Some snippet => snippet :: collect rest
      | None => collect rest
      end
  end.

(** What the [catch] clause rethrows. *)
Definition failed (message : string) : string :=
  "Failed to parse transcript XML: " ++ message.

Definition parse (rawData : string)
  : result (list FetchedTranscriptSnippet) string :=
  if negb (includes "<transcript" rawData)
     || negb (includes "</transcript>" rawData)
  then Err (failed "Invalid transcript XML structure")
  else
    let openTags := countOpenTags 0 rawData in
    let closeTags := countLiteral "</text>" 0 rawData in
    if negb (openTags =? closeTags)%nat
    then Err (failed "Malformed XML: mismatched text tags")
    else
      let doc := loadXml cheerio rawData in
      match select (isTag "transcript") doc with
      | [] => Err (failed "No transcript element found in XML")
      | _ :: _ => Ok (collect (select (isTag "text") doc))
      end.

End Decoder.

End TranscriptParser.

(* ================================================================== *)
(** * A small stand-in for cheerio *)
(* ================================================================== *)

(** The properties of the decoder are stated for every [Engine].  To run
    the decoder on sample captions one engine is needed; this one reads
    the markup the samples are made of: elements with quoted or bare
    attributes, text, and the character references [&amp;], [&lt;],
    [&gt;], [&quot;], [&apos;], [&#...;] and, in HTML, [&nbsp;].  Like cheerio it wraps an
    HTML document in [html], [head] and [body], drops these three tags
    from a fragment, lowercases HTML names, knows the void elements and
    serialises the way parse5 (HTML) and dom-serializer (XML) do.  It
    does not know the repair rules of the HTML parser (implied end tags,
    misnested formatting, tables, raw-text elements). *)

Module Mini.
Import Js Dom.

Inductive Token : Type :=
| TText (data : string)
| TOpen (name : string) (attribs : list (string * string)) (selfClosing : bool)
| TClose (name : string).

Definition isLetter (c : ascii) : bool :=
  let n := nat_of_ascii c in
  ((65 <=? n) && (n <=? 90) || (97 <=? n) && (n <=? 122))%nat.

Definition lowerChar (c : ascii) : ascii :=
  let n := nat_of_ascii c in
  if ((65 <=? n) && (n <=? 90))%nat then ascii_of_nat (n + 32) else c.

Fixpoint lower (s : string) : string :=
  match s with
  | EmptyString => EmptyString
  | String c s' => String (lowerChar c) (lower s')
  end.

Definition snoc (s : string) (c : ascii) : string := s ++ String c EmptyString.

(** The markup white space: TAB, LF, FF, CR and SP. *)
Definition isBlank (c : ascii) : bool :=
  let n := nat_of_ascii c in
  ((n =? 9) || (n =? 10) || (n =? 12) || (n =? 13) || (n =? 32))%nat.

(** ** Character references *)

Fixpoint hexDigits (acc : N) (count : nat) (s : string) : N * nat * string :=
  match s with
  | EmptyString => (acc, count, s)
  | String c s' =>
      match Json.hexValue c with
      | Some v => hexDigits (acc * 16 + v)%N (S count) s'
      | None => (acc, count, s)
      end
  end.

Definition charOfCode (code : N) : option string :=
  if (code <? 256)%N then Some (String (ascii_of_N code) EmptyString) else None.

(** After an ampersand: the text a reference stands for and the number
    of characters it takes, semicolon included.  [&nbsp;], which the
    HTML serialiser writes for the no-break space, is a reference of
    HTML and not of XML. *)
Definition reference (html : bool) (s : string) : option (string * nat) :=
  if startsWith "amp;" s then Some ("&", 4)
  else if startsWith "lt;" s then Some ("<", 3)
  else if startsWith "gt;" s then Some (">", 3)
  else if startsWith "quot;" s then Some (String dquote EmptyString, 5)
  else if startsWith "apos;" s then Some ("'", 5)
  else if html && startsWith "nbsp;" s
  then Some (String (ascii_of_nat 160) EmptyString, 5)
  else if startsWith "#x" s then
    let '(code, n, r) := hexDigits 0 0 (drop 2 s) in
    match n, charOfCode code with
    | S _, Some t => if startsWith ";" r then Some (t, n + 3) else None
    | _, _ => None
    end
  else if startsWith "#" s then
    let '(code, n, r) := Json.digits 0 0 (drop 1 s) in
    match n, charOfCode code with
    | S _, Some t => if startsWith ";" r then Some (t, n + 2) else None
    | _, _ => None
    end
  else None.

Fixpoint decodeReferences (html : bool) (skip : nat) (s : string) : string :=
  match s with
  | EmptyString => EmptyString
  | String c s' =>
      match skip with
      | S k => decodeReferences html k s'
      | 0 =>
          if Ascii.eqb c "&" then
            match reference html s' with
            | Some (t, n) => t ++ decodeReferences html n s'
            | None => String c (decodeReferences html 0 s')
            end
          else String c (decodeReferences html 0 s')
      end
  end.

(** ** Tags *)

Inductive AttrState : Type :=
| ABetween
| AName (name : string)
| AAfterName (name : string)
| ABeforeValue (name : string)
| AQuoted (name : string) (quote : ascii) (value : string)
| ABare (name : string) (value : string).

Definition attribute (html : bool) (name value : string) : string * string :=
  ((if html then lower name else name), decodeReferences html 0 value).

Fixpoint attributes (html : bool) (st : AttrState) (s : string)
  : list (string * string) :=
  match s with
  | EmptyString =>
      match st with
      | ABetween => []
      | AName n | AAfterName n | ABeforeValue n => [attribute html n ""]
      | AQuoted n _ v | ABare n v => [attribute html n v]
      end
  | String c s' =>
      match st with
      | ABetween =>
          if isBlank c || Ascii.eqb c "/" then attributes html ABetween s'
          else attributes html (AName (String c EmptyString)) s'
      | AName n =>
          if isBlank c then attributes html (AAfterName n) s'
          else if Ascii.eqb c "=" then attributes html (ABeforeValue n) s'
          else if Ascii.eqb c "/" then
            attribute html n "" :: attributes html ABetween s'
          else attributes html (AName (snoc n c)) s'
      | AAfterName n =>
          if isBlank c then attributes html (AAfterName n) s'
          else if Ascii.eqb c "=" then attributes html (ABeforeValue n) s'
          else if Ascii.eqb c "/" then
            attribute html n "" :: attributes html ABetween s'
          else
            attribute html n ""
              :: attributes html (AName (String c EmptyString)) s'
      | ABeforeValue n =>
          if isBlank c then attributes html (ABeforeValue n) s'
          else if Ascii.eqb c dquote || Ascii.eqb c squote then
            attributes html (AQuoted n c "") s'
          else attributes html (ABare n (String c EmptyString)) s'
      | AQuoted n q v =>
          if Ascii.eqb c q then
            attribute html n v :: attributes html ABetween s'
          else attributes html (AQuoted n q (snoc v c)) s'
      | ABare n v =>
          if isBlank c then attribute html n v :: attributes html ABetween s'
          else attributes html (ABare n (snoc v c)) s'
      end
  end.

(** The length of the tag name at the start of [s]. *)
Fixpoint nameLength (s : string) : nat :=
  match s with
  | EmptyString => 0
  | String c s' =>
      if isBlank c || Ascii.eqb c "/" then 0 else S (nameLength s')
  end.

Fixpoint endsWithSlash (s : string) : bool :=
  match s with
  | EmptyString => false
  | String c EmptyString => Ascii.eqb c "/"
  | String _ s' => endsWithSlash s'
  end.

(** The token for the text [inner] found between '<' and '>'. *)
Definition tagToken (html : bool) (inner : string) : list Token :=
  match inner with
  | EmptyString => []
  | String c r =>
      if Ascii.eqb c "/" then
        let name := take (nameLength r) r in
        [TClose (if html then lower name else name)]
      else if isLetter c then
        let n := nameLength inner in
        let name := take n inner in
        [TOpen (if html then lower name else name)
               (attributes html ABetween (drop n inner))
               (endsWithSlash inner)]
      else []
  end.

(** The index of the '>' that ends a tag, quoted text being passed
    over. *)
Fixpoint tagEnd (quote : option ascii) (n : nat) (s : string) : option nat :=
  match s with
  | EmptyString => None
  | String c s' =>
      match quote with
      | Some q =>
          tagEnd (if Ascii.eqb c q then None else quote) (S n) s'
      | None =>
          if Ascii.eqb c ">" then Some n
          else if Ascii.eqb c dquote || Ascii.eqb c squote
          then tagEnd (Some c) (S n) s'
          else tagEnd None (S n) s'
      end
  end.

Definition startsTag (s : string) : bool :=
  match s with
  | EmptyString => false
  | String c _ =>
      isLetter c || Ascii.eqb c "/" || Ascii.eqb c "!" || Ascii.eqb c "?"
  end.

Definition flush (html : bool) (pending : string) : list Token :=
  match pending with
  | EmptyString => []
  | String _ _ => [TText (decodeReferences html 0 pending)]
  end.

(** [pending] is the text read since the last tag; [skip] counts the
    characters of the current tag still to pass over. *)
Fixpoint tokenize (html : bool) (skip : nat) (pending s : string) : list Token :=
  match s with
  | EmptyString => flush html pending
  | String c s' =>
      match skip with
      | S k => tokenize html k pending s'
      | 0 =>
          if Ascii.eqb c "<" && startsTag s' then
            match tagEnd None 0 s' with
            | Some n =>
                flush html pending ++ tagToken html (take n s')
                  ++ tokenize html (S n) "" s'
            | None => tokenize html 0 (snoc pending c) s'
            end
          else tokenize html 0 (snoc pending c) s'
      end
  end.

(** ** Tree construction *)

Definition voidElements : list string :=
  [ "area"; "base"; "br"; "col"; "embed"; "hr"; "img"; "input"; "link";
    "meta"; "source"; "track"; "wbr" ].

Fixpoint isIn (name : string) (names : list string) : bool :=
  match names with
  | [] => false
  | n :: rest => String.eqb name n || isIn name rest
  end.

(** An open element: its name, its attributes and the children its
    parent had, latest first, when it was opened. *)
Definition Frame : Type := (string * list (string * string) * list Node)%type.

Definition closeFrame (f : Frame) (childrenRev : list Node) : list Node :=
  let '(name, attribs, parentRev) := f in
  Element name attribs (rev childrenRev) :: parentRev.

Fixpoint isOpen (name : string) (stack : list Frame) : bool :=
  match stack with
  | [] => false
  | (n, _, _) :: rest => String.eqb n name || isOpen name rest
  end.

(** Closes the open elements down to the innermost one called [name]. *)
Fixpoint closeTo (name : string) (stack : list Frame) (cur : list Node)
  : list Frame * list Node :=
  match stack with
  | [] => ([], cur)
  | (n, a, p) :: rest =>
      if String.eqb n name then (rest, closeFrame (n, a, p) cur)
      else closeTo name rest (closeFrame (n, a, p) cur)
  end.

Fixpoint closeAll (stack : list Frame) (cur : list Node) : list Node :=
  match stack with
  | [] => rev cur
  | f :: rest => closeAll rest (closeFrame f cur)
  end.

Fixpoint build (html : bool) (tokens : list Token) (stack : list Frame)
         (cur : list Node) : list Node :=
  match tokens with
  | [] => closeAll stack cur
  | TText data :: ts => build html ts stack (Text data :: cur)
  | TOpen name attribs selfClosing :: ts =>
      if (if html then isIn name voidElements else selfClosing)
      then build html ts stack (Element name attribs [] :: cur)
      else build html ts ((name, attribs, cur) :: stack) []
  | TClose name :: ts =>
      if isOpen name stack then
        let '(stack', cur') := closeTo name stack cur in
        build html ts stack' cur'
      else build html ts stack cur
  end.

Definition structural (t : Token) : bool :=
  match t with
  | TText _ => false
  | TOpen name _ _ | TClose name => isIn name ["html"; "head"; "body"]
  end.

Definition fragment (s : string) : list Node :=
  build true (filter (fun t => negb (structural t)) (tokenize true 0 "" s)) [] [].

Fixpoint dropBlanks (s : string) : string :=
  match s with
  | EmptyString => EmptyString
  | String c s' => if isBlank c then dropBlanks s' else s
  end.

Definition document (s : string) : list Node :=
  [Element "html" []
     [Element "head" [] []; Element "body" [] (fragment (dropBlanks s))]].

Definition xmlDocument (s : string) : list Node :=
  build false (tokenize false 0 "" s) [] [].

(** ** Serialisation *)

Definition nbsp : ascii := ascii_of_nat 160.

Fixpoint escapeHtml (inAttribute : bool) (s : string) : string :=
  match s with
  | EmptyString => EmptyString
  | String c s' =>
      (if Ascii.eqb c "&" then "&amp;"
       else if Ascii.eqb c nbsp then "&nbsp;"
       else if inAttribute then
         if Ascii.eqb c dquote then "&quot;" else String c EmptyString
       else if Ascii.eqb c "<" then "&lt;"
       else if Ascii.eqb c ">" then "&gt;"
       else String c EmptyString)
      ++ escapeHtml inAttribute s'
  end.

Definition hexChar (n : nat) : ascii :=
  nth n (list_ascii_of_string "0123456789abcdef") "0"%char.

Definition hexOf (c : ascii) : string :=
  let n := nat_of_ascii c in
  (if (n <? 16)%nat then "" else String (hexChar (n / 16)) "")
  ++ String (hexChar (n mod 16)) "".

Fixpoint escapeXml (s : string) : string :=
  match s with
  | EmptyString => EmptyString
  | String c s' =>
      (if Ascii.eqb c "&" then "&amp;"
       else if Ascii.eqb c "<" then "&lt;"
       else if Ascii.eqb c ">" then "&gt;"
       else if Ascii.eqb c dquote then "&quot;"
       else if Ascii.eqb c "'" then "&apos;"
       else if Ascii.eqb c "$" || (128 <=? nat_of_ascii c)%nat
       then "&#x" ++ hexOf c ++ ";"
       else String c EmptyString)
      ++ escapeXml s'
  end.

Fixpoint attributesText (escape : string -> string)
         (attribs : list (string * string)) : string :=
  match attribs with
  | [] => ""
  | (k, v) :: rest =>
      " " ++ k ++ "=" ++ String dquote (escape v) ++ String dquote ""
      ++ attributesText escape rest
  end.

Fixpoint htmlOf (n : Node) : string :=
  match n with
  | Text data => escapeHtml false data
  | Element name attribs children =>
      "<" ++ name ++ attributesText (escapeHtml true) attribs ++ ">"
      ++ (if isIn name voidElements then ""
          else String.concat "" (map htmlOf children) ++ "</" ++ name ++ ">")
  end.

Fixpoint xmlOf (n : Node) : string :=
  match n with
  | Text data => escapeXml data
  | Element name attribs children =>
      "<" ++ name ++ attributesText escapeXml attribs
      ++ match children with
         | [] => "/>"
         | _ :: _ =>
             ">" ++ String.concat "" (map xmlOf children) ++ "</" ++ name ++ ">"
         end
  end.

Definition engine : TranscriptParser.Engine :=
  {| TranscriptParser.loadXml := xmlDocument;
     TranscriptParser.loadHtml := document;
     TranscriptParser.parseFragment := fragment;
     TranscriptParser.renderXml := fun nodes => String.concat "" (map xmlOf nodes);
     TranscriptParser.renderHtml := fun nodes => String.concat "" (map htmlOf nodes) |}.

End Mini.

(* ================================================================== *)
(** * The specification's wording, for comparison with the code *)
(* ================================================================== *)

Module Wording.
Import Js JsLib Dom TranscriptParser.

(** [new TranscriptParser(...)] seen as a construction that may fail: the
    constructor has no [throw]. *)
Definition construct (preserveFormatting : bool) (linkFormat : string)
  : result TranscriptParser string :=
  Ok (new preserveFormatting linkFormat).

Definition lacksPlaceholder (linkFormat : string) : Prop :=
  includes "{text}" linkFormat = false \/ includes "{url}" linkFormat = false.

(** "Constructing a decoder with a linkFormat lacking either placeholder
    fails", for one way [make] of constructing a decoder. *)
Definition validatesLinkFormat
           (make : bool -> string -> result TranscriptParser string) : Prop :=
  forall preserveFormatting linkFormat,
    lacksPlaceholder linkFormat ->
    exists message, make preserveFormatting linkFormat = Err message.

Definition skipSign (s : string) : string :=
  match s with
  | String c r =>
      if Ascii.eqb c "-" || Ascii.eqb c "+" then r else s
  | EmptyString => s
  end.

(** A numeric attribute value: an optional sign, digits with an optional
    fraction (or a fraction alone), an optional exponent, and nothing
    else. *)
Definition isDecimalNumber (s : string) : bool :=
  let '(_, n1, t2) := Json.digits 0 0 (skipSign s) in
  let '(n2, t3) :=
    match t2 with
    | String c r =>
        if Ascii.eqb c "." then
          let '(_, n, r') := Json.digits 0 0 r in (n, r')
        else (0, t2)
    | EmptyString => (0, t2)
    end in
  (0 <? n1 + n2)%nat &&
  match t3 with
  | EmptyString => true
  | String c r =>
      (Ascii.eqb c "e" || Ascii.eqb c "E") &&
      (let '(_, n, r') := Json.digits 0 0 (skipSign r) in
       (0 <? n)%nat && String.eqb r' "")
  end.

(** "A segment whose [start] or [dur] value is non-numeric is
    skipped." *)
Definition skipsNonNumeric : Prop :=
  forall cheerio this element name value,
    name = "start" \/ name = "dur" ->
    attr name (attribsOf element) = Some value ->
    isDecimalNumber value = false ->
    snippetOf cheerio this element = None.

(** The skip condition on the two timing attributes. *)
Definition skipped (element : Node) : bool :=
  let startStr := attr "start" (attribsOf element) in
  let durStr := attr "dur" (attribsOf element) in
  missing startStr || missing durStr
  || isNaN (parseFloat (valueOf startStr))
  || isNaN (parseFloat (valueOf durStr)).

(** Texts as the decoder is to emit them. *)
Fixpoint hasSpaceRun (s : string) : bool :=
  match s with
  | EmptyString => false
  | String a s' =>
      match s' with
      | EmptyString => false
      | String b _ => (isSpace a && isSpace b) || hasSpaceRun s'
      end
  end.

Definition startsWithSpace (s : string) : bool :=
  match s with
  | EmptyString => false
  | String c _ => isSpace c
  end.

Fixpoint endsWithSpace (s : string) : bool :=
  match s with
  | EmptyString => false
  | String c EmptyString => isSpace c
  | String _ s' => endsWithSpace s'
  end.

Definition normalised (s : string) : Prop :=
  s <> "" /\ hasSpaceRun s = false /\ startsWithSpace s = false
  /\ endsWithSpace s = false.

(** The snippets are the images of the segments that have one, in the
    order of the segments. *)
Inductive InOrder (f : Node -> option FetchedTranscriptSnippet)
  : list Node -> list FetchedTranscriptSnippet -> Prop :=
| InOrder_nil : InOrder f [] []
| InOrder_emit element snippet elements snippets :
    f element = Some snippet -> InOrder f elements snippets ->
    InOrder f (element :: elements) (snippet :: snippets)
| InOrder_drop element elements snippets :
    f element = None -> InOrder f elements snippets ->
    InOrder f (element :: elements) snippets.

(** Literal substitution of the two placeholders of a link template. *)
Definition substituteFirst (s placeholder value : string) : string :=
  match indexOf placeholder s with
  | None => s
  | Some pos =>
      take pos s ++ value ++ drop (pos + String.length placeholder) s
  end.

(** No dollar sign, the one character [replace] treats specially in its
    replacement argument. *)
Fixpoint noDollar (s : string) : bool :=
  match s with
  | EmptyString => true
  | String c s' => negb (Ascii.eqb c "$") && noDollar s'
  end.

Definition formatLink (linkFormat linkText href : string) : string :=
  substituteFirst (substituteFirst linkFormat "{text}" linkText) "{url}" href.

End Wording.

(* ================================================================== *)
(** * Sample inputs *)
(* ================================================================== *)

Module Samples.
Import Js JsLib Dom TranscriptParser.

Definition plain : TranscriptParser := new false defaultLinkFormat.

Definition decimal (neg : bool) (m : N) (e : Z) : JsNumber :=
  Finite {| negative := neg; mantissa := m; exponent10 := e |}.

Definition twoOpeningsOneClosing : string :=
  qq "<transcript><text start=`0` dur=`1`>a</text><text start=`1` dur=`1`>b</transcript>".

Definition orphanAndOk : string :=
  qq "<transcript><text dur=`1.0`>orphan</text><text start=`1.0` dur=`1.0`>ok</text></transcript>".

Definition trailingLetters : string :=
  qq "<transcript><text start=`1.0` dur=`1.5abc`>ok</text><text start=`` dur=`1`>x</text></transcript>".

Definition spacedOut : string :=
  qq "<transcript><text start=`0.0` dur=`1.0`>   Multiple   spaces   and
      newlines   </text><text start=`1` dur=`1`>   </text><text start=`2` dur=`1`>last</text></transcript>".

Definition formatting : TranscriptParser := new true defaultLinkFormat.

Definition segment (inner : string) : string :=
  qq "<transcript><text start=`0` dur=`1`>" ++ inner ++ "</text></transcript>".

Definition at0 (text : string) : FetchedTranscriptSnippet :=
  {| text := text; start := decimal false 0 0; duration := decimal false 1 0 |}.

Definition anchorT : Node :=
  Element "a" [("href", "https://x.test")] [Text "t"].

Definition linkT : string := qq "<a href=`https://x.test`>t</a>".

Definition linkDollars : string := qq "<a href=`https://x.test`>$$</a>".

End Samples.

(* ================================================================== *)
(** * The extractor's contract, in the specification's terms *)
(* ================================================================== *)

Module Contract.
Import Js JsVarParser.

(** A JavaScript identifier written with ASCII letters, digits, '_'
    and '$'. *)
Definition identifier (name : string) : bool :=
  match name with
  | EmptyString => false
  | String _ _ => identName name
  end.

Section Extraction.

Variable JSON_parse : string -> option JsonValue.
Variable varName : string.

(** The text the primary strategy looks at: what follows the first
    occurrence of the marker ([var NAME], or else the bare name), up to
    the next occurrence of that marker. *)
Definition afterMarker (html : string) : option string :=
  let parts := split ("var " ++ varName) html in
  if (List.length parts <=? 1)%nat then
    let parts := split varName html in
    if (List.length parts <=? 1)%nat then None
    else Some (nth 1 parts EmptyString)
  else Some (nth 1 parts EmptyString).

Definition markerAbsent (html : string) : Prop :=
  includes ("var " ++ varName) html = false /\ includes varName html = false.

(** The object-literal text a successful pattern was matched on, with
    the value read from it. *)
Fixpoint firstPattern (ps : list (string -> option string)) (html : string)
  : option (string * JsonValue) :=
  match ps with
  | [] => None
  | pattern :: ps' =>
      match regexMatch varName pattern html with
      | Some group1 =>
          match JSON_parse (normalizeQuotes 0 group1) with
          | Some v => Some (group1, v)
          | None => firstPattern ps' html
          end
      | None => firstPattern ps' html
      end
  end.

(** A successful extraction: the substring of [html] that was extracted
    and the value it yields. *)
Definition extraction (html : string) : option (string * JsonValue) :=
  match extractLiteral varName html with
  | Some jsonStr =>
      match JSON_parse jsonStr with
      | Some v => Some (jsonStr, v)
      | None => firstPattern (patterns varName) html
      end
  | None => firstPattern (patterns varName) html
  end.

(** The extracted substring, wrapped again as an assignment. *)
Definition rewrap (s : string) : string :=
  "var " ++ varName ++ " = " ++ s ++ ";".

End Extraction.

(** "Extraction is idempotent." *)
Definition idempotent (JSON_parse : string -> option JsonValue) : Prop :=
  forall varName html videoId s v,
    extraction JSON_parse varName html = Some (s, v) ->
    parse JSON_parse varName (rewrap varName s) videoId = Ok v.

Definition twiceAssigned : string := qq "X; X = {`a`: `x','b':'y`};".

Definition unterminated : string := qq "var X = {`a`: 1".

End Contract.

(* ================================================================== *)
(** * Video ids and URLs ([src/api.ts], [src/youtube-page-fetcher.ts]) *)
(* ================================================================== *)

Module Api.
Import Js.

(** The class of the characters of a video id: letters, digits, '_'
    and '-'. *)
Definition isIdChar (c : ascii) : bool := isWord c || Ascii.eqb c "-".

Fixpoint allIdChars (s : string) : bool :=
  match s with
  | EmptyString => true
  | String c s' => isIdChar c && allIdChars s'
  end.

(** The expression of [isValidVideoId] is anchored at both ends and
    asks for exactly eleven characters of the class. *)
Definition isValidVideoId (videoId : string) : bool :=
  (String.length videoId =? 11)%nat && allIdChars videoId.

(** Exactly [n] characters of the class at the start of [s]: the
    capture group of the URL patterns. *)
Fixpoint idChars (n : nat) (s : string) : option string :=
  match n with
  | 0 => Some EmptyString
  | S n' =>
      match s with
      | EmptyString => None
      | String c s' =>
          if isIdChar c then option_map (String c) (idChars n' s')
          else None
      end
  end.

(** One alternative of a pattern: a literal text, then the group. *)
Definition alternative (literal s : string) : option string :=
  match JsVarParser.eat literal s with
  | Some rest => idChars 11 rest
  | None => None
  end.

(** The first pattern at the start of [s]: its three alternatives are
    tried in the order they are written. *)
Definition watchPattern (s : string) : option string :=
  match alternative "youtube.com/watch?v=" s with
  | Some id => Some id
  | None =>
      match alternative "youtu.be/" s with
      | Some id => Some id
      | None => alternative "youtube.com/embed/" s
      end
  end.

(** The second pattern at the start of [s]. *)
Definition vPattern (s : string) : option string :=
  alternative "youtube.com/v/" s.

Definition patterns : list (string -> option string) :=
  [watchPattern; vPattern].

(** The loop over the patterns: group 1 of the leftmost match of the
    first pattern that matches; [None] stands for [null]. *)
Fixpoint firstOf (ps : list (string -> option string)) (url : string)
  : option string :=
  match ps with
  | [] => None
  | pattern :: ps' =>
      match JsVarParser.firstMatch pattern url with
      | Some group1 => Some group1
      | None => firstOf ps' url
      end
  end.

Definition extractVideoId (url : string) : option string :=
  firstOf patterns url.

Definition WATCH_URL : string := "https://www.youtube.com/watch?v={video_id}".

(** The address [fetchVideoPage] requests. *)
Definition watchUrl (videoId : string) : string :=
  JsLib.replace WATCH_URL "{video_id}" videoId.

End Api.

(* ================================================================== *)
(** * errors.ts: the message of [CouldNotRetrieveTranscript] *)
(* ================================================================== *)

Module Errors.
Import Js.

Definition nl : string := String "010"%char EmptyString.

(** [CouldNotRetrieveTranscriptReasonData]. Every field is optional;
  [transcriptData] stands for the text its [toString()] returns. *)
Module ReasonData.
Record t : Type := {
requestedLanguageCodes : option (list string);
transcriptData : option string;
reason : option string;
subReasons : option (list string);
details : option string
}.
Definition empty : t :=
  {| requestedLanguageCodes := None; transcriptData := None;
     reason := None; subReasons := None; details := None |}.
End ReasonData.

(** ** [JSON.stringify] of an array of strings

  QuoteJSONString of ECMA-262 on code units below 256: the two-letter
  escapes, [\u00xx] for the other control characters, everything else
  as it is. *)
Definition hexDigit (n : nat) : ascii :=
  nth n (list_ascii_of_string "0123456789abcdef") "0"%char.

Definition quoteChar (c : ascii) : string :=
  let n := nat_of_ascii c in
  if (n =? 8)%nat then "\b"
  else if (n =? 9)%nat then "\t"
  else if (n =? 10)%nat then "\n"
  else if (n =? 12)%nat then "\f"
  else if (n =? 13)%nat then "\r"
  else if (n =? 34)%nat then String backslash (String dquote "")
  else if (n =? 92)%nat then "\\"
  else if (n <? 32)%nat then
    "\u00" ++ String (hexDigit (n / 16)) (String (hexDigit (n mod 16)) "")
  else String c "".

Fixpoint quoteBody (s : string) : string :=
  match s with
  | EmptyString => EmptyString
  | String c s' => quoteChar c ++ quoteBody s'
  end.

Definition quote (s : string) : string :=
  String dquote (quoteBody s ++ String dquote "").

Definition stringify (items : list string) : string :=
  "[" ++ String.concat "," (map quote items) ++ "]".

(** ** [buildErrorMessage] *)

(** [this.reasonData?.f] *)
Definition field {A : Type} (f : ReasonData.t -> option A)
    (reasonData : option ReasonData.t) : option A :=
  match reasonData with
  | Some d => f d
  | None => None
  end.

(** [v || d] for an optional string: the empty string is falsy. *)
Definition orDefault (v : option string) (d : string) : string :=
  match v with
  | Some (String c s) => String c s
  | _ => d
  end.

Definition baseError (videoId : string) : string :=
  "Could not retrieve a transcript for the video " ++ videoId ++ "!".

Definition blockedText : string :=
  "YouTube is blocking requests from your IP. This usually is due to one of the following reasons:"
  ++ nl ++
  "- You have done too many requests and your IP has been blocked by YouTube"
  ++ nl ++
  "- You are doing requests from an IP belonging to a cloud provider (like AWS, Google Cloud Platform, Azure, etc.). Unfortunately, most IPs from cloud providers are blocked by YouTube."
  ++ nl ++ nl.

(** The loop [for (const subReason of subReasons) cause += ...]. *)
Definition addSubReason (cause subReason : string) : string :=
  cause ++ " - " ++ subReason ++ nl.

Definition cause (reason : CouldNotRetrieveTranscriptReason)
    (reasonData : option ReasonData.t) : string :=
  match reason with
  | TranscriptsDisabled => "Subtitles are disabled for this video"
  | NoTranscriptFound =>
      let cause :=
        "No transcripts were found for any of the requested language codes: "
        ++ stringify
             match field ReasonData.requestedLanguageCodes reasonData with
             | Some codes => codes
             | None => []
             end in
      match field ReasonData.transcriptData reasonData with
      | Some shown => cause ++ nl ++ nl ++ shown
      | None => cause
      end
  | VideoUnavailable => "The video is no longer available"
  | VideoUnplayable =>
      let reason :=
        orDefault (field ReasonData.reason reasonData)
                  "No reason specified!" in
      let cause :=
        "The video is unplayable for the following reason: " ++ reason in
      match field ReasonData.subReasons reasonData with
      | Some (first :: more) =>
          fold_left addSubReason (first :: more)
            (cause ++ nl ++ nl ++ "Additional Details:" ++ nl)
      | _ => cause
      end
  | IpBlocked => blockedText ++ "Ip blocked."
  | RequestBlocked => blockedText ++ "Request blocked."
  | TranslationUnavailable =>
      "The requested transcript cannot be translated: "
      ++ orDefault (field ReasonData.details reasonData) "Unknown reason"
  | TranslationLanguageUnavailable =>
      "The requested translation language is not available: "
      ++ orDefault (field ReasonData.details reasonData) "Unknown reason"
  | FailedToCreateConsentCookie =>
      "Failed to create a consent cookie required by YouTube"
  | YouTubeRequestFailed =>
      "The request to YouTube failed: "
      ++ orDefault (field ReasonData.details reasonData) "Unknown error"
  | InvalidVideoId => "The provided video ID is invalid"
  | AgeRestricted =>
      "The video is age-restricted and requires authentication"
  | YouTubeDataUnparsable =>
      "The YouTube data structure could not be parsed"
  end.

Definition buildErrorMessage (videoId : string)
    (reason : option CouldNotRetrieveTranscriptReason)
    (reasonData : option ReasonData.t) : string :=
  match reason with
  | None => baseError videoId
  | Some r => baseError videoId ++ " " ++ cause r reasonData
  end.

(** The error object with its data and its message. *)
Record CouldNotRetrieveTranscript : Type := {
videoId : string;
reason : option CouldNotRetrieveTranscriptReason;
reasonData : option ReasonData.t;
message : string
}.

Definition new (videoId : string)
    (reason : option CouldNotRetrieveTranscriptReason)
    (reasonData : option ReasonData.t) : CouldNotRetrieveTranscript :=
  {| videoId := videoId; reason := reason; reasonData := reasonData;
     message := buildErrorMessage videoId reason reasonData |}.

(** ** The factories *)

Definition transcriptsDisabled (videoId : string) :=
  new videoId (Some TranscriptsDisabled) None.

Definition noTranscriptFound (videoId : string)
    (requestedLanguageCodes : list string) (transcriptData : string) :=
  new videoId (Some NoTranscriptFound)
    (Some {| ReasonData.requestedLanguageCodes := Some requestedLanguageCodes;
             ReasonData.transcriptData := Some transcriptData;
             ReasonData.reason := None;
             ReasonData.subReasons := None;
             ReasonData.details := None |}).

Definition videoUnavailable (videoId : string) :=
  new videoId (Some VideoUnavailable) None.

Definition videoUnplayable (videoId : string) (reason : option string)
    (subReasons : option (list string)) :=
  new videoId (Some VideoUnplayable)
    (Some {| ReasonData.requestedLanguageCodes := None;
             ReasonData.transcriptData := None;
             ReasonData.reason := reason;
             ReasonData.subReasons := subReasons;
             ReasonData.details := None |}).

Definition withDetails (details : string) : option ReasonData.t :=
  Some {| ReasonData.requestedLanguageCodes := None;
          ReasonData.transcriptData := None;
          ReasonData.reason := None;
          ReasonData.subReasons := None;
          ReasonData.details := Some details |}.

Definition ipBlocked (videoId : string) :=
  new videoId (Some IpBlocked) None.

Definition requestBlocked (videoId : string) :=
  new videoId (Some RequestBlocked) None.

Definition translationUnavailable (videoId details : string) :=
  new videoId (Some TranslationUnavailable) (withDetails details).

Definition translationLanguageUnavailable (videoId details : string) :=
  new videoId (Some TranslationLanguageUnavailable) (withDetails details).

Definition failedToCreateConsentCookie (videoId : string) :=
  new videoId (Some FailedToCreateConsentCookie) None.

Definition youTubeRequestFailed (videoId details : string) :=
  new videoId (Some YouTubeRequestFailed) (withDetails details).

Definition invalidVideoId (videoId : string) :=
  new videoId (Some InvalidVideoId) None.

Definition ageRestricted (videoId : string) :=
  new videoId (Some AgeRestricted) None.

Definition youTubeDataUnparsable (videoId : string) :=
  new videoId (Some YouTubeDataUnparsable) None.

(** ** Vocabulary for the properties *)

(** The constant text a cause begins with. *)
Definition causePrefix (reason : CouldNotRetrieveTranscriptReason) : string :=
  match reason with
  | TranscriptsDisabled => "Subtitles are disabled for this video"
  | NoTranscriptFound => "No transcripts were found"
  | VideoUnavailable => "The video is no longer available"
  | VideoUnplayable => "The video is unplayable"
  | IpBlocked => blockedText ++ "Ip blocked."
  | RequestBlocked => blockedText ++ "Request blocked."
  | TranslationUnavailable => "The requested transcript"
  | TranslationLanguageUnavailable => "The requested translation"
  | FailedToCreateConsentCookie =>
      "Failed to create a consent cookie required by YouTube"
  | YouTubeRequestFailed => "The request to"
  | InvalidVideoId => "The provided video ID is invalid"
  | AgeRestricted =>
      "The video is age-restricted and requires authentication"
  | YouTubeDataUnparsable =>
      "The YouTube data structure could not be parsed"
  end.

(** A missing or empty string, a missing or empty list. *)
Definition blankText (v : option string) : bool :=
  match v with
  | Some (String _ _) => false
  | _ => true
  end.

Definition blankList (v : option (list string)) : bool :=
  match v with
  | Some (_ :: _) => false
  | _ => true
  end.

(** Data that carries nothing: no transcript list, and every other field
  missing or empty. *)
Definition blank (d : ReasonData.t) : bool :=
  blankList (ReasonData.requestedLanguageCodes d)
  && match ReasonData.transcriptData d with Some _ => false | None => true end
  && blankText (ReasonData.reason d)
  && blankList (ReasonData.subReasons d)
  && blankText (ReasonData.details d).

End Errors.

(* ================================================================== *)
(** * captions-extractor.ts: [CaptionsExtractor] *)
(* ================================================================== *)

Module CaptionsExtractor.
Import Js.

(** ** Values of type [any] that came out of [JSON.parse] *)

(** A numeric literal denotes zero as a double when its mantissa is zero
  or when it lies at or below half the least positive double, 2^-1075
  (rounding to nearest, ties to even). *)
Definition isZero (d : Decimal) : bool :=
  (mantissa d =? 0)%N
  || ((exponent10 d <? 0)%Z
      && (Z.of_N (mantissa d) * 2 ^ 1075 <=? 10 ^ (- exponent10 d))%Z).

(** ToBoolean *)
Definition truthy (v : JsonValue) : bool :=
  match v with
  | JNull => false
  | JBool b => b
  | JNumber d => negb (isZero d)
  | JString [] => false
  | JString (_ :: _) => true
  | JArray _ => true
  | JObject _ => true
  end.

Fixpoint member (key : list N) (members : list (list N * JsonValue))
  : option JsonValue :=
  match members with
  | [] => None
  | (k, v) :: members' =>
      if Json.keyEqb key k then Some v else member key members'
  end.

(** [v?.key] and, on a truthy [v], [v.key], for a key that no built-in
  prototype defines; [None] stands for [undefined]. Only an object has
  such a property: strings, numbers, booleans and arrays answer
  [undefined]. *)
Definition prop (key : string) (v : option JsonValue) : option JsonValue :=
  match v with
  | Some (JObject members) => member (codeUnits key) members
  | _ => None
  end.

(** [!v] *)
Definition falsy (v : option JsonValue) : bool :=
  match v with
  | Some v => negb (truthy v)
  | None => true
  end.

(** ** [extractCaptionsData] *)

Definition extractCaptionsData (playerResponse : option JsonValue)
    (videoId : string) : result JsonValue Errors.CouldNotRetrieveTranscript :=
  let captions := prop "captions" playerResponse in
  if falsy captions then Err (Errors.transcriptsDisabled videoId)
  else
    let renderer := prop "playerCaptionsTracklistRenderer" captions in
    if falsy renderer then Err (Errors.transcriptsDisabled videoId)
    else
      match renderer with
      | Some r => Ok r
      | None => Err (Errors.transcriptsDisabled videoId)
      end.

(** ** The caller in the page-based [listTranscripts]

  The player response is read from the page with [JsVarParser] and
  handed to [extractCaptionsData]. *)

(** The error object whose id and reason the extractor's record shows;
  [youTubeDataUnparsable] gives it no data. *)
Definition thrown (e : CouldNotRetrieveTranscript)
  : Errors.CouldNotRetrieveTranscript :=
  Errors.new (videoId e) (reason e) None.

Definition captionsData (JSON_parse : string -> option JsonValue)
    (html videoId : string)
  : result JsonValue Errors.CouldNotRetrieveTranscript :=
  match JsVarParser.parse JSON_parse "ytInitialPlayerResponse" html videoId with
  | Ok playerResponse => extractCaptionsData (Some playerResponse) videoId
  | Err e => Err (thrown e)
  end.

End CaptionsExtractor.

(* ================================================================== *)
(** * captions-extractor.ts: [InnerTubeClient.handlePlayabilityStatus] *)
(* ================================================================== *)

Module InnerTube.
Import Js.

(** [playabilityStatus] as the interface [InnerTubeResponse] types it. *)
Record SimpleText : Type := {
simpleText : option string
}.

Module Renderer.
Record t : Type := {
reason : option SimpleText;
subreason : option SimpleText
}.
End Renderer.

Record ErrorScreen : Type := {
playerErrorMessageRenderer : option Renderer.t
}.

Record PlayabilityStatus : Type := {
status : string;
reason : option string;
errorScreen : option ErrorScreen
}.

(** What the method throws: a transcript error, or the [TypeError] of
  [new PoTokenRequired(videoId)].  The file imports [PoTokenRequired]
  from errors.ts, which exports no such class: where the constructor is
  called the name is [undefined], and the call itself throws. *)
Inductive Thrown : Type :=
| Transcript (e : Errors.CouldNotRetrieveTranscript)
| TypeError.

(** [toLowerCase] on code units below 256: the letters A to Z and the
  capital letters of Latin-1, the multiplication sign apart. *)
Definition lower (c : ascii) : ascii :=
  let n := nat_of_ascii c in
  if ((65 <=? n) && (n <=? 90))%nat then ascii_of_nat (n + 32)
  else if ((192 <=? n) && (n <=? 222) && negb (n =? 215))%nat
       then ascii_of_nat (n + 32)
  else c.

Fixpoint toLowerCase (s : string) : string :=
  match s with
  | EmptyString => EmptyString
  | String c s' => String (lower c) (toLowerCase s')
  end.

(** [if (x?.simpleText) subReasons.push(x.simpleText)] *)
Definition push (x : option SimpleText) (subReasons : list string)
  : list string :=
  match x with
  | Some {| simpleText := Some (String c s) |} =>
      (subReasons ++ [String c s])%list
  | _ => subReasons
  end.

Definition subReasonsOf (errorScreen : option ErrorScreen) : list string :=
  match errorScreen with
  | Some {| playerErrorMessageRenderer := Some errorRenderer |} =>
      push (Renderer.subreason errorRenderer)
        (push (Renderer.reason errorRenderer) [])
  | _ => []
  end.

(** [None] where the method returns. *)
Definition handlePlayabilityStatus (videoId : string)
    (playabilityStatus : PlayabilityStatus) : option Thrown :=
  let status := status playabilityStatus in
  if String.eqb status "OK" then None
  else if String.eqb status "UNPLAYABLE" then
    let reason :=
      Errors.orDefault (reason playabilityStatus) "Video is unplayable" in
    let subReasons := subReasonsOf (errorScreen playabilityStatus) in
    Some (Transcript
            (Errors.videoUnplayable videoId (Some reason) (Some subReasons)))
  else if String.eqb status "LOGIN_REQUIRED" then
    Some (Transcript (Errors.ageRestricted videoId))
  else if String.eqb status "ERROR" then
    let errorMessage := Errors.orDefault (reason playabilityStatus) "" in
    if includes "po token" (toLowerCase errorMessage)
       || includes "proof of origin" (toLowerCase errorMessage)
    then Some TypeError
    else Some (Transcript (Errors.videoUnavailable videoId))
  else if String.eqb status "CONTENT_CHECK_REQUIRED" then
    Some (Transcript (Errors.ageRestricted videoId))
  else Some (Transcript (Errors.videoUnavailable videoId)).

End InnerTube.

(* ================================================================== *)
(** * Sample responses *)
(* ================================================================== *)

Module Responses.
Import InnerTube.

(** An unplayable video whose error screen gives a reason and no
  sub-reason. *)
Definition privateVideo : PlayabilityStatus :=
  {| status := "UNPLAYABLE";
     reason := Some "Private video";
     errorScreen :=
       Some {| playerErrorMessageRenderer :=
                 Some {| Renderer.reason :=
                           Some {| simpleText :=
                                     Some "Sign in to confirm your age" |};
                         Renderer.subreason := None |} |} |}.

End Responses.

(* ================================================================== *)
(** * Further vocabulary for the properties *)
(* ================================================================== *)

Module Shape.
Import Js.

(** Every white-space character of [s] is a blank. *)
Fixpoint blanksOnly (s : string) : bool :=
  match s with
  | EmptyString => true
  | String c s' => (negb (isSpace c) || Ascii.eqb c " ") && blanksOnly s'
  end.

(** [t] is [s] with some of its single quotes turned into double
  quotes. *)
Fixpoint requoted (s t : string) : bool :=
  match s, t with
  | EmptyString, EmptyString => true
  | String c s', String d t' =>
      (Ascii.eqb c d || (Ascii.eqb c squote && Ascii.eqb d dquote))
      && requoted s' t'
  | _, _ => false
  end.

(** The last character of [s] is [c]. *)
Fixpoint endsIn (c : ascii) (s : string) : bool :=
  match s with
  | EmptyString => false
  | String d EmptyString => Ascii.eqb d c
  | String _ s' => endsIn c s'
  end.

End Shape.

(* ================================================================== *)
(** * api.ts: [extractStreamingData] *)
(* ================================================================== *)

Module VideoInfo.
Import Js CaptionsExtractor.

(** The object [extractStreamingData] returns. *)
Record StreamingData : Type := {
expiresInSeconds : JsonValue;
formats : JsonValue;
adaptiveFormats : JsonValue;
serverAbrStreamingUrl : option JsonValue
}.

(** [v || d] *)
Definition orValue (v : option JsonValue) (d : JsonValue) : JsonValue :=
  match v with
  | Some x => if truthy x then x else d
  | None => d
  end.

Definition extractStreamingData (innerTubeResponse : option JsonValue)
    (videoId : string)
  : result StreamingData Errors.CouldNotRetrieveTranscript :=
  let streamingData := prop "streamingData" innerTubeResponse in
  if falsy streamingData then Err (Errors.youTubeDataUnparsable videoId)
  else
    Ok {| expiresInSeconds :=
            orValue (prop "expiresInSeconds" streamingData)
                    (JString (codeUnits "0"));
          formats := orValue (prop "formats" streamingData) (JArray []);
          adaptiveFormats :=
            orValue (prop "adaptiveFormats" streamingData) (JArray []);
          serverAbrStreamingUrl :=
            prop "serverAbrStreamingUrl" streamingData |}.

End VideoInfo.

(* ================================================================== *)
(** * Numerals, as texts *)
(* ================================================================== *)

(** The decimal literals [parseFloat] reads: an optional sign, digits
  with an optional fraction or a fraction alone, and an optional
  exponent.  A numeral is given by its parts; [text] writes it out and
  [value] is the decimal it denotes. *)
Module Numeral.
Import Js.

Inductive Sign : Type :=
| NoSign
| Plus
| Minus.

Definition signText (s : Sign) : string :=
  match s with
  | NoSign => ""
  | Plus => "+"
  | Minus => "-"
  end.

Definition isMinus (s : Sign) : bool :=
  match s with
  | Minus => true
  | _ => false
  end.

(** Digits are numbers below ten. *)
Definition allDigits (ds : list nat) : bool :=
  forallb (fun d => (d <? 10)%nat) ds.

Definition digitChar (d : nat) : ascii := ascii_of_nat (48 + d).

Fixpoint digitsText (ds : list nat) : string :=
  match ds with
  | [] => EmptyString
  | d :: ds' => String (digitChar d) (digitsText ds')
  end.

(** The number a run of digits writes, read onto [acc]. *)
Fixpoint digitsValue (acc : N) (ds : list nat) : N :=
  match ds with
  | [] => acc
  | d :: ds' => digitsValue (acc * 10 + N.of_nat d)%N ds'
  end.

Record Exponent : Type := {
capital : bool;
expSign : Sign;
expDigits : list nat
}.

Record t : Type := {
sign : Sign;
whole : list nat;
fraction : option (list nat);
exponent : option Exponent
}.

Definition fractionDigits (n : t) : list nat :=
  match fraction n with
  | Some f => f
  | None => []
  end.

(** At least one digit before the exponent, and at least one in it. *)
Definition wellFormed (n : t) : bool :=
  allDigits (whole n) && allDigits (fractionDigits n)
  && (0 <? List.length (whole n) + List.length (fractionDigits n))%nat
  && match exponent n with
     | Some e =>
         allDigits (expDigits e) && (0 <? List.length (expDigits e))%nat
     | None => true
     end.

Definition exponentText (e : option Exponent) : string :=
  match e with
  | Some e =>
      (if capital e then "E" else "e")
      ++ signText (expSign e) ++ digitsText (expDigits e)
  | None => ""
  end.

Definition fractionText (f : option (list nat)) : string :=
  match f with
  | Some f => "." ++ digitsText f
  | None => ""
  end.

Definition text (n : t) : string :=
  signText (sign n) ++ digitsText (whole n) ++ fractionText (fraction n)
  ++ exponentText (exponent n).

Definition exponentValue (e : option Exponent) : Z :=
  match e with
  | Some e =>
      let v := Z.of_N (digitsValue 0 (expDigits e)) in
      if isMinus (expSign e) then (- v)%Z else v
  | None => 0%Z
  end.

(** The decimal the numeral denotes: its digits, fraction included, as
  one number, scaled by the exponent less the length of the fraction. *)
Definition value (n : t) : Decimal :=
  {| negative := isMinus (sign n);
     mantissa := digitsValue 0 (whole n ++ fractionDigits n);
     exponent10 :=
       (exponentValue (exponent n)
        - Z.of_nat (List.length (fractionDigits n)))%Z |}.

(** ** What may follow a numeral *)

Definition startsWithDigit (s : string) : bool :=
  match s with
  | String c _ => isDigit c
  | EmptyString => false
  end.

Definition dropSign (s : string) : string :=
  match s with
  | String c r => if Ascii.eqb c "-" || Ascii.eqb c "+" then r else s
  | EmptyString => s
  end.

(** An exponent with at least one digit. *)
Definition startsExponent (s : string) : bool :=
  match s with
  | String c r =>
      (Ascii.eqb c "e" || Ascii.eqb c "E") && startsWithDigit (dropSign r)
  | EmptyString => false
  end.

(** The text [s] does not carry the numeral [n] on: it starts with no
  digit, with no exponent if [n] has none and with no point if [n] has
  none either. *)
Definition endsBefore (n : t) (s : string) : bool :=
  negb (startsWithDigit s)
  && match exponent n with
     | Some _ => true
     | None =>
         negb (startsExponent s)
         && match fraction n with
            | Some _ => true
            | None => negb (startsWith "." s)
            end
     end.

(** White space only. *)
Fixpoint blank (s : string) : bool :=
  match s with
  | EmptyString => true
  | String c s' => isSpace c && blank s'
  end.

Fixpoint dropBlank (s : string) : string :=
  match s with
  | EmptyString => EmptyString
  | String c s' => if isSpace c then dropBlank s' else s
  end.

(** The text begins with a number: after leading white space and one
  optional sign comes a digit, or a point and a digit, or the word
  [Infinity]. *)
Definition beginsNumber (s : string) : bool :=
  let t := dropSign (dropBlank s) in
  startsWith "Infinity" t
  || match t with
     | String c r => isDigit c || (Ascii.eqb c "." && startsWithDigit r)
     | EmptyString => false
     end.

End Numeral.

(* ================================================================== *)
(** * Segments and documents, as texts *)
(* ================================================================== *)

Module Timing.
Import Js Dom TranscriptParser.

(** An attribute that gives no time: missing, empty, or not beginning
  with a number. *)
Definition unusable (value : option string) : bool :=
  match value with
  | None => true
  | Some EmptyString => true
  | Some (String c s) => negb (Numeral.beginsNumber (String c s))
  end.

Definition timingUnusable (element : Node) : bool :=
  unusable (attr "start" (attribsOf element))
  || unusable (attr "dur" (attribsOf element)).

(** The two pre-checks on the raw text: both root markers, and as many
  segment openings as closings. *)
Definition passesPreChecks (rawData : string) : bool :=
  includes "<transcript" rawData && includes "</transcript>" rawData
  && (JsLib.countOpenTags 0 rawData
      =? JsLib.countLiteral "</text>" 0 rawData)%nat.

End Timing.

(* ================================================================== *)
(** * Further sample inputs *)
(* ================================================================== *)

Module Cases.
Import Js.

(** One element for each tag of the allow-list other than [a]. *)
Definition allowListed : string :=
  qq "<strong>a</strong> <em>b</em> <b>c</b> <i>d</i> <mark>e</mark> <small>f</small> <del>g</del> <ins>h</ins> <sub>i</sub> <sup>j</sup> <span class=`k`>l</span>".

(** A segment without [dur], written as an empty-element tag, next to a
  well-formed one. *)
Definition selfClosed : string :=
  qq "<transcript><text start=`1`/><text start=`1.0` dur=`1.0`>ok</text></transcript>".

(** A well-formed assignment whose value holds the text of the marker,
  and one that follows a bare mention of the name; both values are
  nested three deep. *)
Definition markerInValue : string :=
  qq "var X = {`a`: {`b`: {`c`: `var X`}}};".

Definition afterBareName : string :=
  qq "X; X = {`a`: {`b`: {`c`: 1}}};".

(** The numeral [1.5], and a segment whose [dur] goes on after it and
  whose [start] is written with white space, a sign, an exponent and a
  unit. *)
Definition onePointFive : Numeral.t :=
  {| Numeral.sign := Numeral.NoSign; Numeral.whole := [1];
     Numeral.fraction := Some [5]; Numeral.exponent := None |}.

Definition trailing : Dom.Node :=
  Dom.Element "text" [("start", " -2e1 s"); ("dur", "1.5abc")]
    [Dom.Text "ok"].

(** An assignment with single quotes, which only the fallback reads. *)
Definition singleQuoted : string := "var X = {'a': 1};".

End Cases.

(* ================================================================== *)
(** * The reasons of a failed extraction, on the text of the page *)
(* ================================================================== *)

Module Page.
Import Js JsVarParser.

(** The marker looked for: [var NAME] if it occurs, else the bare name
  if it occurs. *)
Definition marker (varName html : string) : option string :=
  if includes ("var " ++ varName) html then Some ("var " ++ varName)
  else if includes varName html then Some varName
  else None.

(** What follows the first occurrence of [m]. *)
Definition afterFirst (m html : string) : string :=
  match indexOf m html with
  | Some i => drop (i + String.length m) html
  | None => EmptyString
  end.

(** [t] up to the first occurrence of [m] in it, all of [t] when there
  is none. *)
Definition upToNext (m t : string) : string :=
  match indexOf m t with
  | Some j => take j t
  | None => t
  end.

(** Two readings of "the text that follows the marker": all that
  follows its first occurrence, as the algorithm is described; and what
  follows its first occurrence up to its next one. *)
Definition following (varName html : string) : option string :=
  match marker varName html with
  | Some m => Some (afterFirst m html)
  | None => None
  end.

Definition upToNextMarker (varName html : string) : option string :=
  match marker varName html with
  | Some m => Some (upToNext m (afterFirst m html))
  | None => None
  end.

(** [t] from its first opening brace on. *)
Definition fromBrace (t : string) : option string :=
  match indexOf "{" t with
  | Some i => Some (drop i t)
  | None => None
  end.

(** The scan reads [pre] through and is then outside any string, with
  no escape pending, at depth 1: a closing brace next ends the
  literal. *)
Definition closes (pre : string) : Prop :=
  exists st,
    scanRun initialScan pre = Some st
    /\ escapeNext st = false /\ inString st = false
    /\ braceCount st = 1%Z.

(** [literal] is the object literal the scan bounds at the start of
  [t]. *)
Definition literalOf (t literal : string) : Prop :=
  exists pre post,
    t = pre ++ String "}" post /\ closes pre /\ literal = pre ++ "}".

Section Reasons.

(** One of the two readings above. *)
Variable read : string -> string -> option string.
Variable JSON_parse : string -> option JsonValue.
Variable varName : string.

Definition markerAbsent (html : string) : Prop :=
  includes ("var " ++ varName) html = false /\ includes varName html = false.

Definition noBrace (html : string) : Prop :=
  exists t, read varName html = Some t /\ fromBrace t = None.

Definition unbalanced (html : string) : Prop :=
  exists t b,
    read varName html = Some t /\ fromBrace t = Some b
    /\ forall literal, ~ literalOf b literal.

Definition notJson (html : string) : Prop :=
  exists t b literal,
    read varName html = Some t /\ fromBrace t = Some b
    /\ literalOf b literal /\ JSON_parse literal = None.

(** The reasons for which the primary strategy gives up. *)
Definition primaryFails (html : string) : Prop :=
  markerAbsent html \/ noBrace html \/ unbalanced html \/ notJson html.

End Reasons.

End Page.

(* ================================================================== *)
(** * The fallback expressions, as sets of texts *)
(* ================================================================== *)

(** What the three expressions of [parseWithRegex] match, what
  [html.match] returns for them and what [jsonStr.replace] makes of
  group 1, stated on the texts themselves for a variable name that is
  an identifier. *)
Module Pattern.
Import Js.

(** A run of characters other than '}', the class the expressions
  repeat. *)
Definition run (w : string) : Prop := includes "}" w = false.

(** The repeated group of the expressions: any number of times, '{', a
  run, '}' and a run. *)
Inductive groups : string -> Prop :=
| groups_none : groups EmptyString
| groups_more (a b rest : string) :
    run a -> run b -> groups rest ->
    groups ("{" ++ a ++ "}" ++ b ++ rest).

(** The object literal of group 1: '{', a run, the groups and '}'. *)
Definition objectText (g : string) : Prop :=
  exists a gs, run a /\ groups gs /\ g = "{" ++ a ++ gs ++ "}".

(** The text between the braces of an object literal, and the rest of
  a group whose '{' has been read. *)
Definition inner (x : string) : Prop :=
  exists a gs, run a /\ groups gs /\ x = a ++ gs.

Definition closing (x : string) : Prop :=
  exists a b gs,
    run a /\ run b /\ groups gs /\ x = a ++ String "}" (b ++ gs).

(** The texts [x] such that '{', [x] and '}' make an object literal,
  recognised from left to right: every '}' of [x] closes a group, so
  a '{' stands between it and the '}' before it, or the start of
  [x].  [sawOpen] tells that such a '{' has been met. *)
Fixpoint segmented (sawOpen : bool) (x : string) : bool :=
  match x with
  | EmptyString => true
  | String c x' =>
      if Ascii.eqb c "}" then sawOpen && segmented false x'
      else segmented (sawOpen || Ascii.eqb c "{") x'
  end.

(** A run of white space. *)
Fixpoint spaces (ws : string) : bool :=
  match ws with
  | EmptyString => true
  | String c ws' => isSpace c && spaces ws'
  end.

Section Expressions.

Variable varName : string.

(** The texts [m] each expression matches as a whole, with the text
  [g] of group 1. *)
Definition varAssign (m g : string) : Prop :=
  exists ws1 ws2 ws3,
    spaces ws1 = true /\ ws1 <> EmptyString
    /\ spaces ws2 = true /\ spaces ws3 = true /\ objectText g
    /\ m = "var" ++ ws1 ++ varName ++ ws2 ++ "=" ++ ws3 ++ g ++ ";".

Definition assign (m g : string) : Prop :=
  exists ws2 ws3,
    spaces ws2 = true /\ spaces ws3 = true /\ objectText g
    /\ m = varName ++ ws2 ++ "=" ++ ws3 ++ g ++ ";".

Definition property (m g : string) : Prop :=
  exists ws2 ws3,
    spaces ws2 = true /\ spaces ws3 = true /\ objectText g
    /\ m = String dquote varName ++ String dquote EmptyString
           ++ ws2 ++ ":" ++ ws3 ++ g.

Definition expressions : list (string -> string -> Prop) :=
  [varAssign; assign; property].

(** [html.match(expression)] gives group 1 of the match that starts
  leftmost in the page and, of the matches that start there, closes
  its object literal at the earliest brace: the first closing brace is
  tried first, and a later one only when what follows the earlier ones
  does not fit.  A '$' in the name asserts the end of the input where
  the expression goes on to ask for a character, so that no text
  matches. *)
Definition matched (expression : string -> string -> Prop)
    (html g : string) : Prop :=
  includes "$" varName = false
  /\ exists before m after,
       html = before ++ m ++ after /\ expression m g
       /\ forall before' m' after' g',
            html = before' ++ m' ++ after' -> expression m' g' ->
            String.length before <= String.length before'
            /\ (String.length before' = String.length before ->
                String.length g <= String.length g').

End Expressions.

(** [.] without the [s] flag: any character but a line terminator. *)
Definition dot (c : ascii) : bool :=
  let n := nat_of_ascii c in negb ((n =? 10) || (n =? 13))%nat.

(** What stands between the quotes of a single-quoted literal:
  characters other than a quote and a backslash, and backslashes with
  the character [.] accepts after them. *)
Inductive quotedText : string -> Prop :=
| quoted_none : quotedText EmptyString
| quoted_char (c : ascii) (w : string) :
    c <> squote -> c <> backslash -> quotedText w ->
    quotedText (String c w)
| quoted_escape (d : ascii) (w : string) :
    dot d = true -> quotedText w ->
    quotedText (String backslash (String d w)).

(** The global [jsonStr.replace]: from left to right, a single-quoted
  literal is written between double quotes and the replacement goes on
  after it; a character at which no such literal starts is kept. *)
Inductive replaced : string -> string -> Prop :=
| replaced_end : replaced EmptyString EmptyString
| replaced_literal (body rest rest' : string) :
    quotedText body -> replaced rest rest' ->
    replaced (String squote body ++ String squote rest)
             (String dquote body ++ String dquote rest')
| replaced_other (c : ascii) (rest rest' : string) :
    (forall body after,
       quotedText body ->
       String c rest <> String squote body ++ String squote after) ->
    replaced rest rest' ->
    replaced (String c rest) (String c rest').

(** No expression recovers a value: whatever one of them matches does
  not parse once its quotes are replaced. *)
Definition fallbackFails (JSON_parse : string -> option JsonValue)
    (varName html : string) : Prop :=
  forall expression g t,
    In expression (expressions varName) ->
    matched varName expression html g ->
    replaced g t -> JSON_parse t = None.

End Pattern.

(* ################################################################## *)
(** * Theorems *)
(* ################################################################## *)

(* ================================================================== *)
(** * Facts about the string primitives *)
(* ================================================================== *)

Module StringFacts.
Import Js.

Lemma take_drop n : forall s, take n s ++ drop n s = s.
Proof.
  induction n as [|n IH]; intros [|c s]; simpl; try reflexivity.
  now rewrite IH.
Qed.

Lemma take_app_length x y : take (String.length x) (x ++ y) = x.
Proof. induction x as [|c x IH]; simpl; [now destruct y | now rewrite IH]. Qed.

Lemma drop_app_length x y : drop (String.length x) (x ++ y) = y.
Proof. induction x as [|c x IH]; simpl; [reflexivity | exact IH]. Qed.

Lemma append_assoc (x y z : string) : (x ++ y) ++ z = x ++ (y ++ z).
Proof. induction x as [|c x IH]; simpl; [reflexivity | now rewrite IH]. Qed.

Lemma append_nil_r (x : string) : x ++ "" = x.
Proof. induction x as [|c x IH]; simpl; [reflexivity | now rewrite IH]. Qed.

Lemma append_length (x y : string) :
  String.length (x ++ y) = String.length x + String.length y.
Proof. induction x as [|c x IH]; simpl; [reflexivity | now rewrite IH]. Qed.

Lemma startsWith_app p t : startsWith p (p ++ t) = true.
Proof.
  induction p as [|c p IH]; simpl; [reflexivity|].
  now rewrite Ascii.eqb_refl.
Qed.

Lemma startsWith_prefix p : forall x y,
  startsWith p x = true -> startsWith p (x ++ y) = true.
Proof.
  induction p as [|c p IH]; intros [|d x] y; simpl; try reflexivity;
    try discriminate.
  intros H. apply andb_true_iff in H. destruct H as [-> H].
  simpl. now apply IH.
Qed.

Lemma startsWith_inv p : forall s,
  startsWith p s = true -> s = p ++ drop (String.length p) s.
Proof.
  induction p as [|c p IH]; intros [|d s]; simpl; try reflexivity;
    try discriminate.
  intros H. apply andb_true_iff in H. destruct H as [Hc H].
  apply Ascii.eqb_eq in Hc. subst d. f_equal. now apply IH.
Qed.

Lemma includes_cons p c s :
  includes p (String c s) = startsWith p (String c s) || includes p s.
Proof. reflexivity. Qed.

Lemma includes_nil p : p <> EmptyString -> includes p "" = false.
Proof. destruct p; [contradiction | reflexivity]. Qed.

Lemma includes_false_startsWith p s :
  includes p s = false -> startsWith p s = false.
Proof.
  destruct s; simpl; intros H; apply orb_false_iff in H; tauto.
Qed.

Lemma includes_false_tail p c s :
  includes p (String c s) = false -> includes p s = false.
Proof. rewrite includes_cons. intros H. apply orb_false_iff in H. tauto. Qed.

Lemma includes_app_r p x y :
  includes p y = true -> includes p (x ++ y) = true.
Proof.
  intros H. induction x as [|c x IH]; [exact H|].
  change (String c x ++ y) with (String c (x ++ y)).
  rewrite includes_cons, IH. apply orb_true_r.
Qed.

Lemma includes_app_l p x y :
  includes p x = true -> includes p (x ++ y) = true.
Proof.
  induction x as [|c x IH].
  - simpl. rewrite orb_false_r. intros H.
    destruct p; [|discriminate]. now destruct y.
  - change (String c x ++ y) with (String c (x ++ y)).
    rewrite !includes_cons. intros H. apply orb_true_iff in H.
    destruct H as [H | H].
    + apply (startsWith_prefix _ _ y) in H. simpl in H |- *. now rewrite H.
    + rewrite (IH H). apply orb_true_r.
Qed.

Lemma includes_drop p n s :
  includes p (drop n s) = false \/ includes p s = true.
Proof.
  destruct (includes p (drop n s)) eqn:E; [right | now left].
  rewrite <- (take_drop n s). now apply includes_app_r.
Qed.

Lemma includes_take p n s :
  includes p (take n s) = false \/ includes p s = true.
Proof.
  destruct (includes p (take n s)) eqn:E; [right | now left].
  rewrite <- (take_drop n s). now apply includes_app_l.
Qed.

(** A text without [p] has no part with [p]. *)
Lemma includes_substring p from to s :
  includes p s = false -> includes p (substring from to s) = false.
Proof.
  intros H. unfold substring.
  destruct (includes_take p (to - from) (drop from s)) as [E | E];
    [exact E|].
  destruct (includes_drop p from s) as [E' | E']; congruence.
Qed.

Lemma startsWith_includes p s :
  startsWith p s = true -> includes p s = true.
Proof. destruct s; simpl; now intros ->. Qed.

(** An occurrence of [x ++ y] holds one of [y]. *)
Lemma includes_pattern_suffix x y s :
  includes (x ++ y) s = true -> includes y s = true.
Proof.
  induction s as [|c s IH].
  - simpl. rewrite !orb_false_r. destruct x, y; simpl; try discriminate;
      reflexivity.
  - rewrite includes_cons. intros H. apply orb_true_iff in H.
    destruct H as [H | H].
    + apply startsWith_inv in H. rewrite H, append_assoc.
      apply includes_app_r, startsWith_includes, startsWith_app.
    + rewrite includes_cons, (IH H). apply orb_true_r.
Qed.

Lemma startsWith_snoc p c : forall x,
  startsWith p (x ++ String c "") = true ->
  startsWith p x = true \/ p = x ++ String c "".
Proof.
  induction p as [|a p IH]; intros x; [now left|].
  destruct x as [|d x]; simpl.
  - destruct p as [|b p]; [|rewrite andb_false_r; discriminate].
    rewrite andb_true_r. intros H. apply Ascii.eqb_eq in H. subst.
    now right.
  - intros H. apply andb_true_iff in H. destruct H as [Hc H].
    rewrite Hc. apply Ascii.eqb_eq in Hc. subst d. simpl.
    destruct (IH _ H) as [E | E]; [now left | right; now rewrite E].
Qed.

(** Appending a character that [p] does not end with creates no
    occurrence of [p]. *)
Lemma includes_snoc p c s :
  (forall x, p <> x ++ String c "") ->
  includes p s = false -> includes p (s ++ String c "") = false.
Proof.
  intros Hp. induction s as [|d s IH]; intros H.
  - simpl in *. rewrite orb_false_r in *.
    assert (E : p <> EmptyString) by (intros ->; discriminate).
    destruct p as [|a p]; [contradiction|]. simpl.
    destruct p as [|b p]; [|now rewrite andb_false_r].
    rewrite andb_true_r. destruct (Ascii.eqb a c) eqn:E'; [|reflexivity].
    apply Ascii.eqb_eq in E'. subst. now specialize (Hp "").
  - change (String d s ++ String c "") with (String d (s ++ String c "")).
    rewrite includes_cons. rewrite (IH (includes_false_tail _ _ _ H)).
    rewrite orb_false_r.
    destruct (startsWith p (String d (s ++ String c ""))) eqn:E;
      [|reflexivity].
    apply (startsWith_snoc p c (String d s)) in E. destruct E as [E | E].
    + apply includes_false_startsWith in H. congruence.
    + now specialize (Hp (String d s)).
Qed.

Lemma indexOf_startsWith p : forall s i,
  indexOf p s = Some i -> startsWith p (drop i s) = true.
Proof.
  induction s as [|c s IH]; intros i; simpl.
  - destruct p; [|discriminate]. intros [= <-]. reflexivity.
  - destruct (startsWith p (String c s)) eqn:E.
    + intros [= <-]. exact E.
    + destruct (indexOf p s) as [j|]; [|discriminate].
      intros [= <-]. simpl. now apply IH.
Qed.

(** ** [split] *)

Lemma splitOn_none sep : forall s,
  includes sep s = false -> splitOn sep 0 s = [s].
Proof.
  induction s as [|c s IH]; [reflexivity|].
  intros H. simpl splitOn.
  rewrite (includes_false_startsWith _ _ H).
  now rewrite (IH (includes_false_tail _ _ _ H)).
Qed.

Lemma splitOn_skip sep u t :
  splitOn sep (String.length u) (u ++ t) = splitOn sep 0 t.
Proof. induction u as [|c u IH]; simpl; [reflexivity | exact IH]. Qed.

Lemma splitOn_head sep : forall s,
  exists p ps rest, splitOn sep 0 s = p :: ps /\ s = p ++ rest.
Proof.
  induction s as [|c s IH].
  - exists EmptyString, [], EmptyString. now split.
  - simpl splitOn. destruct (startsWith sep (String c s)).
    + exists EmptyString. eexists. exists (String c s). now split.
    + destruct IH as (p & ps & rest & -> & E).
      exists (String c p), ps, rest. split; [reflexivity|].
      simpl. now rewrite <- E.
Qed.

Lemma splitOn_length_ge sep : forall s k, 1 <= List.length (splitOn sep k s).
Proof.
  induction s as [|c s IH]; intros k; simpl; [lia|].
  destruct k as [|k]; [|apply IH].
  destruct (startsWith sep (String c s)); simpl; [lia|].
  specialize (IH 0). destruct (splitOn sep 0 s); simpl in *; lia.
Qed.

Lemma splitOn_found sep : forall s,
  sep <> EmptyString -> includes sep s = true ->
  2 <= List.length (splitOn sep 0 s).
Proof.
  intros s Hsep. induction s as [|c s IH]; intros H.
  - now rewrite includes_nil in H.
  - simpl splitOn. destruct (startsWith sep (String c s)) eqn:E.
    + simpl. pose proof (splitOn_length_ge sep s (String.length sep - 1)).
      lia.
    + rewrite includes_cons, E in H. simpl in H. specialize (IH H).
      destruct (splitOn sep 0 s); simpl in *; lia.
Qed.

(** [parts.length <= 1] says that the separator does not occur. *)
Lemma split_length sep s :
  sep <> EmptyString ->
  (List.length (split sep s) <=? 1)%nat = negb (includes sep s).
Proof.
  intros Hsep. unfold split. destruct sep as [|a sep]; [contradiction|].
  destruct (includes (String a sep) s) eqn:E; simpl.
  - apply Nat.leb_gt. now apply splitOn_found.
  - now rewrite splitOn_none.
Qed.

(** No part holds the separator. *)
Lemma splitOn_clean sep : sep <> EmptyString -> forall s k,
  Forall (fun p => includes sep p = false) (splitOn sep k s).
Proof.
  intros Hsep. induction s as [|c s IH]; intros k.
  - simpl. constructor; [now apply includes_nil | constructor].
  - simpl. destruct k as [|k]; [|apply IH].
    destruct (startsWith sep (String c s)) eqn:E.
    + constructor; [now apply includes_nil | apply IH].
    + destruct (splitOn_head sep s) as (p & ps & rest & Hs & Hrest).
      specialize (IH 0). rewrite Hs in IH |- *.
      inversion IH as [|? ? Hp Hps]; subst.
      constructor; [|exact Hps].
      rewrite includes_cons, Hp, orb_false_r.
      destruct (startsWith sep (String c p)) eqn:E'; [|reflexivity].
      apply (startsWith_prefix _ _ rest) in E'. simpl in E'.
      simpl in E. congruence.
Qed.

Lemma split_clean sep s :
  sep <> EmptyString -> includes sep (nth 1 (split sep s) "") = false.
Proof.
  intros Hsep. unfold split. destruct sep as [|a sep]; [contradiction|].
  pose proof (splitOn_clean (String a sep) Hsep s 0) as H.
  destruct (splitOn (String a sep) 0 s) as [|p [|q l]];
    try (now apply includes_nil).
  inversion H as [|? ? _ H']; subst. now inversion H'.
Qed.

(** A text that starts with the separator and holds no other
    occurrence is cut into an empty part and the rest. *)
Lemma split_at_start sep t :
  sep <> EmptyString -> includes sep t = false ->
  split sep (sep ++ t) = [EmptyString; t].
Proof.
  intros Hsep H. unfold split. destruct sep as [|a sep]; [contradiction|].
  change (String a sep ++ t) with (String a (sep ++ t)).
  simpl splitOn.
  change (String a (sep ++ t)) with (String a sep ++ t).
  pose proof (startsWith_app (String a sep) t) as E. simpl in E. simpl.
  rewrite E. rewrite Nat.sub_0_r. rewrite splitOn_skip.
  now rewrite splitOn_none.
Qed.

End StringFacts.

(* ================================================================== *)
(** * Properties of the brace matcher *)
(* ================================================================== *)

Module ScannerFacts.
Import Js JsVarParser.

Lemma scanChar_escaped st c :
  escapeNext st = true -> scanChar st c = Next (setEscapeNext false st).
Proof. intros H. unfold scanChar. now rewrite H. Qed.

Lemma scanChar_backslash st :
  escapeNext st = false ->
  scanChar st backslash = Next (setEscapeNext true st).
Proof. intros H. unfold scanChar. now rewrite H. Qed.

Lemma scanChar_inside st q c :
  escapeNext st = false -> inString st = true -> stringChar st = Some q ->
  c <> backslash -> scanChar st c = insideRule st q c.
Proof.
  intros He Hi Hq Hc. unfold scanChar, insideRule.
  rewrite He, Hi, Hq. simpl.
  destruct (Ascii.eqb c backslash) eqn:E; [|reflexivity].
  apply Ascii.eqb_eq in E. contradiction.
Qed.

Lemma scanChar_outside st c :
  escapeNext st = false -> inString st = false ->
  c <> backslash -> scanChar st c = outsideRule st c.
Proof.
  intros He Hi Hc. unfold scanChar, outsideRule, isQuote.
  rewrite He, Hi. simpl.
  destruct (Ascii.eqb c backslash) eqn:E; [|reflexivity].
  apply Ascii.eqb_eq in E. contradiction.
Qed.

(** Inside a literal no character moves the depth or ends the scan. *)
Lemma scanChar_in_string st c :
  inString st = true ->
  exists st', scanChar st c = Next st' /\ braceCount st' = braceCount st.
Proof.
  intros Hi. unfold scanChar. rewrite Hi. simpl.
  destruct (escapeNext st); [eexists; split; reflexivity|].
  destruct (Ascii.eqb c backslash); [eexists; split; reflexivity|].
  destruct (stringChar st) as [q|]; [|eexists; split; reflexivity].
  destruct (Ascii.eqb c q); eexists; split; reflexivity.
Qed.

(** The loop leaves only on a closing brace read at depth 1, outside a
    literal and not escaped. *)
Lemma scanChar_break st c st' :
  scanChar st c = Break st' ->
  c = "}"%char /\ escapeNext st = false /\ inString st = false /\
  braceCount st = 1%Z.
Proof.
  unfold scanChar.
  destruct (escapeNext st); [discriminate|].
  destruct (Ascii.eqb c backslash); [discriminate|].
  destruct (inString st); simpl.
  - destruct (stringChar st) as [q|]; [|discriminate].
    destruct (Ascii.eqb c q); discriminate.
  - destruct (Ascii.eqb c dquote || Ascii.eqb c squote); [discriminate|].
    destruct (Ascii.eqb c "{"); [discriminate|].
    destruct (Ascii.eqb c "}") eqn:E; [|discriminate].
    destruct (braceCount st - 1 =? 0)%Z eqn:Z0; [|discriminate].
    intros _. apply Ascii.eqb_eq in E. apply Z.eqb_eq in Z0.
    repeat split; [assumption | lia].
Qed.

Lemma scanChar_break_intro st :
  escapeNext st = false -> inString st = false -> braceCount st = 1%Z ->
  exists st', scanChar st "}" = Break st'.
Proof.
  intros He Hi Hb. unfold scanChar. rewrite He, Hi, Hb. simpl.
  eexists. reflexivity.
Qed.

(** [endIndex] is the index of the first closing brace that the scan
    reaches at depth 1 outside a literal. *)
Lemma scanLoop_spec rest : forall st i e,
  scanLoop st i rest = Some e <->
  exists pre post st',
    rest = pre ++ String "}" post /\ e = i + String.length pre /\
    scanRun st pre = Some st' /\
    escapeNext st' = false /\ inString st' = false /\
    braceCount st' = 1%Z.
Proof.
  induction rest as [|c rest IH]; intros st i e; simpl.
  - split; [discriminate|].
    intros (pre & post & st' & H & _). destruct pre; discriminate.
  - destruct (scanChar st c) as [st1|st1] eqn:Hc.
    + rewrite IH. split.
      * intros (pre & post & st' & -> & -> & Hrun & Hrest).
        exists (String c pre), post, st'. simpl. rewrite Hc.
        repeat split; try tauto. lia.
      * intros (pre & post & st' & Heq & -> & Hrun & He & Hi & Hb).
        destruct pre as [|c' pre]; simpl in *.
        -- injection Heq as -> ->. injection Hrun as <-.
           destruct (scanChar_break_intro st He Hi Hb) as [x Hx].
           congruence.
        -- injection Heq as <- ->. rewrite Hc in Hrun.
           exists pre, post, st'. repeat split; try assumption. lia.
    + destruct (scanChar_break _ _ _ Hc) as (-> & He & Hi & Hb).
      split.
      * intros [= <-]. exists EmptyString, rest, st. simpl.
        repeat split; try assumption. lia.
      * intros (pre & post & st' & Heq & -> & Hrun & _).
        destruct pre as [|c' pre]; simpl in *; [f_equal; lia|].
        injection Heq as <- ->. rewrite Hc in Hrun. discriminate.
Qed.

Lemma scanRun_app x : forall st y,
  scanRun st (x ++ y) =
  match scanRun st x with
  | Some st1 => scanRun st1 y
  | None => None
  end.
Proof.
  induction x as [|c x IH]; intros st y; simpl; [reflexivity|].
  destruct (scanChar st c); [apply IH | reflexivity].
Qed.

(** Whatever text was read so far, a character read inside a literal
    leaves the depth as it is and does not end the scan. *)
Lemma scanRun_in_string st0 pre c st :
  scanRun st0 pre = Some st -> inString st = true ->
  exists st', scanRun st0 (pre ++ String c "") = Some st'
              /\ braceCount st' = braceCount st.
Proof.
  intros Hrun Hin. rewrite scanRun_app, Hrun. simpl.
  destruct (scanChar_in_string st c Hin) as (st' & -> & Hb).
  now exists st'.
Qed.

(** C1 (as amended): the rules of the brace matcher.  A pending escape
    consumes exactly one character and changes nothing else; a
    backslash sets the pending-escape flag inside and outside a string
    literal alike; inside a literal only the quote that opened it
    closes it, and in every text no character read inside a literal,
    brace or other, moves the depth or ends the scan; outside a literal
    a quote opens one, '{' adds one to the depth and '}' takes one off;
    the scan ends at the index of the first '}' that brings the depth
    to 0. *)
Theorem C1_scanner_rules :
  (forall st c, escapeNext st = true ->
     scanChar st c = Next (setEscapeNext false st)) /\
  (forall st, escapeNext st = false ->
     scanChar st backslash = Next (setEscapeNext true st)) /\
  (forall st q c, escapeNext st = false -> inString st = true ->
     stringChar st = Some q -> c <> backslash ->
     scanChar st c = insideRule st q c) /\
  (forall st c, escapeNext st = false -> inString st = false ->
     c <> backslash -> scanChar st c = outsideRule st c) /\
  (forall st0 pre c st,
     scanRun st0 pre = Some st -> inString st = true ->
     exists st', scanRun st0 (pre ++ String c "") = Some st'
                 /\ braceCount st' = braceCount st) /\
  (forall rest st i e,
     scanLoop st i rest = Some e <->
     exists pre post st',
       rest = pre ++ String "}" post /\ e = i + String.length pre /\
       scanRun st pre = Some st' /\ escapeNext st' = false /\
       inString st' = false /\ braceCount st' = 1%Z).
Proof.
  split; [exact scanChar_escaped|].
  split; [exact scanChar_backslash|].
  split; [exact scanChar_inside|].
  split; [exact scanChar_outside|].
  split; [exact scanRun_in_string|].
  exact scanLoop_spec.
Qed.

Lemma C1_scanner_rules_witness :
  (exists st', scanRun initialScan (qq "{`a" ++ "}") = Some st'
               /\ braceCount st' = 1%Z)
  /\ scanChar (setEscapeNext true initialScan) "}"
     = Next (setEscapeNext false (setEscapeNext true initialScan)).
Proof.
  split.
  - apply (proj1 (proj2 (proj2 (proj2 (proj2 C1_scanner_rules))))
             initialScan (qq "{`a") "}"%char
             (setString true (Some dquote) (setBraceCount 1 initialScan)));
      reflexivity.
  - apply (proj1 C1_scanner_rules). reflexivity.
Defined.

(** C1, counterexample: at depth 1 outside a literal, a '}' that
    follows a backslash is skipped, whereas without the backslash it
    ends the scan. *)
Lemma C1_backslash_outside_string_counterexample :
  ~ backslashInertOutsideStrings.
Proof.
  intros H.
  specialize (H (setBraceCount 1 initialScan)
                (setEscapeNext true (setBraceCount 1 initialScan))
                "}"%char eq_refl eq_refl eq_refl).
  discriminate H.
Qed.

(** The same on a text: the scan of [{\}}] ends on the second closing
    brace, and on the first one once the backslash is taken out. *)
Example scan_backslash_brace :
  findEnd 0 "{\}}" = Some 3 /\ findEnd 0 "{}}" = Some 1.
Proof. split; reflexivity. Qed.

(** A brace inside a literal is not structural. *)
Example scan_brace_in_literal :
  findEnd 0 (qq "{`}`:{}}") = Some 7.
Proof. reflexivity. Qed.

End ScannerFacts.

(* ================================================================== *)
(** * Properties of the caption decoder *)
(* ================================================================== *)

Module DecoderFacts.
Import Js JsLib Dom TranscriptParser Wording Samples.

(** ** Construction *)

Lemma withConfig_rejects preserveFormatting linkFormat :
  lacksPlaceholder linkFormat ->
  withConfig preserveFormatting linkFormat
  = Err "Link format must contain {text} and {url} placeholders".
Proof.
  unfold withConfig. intros [H | H]; rewrite H; simpl;
    [reflexivity | now rewrite orb_true_r].
Qed.

Lemma withConfig_accepts preserveFormatting linkFormat :
  includes "{text}" linkFormat = true ->
  includes "{url}" linkFormat = true ->
  withConfig preserveFormatting linkFormat
  = Ok (new preserveFormatting linkFormat).
Proof. unfold withConfig. now intros -> ->. Qed.

(** C7 (as amended): [withConfig] fails, whatever [preserveFormatting]
    is and before any segment is read, on a link format that lacks
    [{text}] or [{url}], and returns the decoder when both are there. *)
Theorem C7_withConfig_validates :
  validatesLinkFormat withConfig /\
  (forall preserveFormatting linkFormat,
     includes "{text}" linkFormat = true ->
     includes "{url}" linkFormat = true ->
     withConfig preserveFormatting linkFormat
     = Ok (new preserveFormatting linkFormat)).
Proof.
  split; [|exact withConfig_accepts].
  intros pf lf H. eexists. now apply withConfig_rejects.
Qed.

Lemma C7_withConfig_validates_witness :
  (exists message, withConfig true "invalid format" = Err message) /\
  withConfig true "[{text}]({url})" = Ok (new true "[{text}]({url})").
Proof.
  split.
  - apply (proj1 C7_withConfig_validates). left. reflexivity.
  - apply (proj2 C7_withConfig_validates); reflexivity.
Defined.

(** C7, counterexample: the constructor builds a decoder from a link
    format without placeholders. *)
Lemma C7_constructor_counterexample : ~ validatesLinkFormat construct.
Proof.
  intros H.
  destruct (H true "invalid format" (or_introl eq_refl)) as [message E].
  discriminate E.
Qed.

(** ** Structural pre-checks *)

(** C4: a text without the opening or the closing root marker, or with
    different numbers of opening and closing segment tags, makes [parse]
    fail; the result is the failure alone, without snippets. *)
Theorem C4_structural_prechecks cheerio this rawData :
  includes "<transcript" rawData = false
  \/ includes "</transcript>" rawData = false
  \/ countOpenTags 0 rawData <> countLiteral "</text>" 0 rawData ->
  exists message, parse cheerio this rawData = Err (failed message).
Proof.
  unfold parse. intros [H | [H | H]].
  - rewrite H. simpl. eexists. reflexivity.
  - rewrite H. rewrite orb_true_r. eexists. reflexivity.
  - destruct (negb (includes "<transcript" rawData)
              || negb (includes "</transcript>" rawData));
      [eexists; reflexivity|].
    apply Nat.eqb_neq in H. rewrite H. simpl. eexists. reflexivity.
Qed.

Lemma C4_structural_prechecks_witness :
  exists message,
    parse Mini.engine plain twoOpeningsOneClosing = Err (failed message).
Proof.
  apply C4_structural_prechecks. right. right.
  vm_compute. discriminate.
Defined.

Example prechecks_counts :
  countOpenTags 0 twoOpeningsOneClosing = 2
  /\ countLiteral "</text>" 0 twoOpeningsOneClosing = 1
  /\ parse Mini.engine plain twoOpeningsOneClosing
     = Err "Failed to parse transcript XML: Malformed XML: mismatched text tags".
Proof. repeat split. Qed.

Example prechecks_root_marker :
  parse Mini.engine plain (qq "<text start=`0` dur=`1`>a</text>")
  = Err "Failed to parse transcript XML: Invalid transcript XML structure".
Proof. reflexivity. Qed.

(** ** The per-segment skip rule *)

Lemma snippetOf_skipped cheerio this element :
  skipped element = true -> snippetOf cheerio this element = None.
Proof.
  unfold skipped, snippetOf. intros H.
  destruct (missing (attr "start" (attribsOf element))
            || missing (attr "dur" (attribsOf element))); [reflexivity|].
  simpl in H. now rewrite H.
Qed.

Lemma snippetOf_kept cheerio this element :
  skipped element = false ->
  snippetOf cheerio this element =
  match renderText cheerio this (childrenOf element) with
  | EmptyString => None
  | String c r =>
      Some {| text := String c r;
              start := parseFloat (valueOf (attr "start" (attribsOf element)));
              duration := parseFloat (valueOf (attr "dur" (attribsOf element))) |}
  end.
Proof.
  unfold skipped, snippetOf. intros H.
  destruct (missing (attr "start" (attribsOf element))
            || missing (attr "dur" (attribsOf element))); [discriminate|].
  simpl in H. rewrite H.
  now destruct (renderText cheerio this (childrenOf element)).
Qed.

Lemma collect_app cheerio this before after :
  collect cheerio this (before ++ after)%list
  = (collect cheerio this before ++ collect cheerio this after)%list.
Proof.
  induction before as [|e before IH]; simpl; [reflexivity|].
  destruct (snippetOf cheerio this e); simpl; now rewrite IH.
Qed.

Lemma collect_skip cheerio this before element after :
  snippetOf cheerio this element = None ->
  collect cheerio this (before ++ element :: after)%list
  = (collect cheerio this before ++ collect cheerio this after)%list.
Proof. intros H. rewrite collect_app. simpl. now rewrite H. Qed.

Lemma parse_ok cheerio this rawData snippets :
  parse cheerio this rawData = Ok snippets ->
  snippets
  = collect cheerio this (select (isTag "text") (loadXml cheerio rawData)).
Proof.
  unfold parse.
  destruct (negb (includes "<transcript" rawData)
            || negb (includes "</transcript>" rawData)); [discriminate|].
  destruct (negb (countOpenTags 0 rawData =? countLiteral "</text>" 0 rawData)%nat);
    [discriminate|].
  destruct (select (isTag "transcript") (loadXml cheerio rawData));
    [discriminate|].
  now intros [= <-].
Qed.

(** C2, counterexample: [dur="1.5abc"] is not a number, yet the segment
    is emitted. *)
Lemma C2_trailing_letters_counterexample : ~ skipsNonNumeric.
Proof.
  intros H.
  specialize (H Mini.engine plain
                (Element "text" [("start", "1.0"); ("dur", "1.5abc")]
                         [Text "ok"])
                "dur" "1.5abc" (or_intror eq_refl) eq_refl eq_refl).
  discriminate H.
Qed.

(** ** White space *)

Lemma hasSpaceRun_tail c s :
  hasSpaceRun (String c s) = false -> hasSpaceRun s = false.
Proof.
  simpl. destruct s as [|d s]; [reflexivity|].
  intros H. apply orb_false_iff in H. tauto.
Qed.

Lemma collapseSpaces_shape s : forall inRun,
  hasSpaceRun (collapseSpaces inRun s) = false
  /\ (inRun = true -> startsWithSpace (collapseSpaces inRun s) = false).
Proof.
  induction s as [|c s IH]; intros inRun; simpl; [now split|].
  destruct (isSpace c) eqn:Hc.
  - destruct inRun.
    + apply IH.
    + split; [|discriminate].
      destruct (IH true) as [Hrun Hhead]. specialize (Hhead eq_refl).
      destruct (collapseSpaces true s) as [|d r] eqn:E; [reflexivity|].
      change (hasSpaceRun (String " " (String d r)))
        with ((isSpace " " && isSpace d) || hasSpaceRun (String d r)).
      simpl in Hhead. rewrite Hhead, andb_false_r. exact Hrun.
  - destruct (IH false) as [Hrun _]. split.
    + simpl. rewrite Hc.
      destruct (collapseSpaces false s); [reflexivity | exact Hrun].
    + intros _. simpl. exact Hc.
Qed.

Lemma trimStart_run s :
  hasSpaceRun s = false -> hasSpaceRun (trimStart s) = false.
Proof.
  induction s as [|c s IH]; [reflexivity|].
  intros H. simpl trimStart.
  destruct (isSpace c); [|exact H].
  apply IH. now apply hasSpaceRun_tail with c.
Qed.

Lemma trimStart_head s : startsWithSpace (trimStart s) = false.
Proof.
  induction s as [|c s IH]; [reflexivity|].
  simpl. destruct (isSpace c) eqn:Hc; [exact IH|].
  simpl. exact Hc.
Qed.

Lemma trimEnd_cons c s :
  trimEnd (String c s) = EmptyString
  \/ exists t, trimEnd (String c s) = String c t.
Proof.
  simpl. destruct (trimEnd s) as [|d r].
  - destruct (isSpace c); [now left | right; now eexists].
  - right. now eexists.
Qed.

Lemma trimEnd_tail s : endsWithSpace (trimEnd s) = false.
Proof.
  induction s as [|c s IH]; [reflexivity|].
  simpl. destruct (trimEnd s) as [|d r].
  - destruct (isSpace c) eqn:Hc; [reflexivity|]. simpl. exact Hc.
  - exact IH.
Qed.

Lemma trimEnd_head s :
  startsWithSpace s = false -> startsWithSpace (trimEnd s) = false.
Proof.
  destruct s as [|c s]; [reflexivity|].
  intros H. destruct (trimEnd_cons c s) as [-> | [t ->]];
    [reflexivity | exact H].
Qed.

Lemma trimEnd_run s :
  hasSpaceRun s = false -> hasSpaceRun (trimEnd s) = false.
Proof.
  induction s as [|c s IH]; [reflexivity|].
  intros H. pose proof (hasSpaceRun_tail _ _ H) as Ht.
  specialize (IH Ht). simpl trimEnd.
  destruct (trimEnd s) as [|d r] eqn:E.
  - now destruct (isSpace c).
  - destruct s as [|d' s']; [discriminate|].
    destruct (trimEnd_cons d' s') as [E' | [t E']]; rewrite E' in E;
      [discriminate|].
    injection E as <- <-.
    simpl in H. apply orb_false_iff in H. destruct H as [H _].
    change (hasSpaceRun (String c (String d' t)))
      with ((isSpace c && isSpace d') || hasSpaceRun (String d' t)).
    now rewrite H.
Qed.

(** What [text.replace(/\s+/g, ' ').trim()] returns is empty or
    normalised. *)
Lemma trim_collapse_normalised s :
  trim (collapseSpaces false s) <> EmptyString ->
  normalised (trim (collapseSpaces false s)).
Proof.
  intros H. unfold normalised, trim. repeat split.
  - exact H.
  - apply trimEnd_run, trimStart_run, collapseSpaces_shape.
  - apply trimEnd_head, trimStart_head.
  - apply trimEnd_tail.
Qed.

Lemma snippetOf_normalised cheerio this element snippet :
  snippetOf cheerio this element = Some snippet ->
  normalised (text snippet)
  /\ text snippet = renderText cheerio this (childrenOf element).
Proof.
  unfold snippetOf.
  destruct (missing (attr "start" (attribsOf element))
            || missing (attr "dur" (attribsOf element))); [discriminate|].
  destruct (isNaN (parseFloat (valueOf (attr "start" (attribsOf element))))
            || isNaN (parseFloat (valueOf (attr "dur" (attribsOf element)))));
    [discriminate|].
  destruct (renderText cheerio this (childrenOf element)) as [|c r] eqn:E;
    [discriminate|].
  intros [= <-]. simpl. split; [|reflexivity].
  rewrite <- E. unfold renderText in *.
  apply trim_collapse_normalised. rewrite E. discriminate.
Qed.

Lemma snippetOf_empty cheerio this element :
  renderText cheerio this (childrenOf element) = EmptyString ->
  snippetOf cheerio this element = None.
Proof.
  unfold snippetOf. intros ->.
  destruct (missing _ || missing _); [reflexivity|].
  now destruct (isNaN _ || isNaN _).
Qed.

Lemma collect_normalised cheerio this elements :
  Forall (fun snippet => normalised (text snippet))
         (collect cheerio this elements).
Proof.
  induction elements as [|e elements IH]; simpl; [constructor|].
  destruct (snippetOf cheerio this e) as [snippet|] eqn:E; [|exact IH].
  constructor; [|exact IH].
  now apply snippetOf_normalised in E.
Qed.

Lemma collect_in_order cheerio this elements :
  InOrder (snippetOf cheerio this) elements (collect cheerio this elements).
Proof.
  induction elements as [|e elements IH]; simpl; [constructor|].
  destruct (snippetOf cheerio this e) eqn:E;
    [now apply InOrder_emit | now apply InOrder_drop].
Qed.

(** C6: every snippet [parse] returns has a text that is not empty, has
    no two white-space characters in a row and neither starts nor ends
    with one; a segment whose text comes out empty adds no snippet; and
    the snippets follow the document order of their segments. *)
Theorem C6_snippet_text_invariant cheerio this rawData snippets :
  parse cheerio this rawData = Ok snippets ->
  Forall (fun snippet => normalised (text snippet)) snippets
  /\ (forall element,
        renderText cheerio this (childrenOf element) = EmptyString ->
        snippetOf cheerio this element = None)
  /\ InOrder (snippetOf cheerio this)
             (select (isTag "text") (loadXml cheerio rawData)) snippets.
Proof.
  intros H. apply parse_ok in H. subst snippets.
  split; [apply collect_normalised|].
  split; [apply snippetOf_empty | apply collect_in_order].
Qed.

Lemma C6_snippet_text_invariant_witness :
  Forall (fun snippet => normalised (text snippet))
         [{| text := "Multiple spaces and newlines";
             start := decimal false 0 (-1);
             duration := decimal false 10 (-1) |};
          {| text := "last"; start := decimal false 2 0;
             duration := decimal false 1 0 |}].
Proof.
  apply (C6_snippet_text_invariant Mini.engine plain spacedOut).
  reflexivity.
Defined.

(** ** Links *)

Lemma getSubstitution_literal matched before after replacement :
  noDollar replacement = true ->
  getSubstitution matched before after replacement = replacement.
Proof.
  induction replacement as [|c r IH]; simpl; [reflexivity|].
  intros H. apply andb_true_iff in H. destruct H as [Hc Hr].
  apply negb_true_iff in Hc. rewrite Hc. now rewrite IH.
Qed.

Lemma replace_literal s pattern replacement :
  noDollar replacement = true ->
  replace s pattern replacement = substituteFirst s pattern replacement.
Proof.
  intros H. unfold replace, substituteFirst.
  destruct (indexOf pattern s); [|reflexivity].
  now rewrite getSubstitution_literal.
Qed.

(** With no dollar sign in the anchor's text and address, the text that
    replaces the anchor is the template with both placeholders filled
    in literally. *)
Lemma linkReplacement_literal this attribs children h hs :
  attr "href" attribs = Some (String h hs) ->
  textContent children <> EmptyString ->
  noDollar (textContent children) = true ->
  noDollar (String h hs) = true ->
  linkReplacement this attribs children
  = formatLink (linkFormat this) (textContent children) (String h hs).
Proof.
  intros Hh Ht Hd1 Hd2. unfold linkReplacement, formatLink. rewrite Hh.
  destruct (textContent children) as [|c r] eqn:E; [contradiction|].
  now rewrite !replace_literal.
Qed.

Lemma linkReplacement_bare this attribs children :
  missing (attr "href" attribs) = true
  \/ textContent children = EmptyString ->
  linkReplacement this attribs children = textContent children.
Proof.
  unfold linkReplacement.
  intros [H | H].
  - destruct (attr "href" attribs) as [[|h hs]|]; try discriminate;
      reflexivity.
  - rewrite H. now destruct (attr "href" attribs) as [[|h hs]|].
Qed.

(** The samples of the specification, in plain mode. *)
Example plain_link_default :
  parse Mini.engine plain (segment linkT) = Ok [at0 "t (https://x.test)"].
Proof. reflexivity. Qed.

Example plain_link_markdown :
  parse Mini.engine (new false "[{text}]({url})") (segment linkT)
  = Ok [at0 "[t](https://x.test)"].
Proof. reflexivity. Qed.

Example plain_link_without_href :
  parse Mini.engine plain (segment "This is a <a>bad link</a> without href.")
  = Ok [at0 "This is a bad link without href."].
Proof. reflexivity. Qed.

Example plain_other_tags :
  parse Mini.engine plain (segment "So in <b>college</b>, <i>yes</i>")
  = Ok [at0 "So in college, yes"].
Proof. reflexivity. Qed.

(** C8, at the failing input: an anchor whose text is two dollar signs.
    [replace] reads [$$] in its replacement argument as one dollar sign,
    so the anchor is rendered with one sign, where the template filled
    in with the anchor's text has two. *)
Theorem C8_dollar_in_link_text :
  parse Mini.engine plain (segment linkDollars) = Ok [at0 "$ (https://x.test)"]
  /\ linkReplacement plain [("href", "https://x.test")] [Text "$$"]
     = "$ (https://x.test)"
  /\ formatLink defaultLinkFormat "$$" "https://x.test" = "$$ (https://x.test)".
Proof. repeat split. Qed.

(** ** Formatting-preserving mode *)

Lemma formatting_tag_kept name :
  In name FORMATTING_TAGS -> keptTag name = true.
Proof.
  unfold FORMATTING_TAGS. simpl.
  intros H. repeat (destruct H as [<- | H]; [reflexivity|]). contradiction.
Qed.

Lemma stripTags_kept cheerio name attribs children :
  keptTag name = true ->
  stripTags cheerio (Element name attribs children)
  = [Element name attribs (flat_map (stripTags cheerio) children)].
Proof. intros H. simpl. now rewrite H. Qed.

Lemma stripTags_selected cheerio name attribs children :
  keptTag name = false ->
  stripTags cheerio (Element name attribs children)
  = parseFragment cheerio
      (orElse (renderHtml cheerio children) (textContent children)).
Proof. intros H. simpl. now rewrite H. Qed.

Lemma rewriteLinks_anchor cheerio this attribs children :
  rewriteLinks cheerio this (Element "a" attribs children)
  = parseFragment cheerio (linkReplacement this attribs children).
Proof. reflexivity. Qed.

Lemma rewriteLinks_other cheerio this name attribs children :
  name <> "a" ->
  rewriteLinks cheerio this (Element name attribs children)
  = [Element name attribs (flat_map (rewriteLinks cheerio this) children)].
Proof.
  intros H. simpl. unfold isTag.
  destruct (String.eqb name "a") eqn:E; [|reflexivity].
  apply String.eqb_eq in E. contradiction.
Qed.

(** For every engine, an element whose tag is on the allow-list and
    is not an anchor keeps its tag and its attributes through both
    passes, its children being processed in turn. *)
Lemma allow_listed_kept cheerio this name attribs children :
  In name FORMATTING_TAGS -> name <> "a" ->
  flat_map (stripTags cheerio)
           (rewriteLinks cheerio this (Element name attribs children))
  = [Element name attribs
       (flat_map (stripTags cheerio)
                 (flat_map (rewriteLinks cheerio this) children))].
Proof.
  intros Hin Hna.
  rewrite rewriteLinks_other by assumption.
  simpl flat_map at 1. rewrite app_nil_r.
  apply stripTags_kept. now apply formatting_tag_kept.
Qed.

(** C3, at the failing input: in formatting-preserving mode the segment
    [<div>word</div>] comes out as it went in, where the claim has it
    collapse to [word].  [div] is not on the allow-list, but the
    selector of the stripping pass leaves it out along with the
    allow-list, so that for every engine, and whatever its attributes
    and children, a [div] element is left in place by that pass.  The
    tags of the allow-list other than [a] come through both passes with
    their attributes, for every engine, as the claim says. *)
Theorem C3_div_not_collapsed :
  processWithFormatting Mini.engine formatting "<div>word</div>"
  = "<div>word</div>"
  /\ parse Mini.engine formatting (segment "<div>word</div>")
     = Ok [at0 "<div>word</div>"]
  /\ ~ In "div" FORMATTING_TAGS
  /\ (forall cheerio attribs children,
        stripTags cheerio (Element "div" attribs children)
        = [Element "div" attribs (flat_map (stripTags cheerio) children)])
  /\ (forall cheerio this name attribs children,
        In name FORMATTING_TAGS -> name <> "a" ->
        flat_map (stripTags cheerio)
                 (rewriteLinks cheerio this (Element name attribs children))
        = [Element name attribs
             (flat_map (stripTags cheerio)
                       (flat_map (rewriteLinks cheerio this) children))])
  /\ processWithFormatting Mini.engine formatting "<b>word</b>"
     = "<b>word</b>"
  /\ processWithFormatting Mini.engine formatting Cases.allowListed
     = Cases.allowListed.
Proof.
  split; [reflexivity|]. split; [reflexivity|]. split.
  - unfold FORMATTING_TAGS. simpl. intros H.
    repeat (destruct H as [H | H]; [discriminate H|]). exact H.
  - split; [reflexivity|]. split; [exact allow_listed_kept|].
    split; reflexivity.
Qed.

Example formatting_anchor :
  parse Mini.engine formatting (segment linkT) = Ok [at0 "t (https://x.test)"].
Proof. reflexivity. Qed.

(** With the engine above the [html] element that wraps the document is
    the first element the pass selects; once it is replaced by what its
    markup parses to, the elements selected inside it are no longer in
    the document, and a paragraph comes through as well. *)
Example formatting_paragraph :
  keptTag "p" = false
  /\ parse Mini.engine formatting (segment "<p>word</p>")
     = Ok [at0 "<p>word</p>"].
Proof. split; reflexivity. Qed.

End DecoderFacts.

(* ================================================================== *)
(** * Properties of the extractor *)
(* ================================================================== *)

Module ExtractorFacts.
Import Js JsVarParser Contract StringFacts ScannerFacts.

Lemma identifier_nonempty name : identifier name = true -> name <> EmptyString.
Proof. now destruct name. Qed.

Lemma identifier_identName name : identifier name = true -> identName name = true.
Proof. now destruct name. Qed.

Lemma marker_nonempty name : "var " ++ name <> EmptyString.
Proof. discriminate. Qed.

(** [extractLiteral] works on the text [afterMarker] isolates. *)
Lemma extractLiteral_afterMarker varName html :
  extractLiteral varName html =
  match afterMarker varName html with
  | None => None
  | Some afterVar =>
      match indexOf "{" afterVar with
      | None => None
      | Some startIndex =>
          match findEnd startIndex afterVar with
          | None => None
          | Some endIndex =>
              Some (substring startIndex (endIndex + 1) afterVar)
          end
      end
  end.
Proof.
  unfold extractLiteral, afterMarker.
  destruct (List.length (split ("var " ++ varName) html) <=? 1)%nat;
    [|reflexivity].
  now destruct (List.length (split varName html) <=? 1)%nat.
Qed.

Lemma afterMarker_none varName html :
  varName <> EmptyString ->
  afterMarker varName html = None <-> markerAbsent varName html.
Proof.
  intros Hn. unfold afterMarker, markerAbsent.
  rewrite (split_length _ html (marker_nonempty varName)).
  rewrite (split_length _ html Hn).
  destruct (includes ("var " ++ varName) html),
           (includes varName html); simpl; split;
    try discriminate; try tauto; intros [? ?]; discriminate.
Qed.

(** What follows the marker holds no further [var NAME]. *)
Lemma afterMarker_clean varName html afterVar :
  varName <> EmptyString ->
  afterMarker varName html = Some afterVar ->
  includes ("var " ++ varName) afterVar = false.
Proof.
  intros Hn. unfold afterMarker.
  destruct (List.length (split ("var " ++ varName) html) <=? 1)%nat.
  - destruct (List.length (split varName html) <=? 1)%nat; [discriminate|].
    intros [= <-].
    destruct (includes ("var " ++ varName) (nth 1 (split varName html) ""))
      eqn:E; [|reflexivity].
    apply includes_pattern_suffix in E.
    now rewrite split_clean in E.
  - intros [= <-].
    apply (split_clean ("var " ++ varName) html), marker_nonempty.
Qed.

Lemma parseCharByChar_error JSON_parse varName html videoId e :
  parseCharByChar JSON_parse varName html videoId = Err e ->
  e = youTubeDataUnparsable videoId.
Proof.
  unfold parseCharByChar.
  destruct (extractLiteral varName html) as [jsonStr|]; [|now intros [= <-]].
  destruct (JSON_parse jsonStr); [discriminate | now intros [= <-]].
Qed.

Lemma tryPatterns_error JSON_parse varName ps html videoId e :
  tryPatterns JSON_parse varName ps html videoId = Err e ->
  e = youTubeDataUnparsable videoId.
Proof.
  induction ps as [|p ps IH]; simpl; [now intros [= <-]|].
  destruct (patternValue JSON_parse varName p html); [discriminate | exact IH].
Qed.

Lemma tryPatterns_fails JSON_parse varName ps html videoId :
  (exists e, tryPatterns JSON_parse varName ps html videoId = Err e)
  <-> (forall p, In p ps -> patternValue JSON_parse varName p html = None).
Proof.
  induction ps as [|p ps IH]; simpl.
  - split; [intros _ q [] | eexists; reflexivity].
  - destruct (patternValue JSON_parse varName p html) eqn:E.
    + split; [intros [e He]; discriminate|].
      intros H. specialize (H p (or_introl eq_refl)). congruence.
    + rewrite IH. split.
      * intros H q [<- | Hq]; [exact E | now apply H].
      * intros H q Hq. apply H. now right.
Qed.

Lemma parse_error JSON_parse varName html videoId e :
  parse JSON_parse varName html videoId = Err e ->
  e = youTubeDataUnparsable videoId.
Proof.
  unfold parse, parseWithRegex.
  destruct (parseCharByChar JSON_parse varName html videoId);
    [discriminate|].
  apply tryPatterns_error.
Qed.

(** ** Idempotence *)

Lemma identName_snoc x : identName (x ++ ";") = false.
Proof.
  induction x as [|c x IH]; [reflexivity|].
  simpl. rewrite IH. apply andb_false_r.
Qed.

(** The marker of an identifier does not end with a semicolon. *)
Lemma marker_not_semicolon varName x :
  identifier varName = true -> "var " ++ varName <> x ++ ";".
Proof.
  intros Hid E. apply identifier_identName in Hid.
  destruct x as [|c1 [|c2 [|c3 [|c4 x]]]]; try discriminate E.
  injection E as _ _ _ _ E. rewrite E, identName_snoc in Hid.
  discriminate.
Qed.

Lemma marker_absent_in_rewrap varName s :
  identifier varName = true ->
  includes ("var " ++ varName) s = false ->
  includes ("var " ++ varName) (" = " ++ s ++ ";") = false.
Proof.
  intros Hid H.
  change (" = " ++ s ++ ";")
    with (String " " (String "=" (String " " (s ++ ";")))).
  rewrite !includes_cons.
  rewrite includes_snoc; [reflexivity | | exact H].
  intros x. now apply marker_not_semicolon.
Qed.

Lemma afterMarker_rewrap varName s :
  identifier varName = true ->
  includes ("var " ++ varName) s = false ->
  afterMarker varName (rewrap varName s) = Some (" = " ++ s ++ ";").
Proof.
  intros Hid H. unfold afterMarker.
  replace (rewrap varName s) with (("var " ++ varName) ++ " = " ++ s ++ ";")
    by (unfold rewrap; now rewrite append_assoc).
  rewrite split_at_start;
    [reflexivity | apply marker_nonempty | now apply marker_absent_in_rewrap].
Qed.

(** The literal the scan has bounded is scanned to its last character
    when it stands alone. *)
Lemma extractLiteral_shape varName html s :
  varName <> EmptyString ->
  extractLiteral varName html = Some s ->
  includes ("var " ++ varName) s = false
  /\ exists pre st,
       s = String "{" pre ++ "}"
       /\ scanRun initialScan (String "{" pre) = Some st
       /\ escapeNext st = false /\ inString st = false
       /\ braceCount st = 1%Z.
Proof.
  intros Hn. rewrite extractLiteral_afterMarker.
  destruct (afterMarker varName html) as [afterVar|] eqn:Ea; [|discriminate].
  destruct (indexOf "{" afterVar) as [i|] eqn:Ei; [|discriminate].
  destruct (findEnd i afterVar) as [e|] eqn:Ee; [|discriminate].
  intros [= <-]. split.
  - apply includes_substring. now apply afterMarker_clean with html.
  - unfold findEnd in Ee. apply scanLoop_spec in Ee.
    destruct Ee as (pre & post & st & Hd & -> & Hrun & He & Hi & Hb).
    apply indexOf_startsWith in Ei. rewrite Hd in Ei.
    destruct pre as [|c pre].
    { injection Hrun as <-. discriminate Hb. }
    change (Ascii.eqb "{" c && true = true) in Ei.
    rewrite andb_true_r in Ei. apply Ascii.eqb_eq in Ei. subst c.
    exists pre, st. split; [|now repeat split].
    unfold substring. rewrite Hd.
    replace (i + String.length (String "{" pre) + 1 - i)
      with (String.length (String "{" pre ++ "}"))
      by (rewrite append_length; simpl; lia).
    replace (String "{" pre ++ String "}" post)
      with ((String "{" pre ++ "}") ++ post)
      by (now rewrite append_assoc).
    apply take_app_length.
Qed.

Lemma extractLiteral_rewrap varName s pre st :
  identifier varName = true ->
  includes ("var " ++ varName) s = false ->
  s = String "{" pre ++ "}" ->
  scanRun initialScan (String "{" pre) = Some st ->
  escapeNext st = false -> inString st = false -> braceCount st = 1%Z ->
  extractLiteral varName (rewrap varName s) = Some s.
Proof.
  intros Hid Hs -> Hrun He Hi Hb.
  rewrite extractLiteral_afterMarker, afterMarker_rewrap by assumption.
  change (indexOf "{" (" = " ++ (String "{" pre ++ "}") ++ ";"))
    with (Some 3).
  cbv iota beta.
  assert (E : findEnd 3 (" = " ++ (String "{" pre ++ "}") ++ ";")
              = Some (3 + String.length (String "{" pre))).
  { unfold findEnd. apply scanLoop_spec.
    exists (String "{" pre), ";", st. repeat split; try assumption.
    change (drop 3 (" = " ++ (String "{" pre ++ "}") ++ ";"))
      with ((String "{" pre ++ "}") ++ ";").
    now rewrite append_assoc. }
  rewrite E. f_equal. unfold substring.
  change (drop 3 (" = " ++ (String "{" pre ++ "}") ++ ";"))
    with ((String "{" pre ++ "}") ++ ";").
  replace (3 + String.length (String "{" pre) + 1 - 3)
    with (String.length (String "{" pre ++ "}"))
    by (rewrite append_length; simpl; lia).
  apply take_app_length.
Qed.

(** C9 (as amended): when the primary scan bounds the literal [s] and
    [s] parses to [v], extraction on [var NAME = s;] succeeds by the
    same scan, bounds the same [s] and yields [v]. *)
Theorem C9_idempotent_after_scan JSON_parse varName html videoId s v :
  identifier varName = true ->
  extractLiteral varName html = Some s ->
  JSON_parse s = Some v ->
  extraction JSON_parse varName html = Some (s, v)
  /\ extractLiteral varName (rewrap varName s) = Some s
  /\ parse JSON_parse varName (rewrap varName s) videoId = Ok v.
Proof.
  intros Hid Hs Hv.
  split; [unfold extraction; now rewrite Hs, Hv|].
  destruct (extractLiteral_shape varName html s
              (identifier_nonempty _ Hid) Hs)
    as (Hclean & pre & st & Hshape & Hrun & He & Hi & Hb).
  pose proof (extractLiteral_rewrap varName s pre st
                Hid Hclean Hshape Hrun He Hi Hb) as E.
  split; [exact E|].
  unfold parse, parseCharByChar. now rewrite E, Hv.
Qed.

Lemma C9_idempotent_after_scan_witness :
  parse Json.parse "testVar" (rewrap "testVar" (qq "{`key`: `value`}")) "id"
  = Ok (JObject [(codeUnits "key", JString (codeUnits "value"))]).
Proof.
  apply (C9_idempotent_after_scan Json.parse "testVar"
           (qq "<script> testVar = {`key`: `value`}; </script>") "id"
           (qq "{`key`: `value`}")); reflexivity.
Defined.

(** C9, counterexample: the second assignment is found by the fallback
    only, which turns the single quotes inside the string into double
    quotes and reads two members; wrapped again, the same text is read
    by the primary scan as one member. *)
Lemma C9_fallback_counterexample : ~ idempotent Json.parse.
Proof.
  intros H.
  specialize (H "X" twiceAssigned "id" (qq "{`a`: `x','b':'y`}")
                (JObject [(codeUnits "a", JString (codeUnits "x"));
                          (codeUnits "b", JString (codeUnits "y"))])
                eq_refl).
  vm_compute in H. discriminate H.
Qed.

Example fallback_then_scan :
  extraction Json.parse "X" twiceAssigned
  = Some (qq "{`a`: `x','b':'y`}",
          JObject [(codeUnits "a", JString (codeUnits "x"));
                   (codeUnits "b", JString (codeUnits "y"))])
  /\ parse Json.parse "X" (rewrap "X" (qq "{`a`: `x','b':'y`}")) "id"
     = Ok (JObject [(codeUnits "a", JString (codeUnits "x','b':'y"))]).
Proof. split; reflexivity. Qed.

End ExtractorFacts.

(* ================================================================== *)
(** * Properties of the video-id helpers *)
(* ================================================================== *)

Module ApiFacts.
Import Js Api StringFacts.

Lemma idChars_sound n : forall s g,
  idChars n s = Some g ->
  String.length g = n /\ allIdChars g = true /\ startsWith g s = true.
Proof.
  induction n as [|n IH]; intros s g; simpl.
  - intros [= <-]. now repeat split.
  - destruct s as [|c s]; [discriminate|].
    destruct (isIdChar c) eqn:Hc; [|discriminate].
    destruct (idChars n s) as [g'|] eqn:E; [|discriminate].
    intros [= <-]. destruct (IH _ _ E) as (Hl & Ha & Hs).
    simpl. rewrite Hc, Ha, Hs, Hl, Ascii.eqb_refl. now repeat split.
Qed.

Lemma idChars_app id rest :
  allIdChars id = true ->
  idChars (String.length id) (id ++ rest) = Some id.
Proof.
  induction id as [|c id IH]; simpl; [reflexivity|].
  intros H. apply andb_true_iff in H. destruct H as [Hc H].
  now rewrite Hc, IH.
Qed.

Lemma valid_length id : isValidVideoId id = true -> String.length id = 11.
Proof.
  unfold isValidVideoId. intros H. apply andb_true_iff in H.
  now apply Nat.eqb_eq.
Qed.

Lemma valid_chars id : isValidVideoId id = true -> allIdChars id = true.
Proof. unfold isValidVideoId. intros H. now apply andb_true_iff in H. Qed.

Lemma eat_app literal s : JsVarParser.eat literal (literal ++ s) = Some s.
Proof.
  unfold JsVarParser.eat. now rewrite startsWith_app, drop_app_length.
Qed.

Lemma eat_inv literal s rest :
  JsVarParser.eat literal s = Some rest -> s = literal ++ rest.
Proof.
  unfold JsVarParser.eat. destruct (startsWith literal s) eqn:E;
    [|discriminate].
  intros [= <-]. now apply startsWith_inv.
Qed.

Lemma alternative_app literal id rest :
  isValidVideoId id = true ->
  alternative literal (literal ++ id ++ rest) = Some id.
Proof.
  intros H. unfold alternative. rewrite eat_app.
  rewrite <- (valid_length id H). apply idChars_app. now apply valid_chars.
Qed.

(** What an alternative captures is a valid id that stands in the text
    right after the literal. *)
Lemma alternative_sound literal s id :
  alternative literal s = Some id ->
  isValidVideoId id = true /\ startsWith (literal ++ id) s = true.
Proof.
  unfold alternative.
  destruct (JsVarParser.eat literal s) as [rest|] eqn:E; [|discriminate].
  intros H. apply idChars_sound in H. destruct H as (Hl & Ha & Hs).
  apply eat_inv in E. subst s. split.
  - unfold isValidVideoId. now rewrite Hl, Ha.
  - apply startsWith_inv in Hs. rewrite Hs at 1.
    rewrite <- append_assoc. apply startsWith_app.
Qed.

Lemma firstMatch_here m s g :
  m s = Some g -> JsVarParser.firstMatch m s = Some g.
Proof. intros H. destruct s; simpl; now rewrite H. Qed.

Lemma firstMatch_cons m c s :
  m (String c s) = None ->
  JsVarParser.firstMatch m (String c s) = JsVarParser.firstMatch m s.
Proof. intros H. simpl. now rewrite H. Qed.

Lemma firstMatch_sound m : forall s g,
  JsVarParser.firstMatch m s = Some g -> exists n, m (drop n s) = Some g.
Proof.
  induction s as [|c s IH]; intros g; simpl.
  - destruct (m "") eqn:E; [|discriminate]. intros [= <-]. now exists 0.
  - destruct (m (String c s)) eqn:E.
    + intros [= <-]. now exists 0.
    + intros H. destruct (IH _ H) as [n Hn]. now exists (S n).
Qed.

Lemma firstMatch_none m : forall s,
  (forall n, m (drop n s) = None) -> JsVarParser.firstMatch m s = None.
Proof.
  induction s as [|c s IH]; intros H; pose proof (H 0) as H0;
    simpl in H0; simpl; rewrite H0; [reflexivity|].
  apply IH. intros n. exact (H (S n)).
Qed.

Lemma startsWith_app_l x y s :
  startsWith (x ++ y) s = true -> startsWith x s = true.
Proof.
  revert s. induction x as [|c x IH]; intros s; [reflexivity|].
  destruct s as [|d s]; simpl; [discriminate|].
  intros H. apply andb_true_iff in H. destruct H as [-> H].
  now rewrite (IH _ H).
Qed.

Lemma includes_of_drop p n s :
  startsWith p (drop n s) = true -> includes p s = true.
Proof.
  intros H. apply startsWith_includes in H.
  destruct (includes_drop p n s) as [E | E]; congruence.
Qed.

Lemma pattern_sound p s id :
  In p patterns -> p s = Some id ->
  isValidVideoId id = true
  /\ exists literal,
       startsWith "youtu" literal = true
       /\ startsWith (literal ++ id) s = true.
Proof.
  intros [<- | [<- | []]].
  - unfold watchPattern.
    destruct (alternative "youtube.com/watch?v=" s) eqn:E1.
    { intros [= <-]. apply alternative_sound in E1.
      split; [tauto|]. now exists "youtube.com/watch?v=". }
    destruct (alternative "youtu.be/" s) eqn:E2.
    { intros [= <-]. apply alternative_sound in E2.
      split; [tauto|]. now exists "youtu.be/". }
    intros E3. apply alternative_sound in E3.
    split; [tauto|]. now exists "youtube.com/embed/".
  - unfold vPattern. intros E. apply alternative_sound in E.
    split; [tauto|]. now exists "youtube.com/v/".
Qed.

Lemma firstOf_sound ps url id :
  firstOf ps url = Some id ->
  exists p n, In p ps /\ p (drop n url) = Some id.
Proof.
  induction ps as [|p ps IH]; simpl; [discriminate|].
  destruct (JsVarParser.firstMatch p url) as [g|] eqn:E.
  - intros [= <-]. apply firstMatch_sound in E. destruct E as [n Hn].
    exists p, n. split; [now left | exact Hn].
  - intros H. destruct (IH H) as (q & n & Hq & Hn).
    exists q, n. split; [now right | exact Hn].
Qed.

Lemma extractVideoId_sound url id :
  extractVideoId url = Some id ->
  isValidVideoId id = true /\ includes id url = true
  /\ includes "youtu" url = true.
Proof.
  intros H. apply firstOf_sound in H. destruct H as (p & n & Hp & H).
  destruct (pattern_sound p _ id Hp H) as (Hv & literal & Hy & Hs).
  split; [exact Hv|]. split.
  - apply includes_of_drop in Hs. now apply includes_pattern_suffix in Hs.
  - apply startsWith_app_l in Hs. apply startsWith_inv in Hy.
    rewrite Hy in Hs. apply startsWith_app_l in Hs.
    now apply includes_of_drop in Hs.
Qed.

(** X1: whatever [extractVideoId] returns passes [isValidVideoId] and
    stands in the URL, which holds the text [youtu]. *)
Theorem extractVideoId_valid url id :
  extractVideoId url = Some id ->
  isValidVideoId id = true /\ includes id url = true
  /\ includes "youtu" url = true.
Proof. apply extractVideoId_sound. Qed.

Lemma extractVideoId_valid_witness :
  isValidVideoId "dQw4w9WgXcQ" = true
  /\ includes "dQw4w9WgXcQ" "see https://youtu.be/dQw4w9WgXcQ?t=42" = true
  /\ includes "youtu" "see https://youtu.be/dQw4w9WgXcQ?t=42" = true.
Proof.
  apply (extractVideoId_valid "see https://youtu.be/dQw4w9WgXcQ?t=42").
  reflexivity.
Defined.

(** X2: a URL without the text [youtu] yields [null]. *)
Theorem extractVideoId_none url :
  includes "youtu" url = false -> extractVideoId url = None.
Proof.
  intros H. destruct (extractVideoId url) as [id|] eqn:E; [|reflexivity].
  apply extractVideoId_sound in E. destruct E as (_ & _ & E). congruence.
Qed.

Lemma extractVideoId_none_witness :
  extractVideoId "https://vimeo.com/watch?v=dQw4w9WgXcQ" = None.
Proof. apply extractVideoId_none. reflexivity. Defined.

Ltac pass_char := rewrite firstMatch_cons by reflexivity.

Lemma alternative_length literal s id :
  alternative literal s = Some id ->
  String.length literal + 11 <= String.length s.
Proof.
  intros H. apply alternative_sound in H. destruct H as [Hv Hs].
  apply startsWith_inv in Hs. apply (f_equal String.length) in Hs.
  rewrite !append_length in Hs. apply valid_length in Hv. lia.
Qed.

Lemma watchPattern_length s id :
  watchPattern s = Some id -> 20 <= String.length s.
Proof.
  unfold watchPattern.
  destruct (alternative "youtube.com/watch?v=" s) eqn:E1.
  { intros _. apply alternative_length in E1. simpl in E1. lia. }
  destruct (alternative "youtu.be/" s) eqn:E2.
  { intros _. apply alternative_length in E2. simpl in E2. lia. }
  intros E3. apply alternative_length in E3. simpl in E3. lia.
Qed.

Lemma drop_length n : forall s, String.length (drop n s) <= String.length s.
Proof.
  induction n as [|n IH]; intros [|c s]; simpl; try lia.
  specialize (IH s). lia.
Qed.

Lemma watchPattern_watch id rest :
  isValidVideoId id = true ->
  watchPattern ("youtube.com/watch?v=" ++ id ++ rest) = Some id.
Proof. intros H. unfold watchPattern. now rewrite alternative_app. Qed.

Lemma watchPattern_short id rest :
  isValidVideoId id = true ->
  watchPattern ("youtu.be/" ++ id ++ rest) = Some id.
Proof.
  intros H. unfold watchPattern.
  replace (alternative "youtube.com/watch?v=" _) with (@None string)
    by reflexivity.
  now rewrite alternative_app.
Qed.

Lemma watchPattern_embed id rest :
  isValidVideoId id = true ->
  watchPattern ("youtube.com/embed/" ++ id ++ rest) = Some id.
Proof.
  intros H. unfold watchPattern.
  replace (alternative "youtube.com/watch?v=" _) with (@None string)
    by reflexivity.
  replace (alternative "youtu.be/" _) with (@None string) by reflexivity.
  now rewrite alternative_app.
Qed.

Lemma vPattern_v id rest :
  isValidVideoId id = true ->
  vPattern ("youtube.com/v/" ++ id ++ rest) = Some id.
Proof. intros H. unfold vPattern. now rewrite alternative_app. Qed.

Lemma extractVideoId_watch id rest :
  isValidVideoId id = true ->
  extractVideoId ("https://www.youtube.com/watch?v=" ++ id ++ rest) = Some id.
Proof.
  intros H. unfold extractVideoId, patterns, firstOf.
  cbn [append]. repeat pass_char.
  rewrite (firstMatch_here watchPattern _ id); [reflexivity|].
  now apply (watchPattern_watch id rest).
Qed.

(** X3: for a valid id, each of the three address forms of the first
    pattern gives the id back, whatever follows the id in the URL,
    further id characters included; the fourth form gives it back when
    the id ends the URL. *)
Theorem extractVideoId_round_trip id rest :
  isValidVideoId id = true ->
  extractVideoId ("https://www.youtube.com/watch?v=" ++ id ++ rest) = Some id
  /\ extractVideoId ("https://youtu.be/" ++ id ++ rest) = Some id
  /\ extractVideoId ("https://www.youtube.com/embed/" ++ id ++ rest) = Some id
  /\ extractVideoId ("https://www.youtube.com/v/" ++ id) = Some id.
Proof.
  intros H. split; [now apply extractVideoId_watch|].
  unfold extractVideoId, patterns, firstOf.
  repeat split.
  - cbn [append]. repeat pass_char.
    rewrite (firstMatch_here watchPattern _ id); [reflexivity|].
    now apply (watchPattern_short id rest).
  - cbn [append]. repeat pass_char.
    rewrite (firstMatch_here watchPattern _ id); [reflexivity|].
    now apply (watchPattern_embed id rest).
  - cbn [append]. repeat pass_char.
    rewrite (firstMatch_none watchPattern id).
    + rewrite (firstMatch_here vPattern _ id); [reflexivity|].
      rewrite <- (append_nil_r id) at 1.
      now apply (vPattern_v id "").
    + intros n.
      destruct (watchPattern (drop n id)) as [g|] eqn:E; [|reflexivity].
      apply watchPattern_length in E.
      pose proof (drop_length n id). apply valid_length in H. lia.
Qed.

Lemma extractVideoId_round_trip_witness :
  extractVideoId "https://www.youtube.com/watch?v=dQw4w9WgXcQ&t=42s"
  = Some "dQw4w9WgXcQ".
Proof.
  exact (proj1 (extractVideoId_round_trip "dQw4w9WgXcQ" "&t=42s" eq_refl)).
Defined.

Lemma valid_noDollar id : allIdChars id = true -> Wording.noDollar id = true.
Proof.
  induction id as [|c id IH]; simpl; [reflexivity|].
  intros H. apply andb_true_iff in H. destruct H as [Hc H].
  rewrite (IH H), andb_true_r.
  destruct (Ascii.eqb c "$") eqn:E; [|reflexivity].
  apply Ascii.eqb_eq in E. subst c. discriminate Hc.
Qed.

(** X4: for a valid id the address that [fetchVideoPage] requests is
    the watch address with the id at its end, and [extractVideoId]
    reads the id back from it. *)
Theorem watchUrl_round_trip id :
  isValidVideoId id = true ->
  watchUrl id = "https://www.youtube.com/watch?v=" ++ id
  /\ extractVideoId (watchUrl id) = Some id.
Proof.
  intros H.
  assert (E : watchUrl id = "https://www.youtube.com/watch?v=" ++ id ++ "").
  { unfold watchUrl, JsLib.replace, WATCH_URL. cbn [indexOf startsWith].
    simpl.
    rewrite DecoderFacts.getSubstitution_literal
      by (apply valid_noDollar, valid_chars, H).
    reflexivity. }
  rewrite E. split; [now rewrite append_nil_r|].
  exact (extractVideoId_watch id "" H).
Qed.

Lemma watchUrl_round_trip_witness :
  watchUrl "dQw4w9WgXcQ" = "https://www.youtube.com/watch?v=dQw4w9WgXcQ"
  /\ extractVideoId (watchUrl "dQw4w9WgXcQ") = Some "dQw4w9WgXcQ".
Proof. apply watchUrl_round_trip. reflexivity. Defined.

End ApiFacts.

(* ================================================================== *)
(** * Properties of the error messages *)
(* ================================================================== *)

Module ErrorFacts.
Import Js Errors StringFacts.

Lemma append_inv_head (x y z : string) : x ++ y = x ++ z -> y = z.
Proof.
  induction x as [|c x IH]; simpl; [easy|]. intros [= H]. now apply IH.
Qed.

Lemma includes_refl p : includes p p = true.
Proof.
  apply startsWith_includes. rewrite <- (append_nil_r p) at 2.
  apply startsWith_app.
Qed.

Lemma fold_shape l : forall a,
  exists t, fold_left addSubReason l a = a ++ t.
Proof.
  induction l as [|x l IH]; intros a; simpl.
  - exists "". now rewrite append_nil_r.
  - destruct (IH (addSubReason a x)) as [t Ht]. rewrite Ht.
    unfold addSubReason. exists ((" - " ++ x ++ nl) ++ t).
    now rewrite !append_assoc.
Qed.

Lemma fold_includes p l a :
  includes p a = true -> includes p (fold_left addSubReason l a) = true.
Proof.
  intros H. destruct (fold_shape l a) as [t ->]. now apply includes_app_l.
Qed.

Lemma fold_lists s l : In s l -> forall a,
  includes (" - " ++ s ++ nl) (fold_left addSubReason l a) = true.
Proof.
  induction l as [|x l IH]; intros Hs a; [destruct Hs|].
  destruct Hs as [-> | Hs]; simpl.
  - apply fold_includes. unfold addSubReason.
    apply includes_app_r, includes_refl.
  - now apply IH.
Qed.

(** Every cause begins with the constant text of its reason. *)
Lemma cause_shape r d : exists t, cause r d = causePrefix r ++ t.
Proof.
  destruct r; cbn [cause causePrefix];
    try (exists ""; now rewrite append_nil_r).
  - destruct (field ReasonData.transcriptData d).
    + eexists. rewrite !append_assoc.
      change "No transcripts were found for any of the requested language codes: "
        with ("No transcripts were found"
              ++ " for any of the requested language codes: ").
      rewrite append_assoc. reflexivity.
    + eexists.
      change "No transcripts were found for any of the requested language codes: "
        with ("No transcripts were found"
              ++ " for any of the requested language codes: ").
      rewrite append_assoc. reflexivity.
  - change "The video is unplayable for the following reason: "
      with ("The video is unplayable" ++ " for the following reason: ").
    destruct (field ReasonData.subReasons d) as [[|x l]|].
    + eexists. rewrite append_assoc. reflexivity.
    + destruct (fold_shape (x :: l)
        ((("The video is unplayable" ++ " for the following reason: ")
          ++ orDefault (field ReasonData.reason d) "No reason specified!")
         ++ nl ++ nl ++ "Additional Details:" ++ nl)) as [t ->].
      eexists. rewrite !append_assoc. reflexivity.
    + eexists. rewrite append_assoc. reflexivity.
  - eexists.
    change "The requested transcript cannot be translated: "
      with ("The requested transcript" ++ " cannot be translated: ").
    rewrite append_assoc. reflexivity.
  - eexists.
    change "The requested translation language is not available: "
      with ("The requested translation" ++ " language is not available: ").
    rewrite append_assoc. reflexivity.
  - eexists.
    change "The request to YouTube failed: "
      with ("The request to" ++ " YouTube failed: ").
    rewrite append_assoc. reflexivity.
Qed.

(** The constant texts of two different reasons part ways before either
    ends. *)
Lemma causePrefix_apart r1 r2 t1 t2 :
  causePrefix r1 ++ t1 = causePrefix r2 ++ t2 -> r1 = r2.
Proof.
  destruct r1, r2; try reflexivity; intros H; exfalso;
    vm_compute in H; discriminate H.
Qed.

(** X5: for one video id the message tells the reason: two errors with
    the same message have the same reason, whatever their data, and an
    error without a reason is told from every error with one. *)
Theorem message_tells_reason v r1 d1 r2 d2 :
  buildErrorMessage v r1 d1 = buildErrorMessage v r2 d2 -> r1 = r2.
Proof.
  unfold buildErrorMessage. destruct r1 as [r1|], r2 as [r2|]; intros H.
  - apply append_inv_head, append_inv_head in H.
    destruct (cause_shape r1 d1) as [t1 E1], (cause_shape r2 d2) as [t2 E2].
    rewrite E1, E2 in H. f_equal. exact (causePrefix_apart _ _ _ _ H).
  - apply (f_equal String.length) in H. rewrite append_length in H.
    simpl in H. lia.
  - apply (f_equal String.length) in H. rewrite append_length in H.
    simpl in H. lia.
  - reflexivity.
Qed.

Lemma message_tells_reason_witness :
  Some YouTubeRequestFailed = Some YouTubeRequestFailed.
Proof.
  apply (message_tells_reason "dQw4w9WgXcQ"
           (Some YouTubeRequestFailed) (withDetails "")
           (Some YouTubeRequestFailed) None).
  reflexivity.
Defined.

Lemma unplayable_shows v reason subReasons :
  (forall s, In s subReasons ->
     includes (" - " ++ s ++ nl)
       (message (videoUnplayable v reason (Some subReasons))) = true)
  /\ (forall r, reason = Some r ->
        includes r (message (videoUnplayable v reason (Some subReasons)))
        = true).
Proof.
  split.
  - intros s Hs. cbn [message videoUnplayable new]. unfold buildErrorMessage.
    apply includes_app_r, includes_app_r. cbn [cause field ReasonData.subReasons].
    destruct subReasons as [|x l]; [destruct Hs|]. now apply fold_lists.
  - intros r ->. cbn [message videoUnplayable new]. unfold buildErrorMessage.
    apply includes_app_r, includes_app_r.
    cbn [cause field ReasonData.subReasons ReasonData.reason].
    assert (E : includes r
      ("The video is unplayable for the following reason: "
       ++ orDefault (Some r) "No reason specified!") = true).
    { destruct r as [|c r].
      - apply startsWith_includes. reflexivity.
      - apply includes_app_r, includes_refl. }
    destruct subReasons as [|x l]; [exact E|].
    apply fold_includes. now apply includes_app_l.
Qed.

(** X6: the message of an unplayable video shows every sub-reason on a
    line of its own, and the reason when one is given. *)
Theorem unplayable_message_lists v reason subReasons :
  (forall s, In s subReasons ->
     includes (" - " ++ s ++ nl)
       (message (videoUnplayable v reason (Some subReasons))) = true)
  /\ (forall r, reason = Some r ->
        includes r (message (videoUnplayable v reason (Some subReasons)))
        = true).
Proof. apply unplayable_shows. Qed.

Lemma unplayable_message_lists_witness :
  includes (" - " ++ "Sign in to confirm your age" ++ nl)
    (message (videoUnplayable "dQw4w9WgXcQ" (Some "Private video")
                (Some ["Sign in to confirm your age"]))) = true.
Proof.
  apply (proj1 (unplayable_message_lists "dQw4w9WgXcQ"
                  (Some "Private video")
                  ["Sign in to confirm your age"])).
  now left.
Defined.

(** X7: data that carries nothing changes no message: empty strings and
    empty lists read as missing ones. *)
Theorem blank_data_as_missing v r d :
  blank d = true ->
  buildErrorMessage v r (Some d) = buildErrorMessage v r None.
Proof.
  destruct d as [codes shown reason subs details]. unfold blank. simpl.
  intros H. repeat (apply andb_true_iff in H; destruct H as [H ?]).
  destruct r as [r|]; [|reflexivity]. simpl. f_equal. f_equal.
  destruct shown; [discriminate|].
  destruct codes as [[|? ?]|]; try discriminate;
  destruct reason as [[|? ?]|]; try discriminate;
  destruct subs as [[|? ?]|]; try discriminate;
  destruct details as [[|? ?]|]; try discriminate;
  destruct r; reflexivity.
Qed.

Lemma blank_data_as_missing_witness :
  buildErrorMessage "dQw4w9WgXcQ" (Some VideoUnplayable)
    (Some {| ReasonData.requestedLanguageCodes := Some [];
             ReasonData.transcriptData := None;
             ReasonData.reason := Some "";
             ReasonData.subReasons := Some [];
             ReasonData.details := Some "" |})
  = buildErrorMessage "dQw4w9WgXcQ" (Some VideoUnplayable) None.
Proof. apply blank_data_as_missing. reflexivity. Defined.

End ErrorFacts.

(* ================================================================== *)
(** * Properties of the captions extractor and of the playability check *)
(* ================================================================== *)

Module CaptionsFacts.
Import Js CaptionsExtractor.

Lemma falsy_false v : falsy v = false -> exists x, v = Some x /\ truthy x = true.
Proof.
  destruct v as [x|]; simpl; [|discriminate].
  intros H. exists x. split; [reflexivity|]. now destruct (truthy x).
Qed.

Lemma prop_some key v x :
  prop key v = Some x ->
  exists members, v = Some (JObject members)
                  /\ member (codeUnits key) members = Some x.
Proof.
  destruct v as [[| | | | |members]|]; simpl; try discriminate.
  intros H. now exists members.
Qed.

Lemma extractCaptionsData_error playerResponse videoId e :
  extractCaptionsData playerResponse videoId = Err e ->
  e = Errors.transcriptsDisabled videoId.
Proof.
  unfold extractCaptionsData.
  destruct (falsy (prop "captions" playerResponse)); [now intros [= <-]|].
  destruct (falsy (prop "playerCaptionsTracklistRenderer"
                     (prop "captions" playerResponse)));
    [now intros [= <-]|].
  destruct (prop "playerCaptionsTracklistRenderer"
              (prop "captions" playerResponse));
    [discriminate | now intros [= <-]].
Qed.

(** X8: [extractCaptionsData] returns exactly when the player response
    is an object whose [captions] is an object whose
    [playerCaptionsTracklistRenderer] is truthy, and then returns that
    renderer; in every other case, a [captions] that is a string, a
    number or an array included, it throws "transcripts disabled" for
    the caller's video id. *)
Theorem extractCaptionsData_spec playerResponse videoId :
  (forall r,
     extractCaptionsData playerResponse videoId = Ok r <->
     exists members captions,
       playerResponse = Some (JObject members)
       /\ member (codeUnits "captions") members = Some (JObject captions)
       /\ member (codeUnits "playerCaptionsTracklistRenderer") captions
          = Some r
       /\ truthy r = true)
  /\ (forall e,
        extractCaptionsData playerResponse videoId = Err e ->
        e = Errors.transcriptsDisabled videoId).
Proof.
  split.
  - intros r. unfold extractCaptionsData. split.
    + destruct (falsy (prop "captions" playerResponse)) eqn:Fc;
        [discriminate|].
      destruct (falsy (prop "playerCaptionsTracklistRenderer"
                         (prop "captions" playerResponse))) eqn:Fr;
        [discriminate|].
      apply falsy_false in Fr. destruct Fr as (x & Ex & Tx).
      rewrite Ex. intros [= <-].
      apply prop_some in Ex. destruct Ex as (captions & Ec & Er).
      apply prop_some in Ec. destruct Ec as (members & Ep & Ec).
      now exists members, captions.
    + intros (members & captions & -> & Ec & Er & Tr).
      cbn [prop]. rewrite Ec. cbn [falsy truthy negb prop].
      rewrite Er. cbn [falsy]. now rewrite Tr.
  - intros e. apply extractCaptionsData_error.
Qed.

(** X9: read from a page, the captions data fail in two ways only, both
    about the caller's video id and without data: the player response
    could not be parsed, or it was parsed and shows no captions. *)
Theorem captionsData_errors JSON_parse html videoId e :
  captionsData JSON_parse html videoId = Err e ->
  (e = Errors.youTubeDataUnparsable videoId
   /\ JsVarParser.parse JSON_parse "ytInitialPlayerResponse" html videoId
      = Err (youTubeDataUnparsable videoId))
  \/ (e = Errors.transcriptsDisabled videoId
      /\ exists playerResponse,
           JsVarParser.parse JSON_parse "ytInitialPlayerResponse" html videoId
           = Ok playerResponse
           /\ extractCaptionsData (Some playerResponse) videoId = Err e).
Proof.
  unfold captionsData.
  destruct (JsVarParser.parse JSON_parse "ytInitialPlayerResponse" html videoId)
    as [playerResponse | e0] eqn:E.
  - intros H. right. split.
    + exact (extractCaptionsData_error _ _ e H).
    + now exists playerResponse.
  - intros [= <-]. left.
    apply ExtractorFacts.parse_error in E. subst e0. now split.
Qed.

Lemma captionsData_errors_witness :
  (Errors.youTubeDataUnparsable "dQw4w9WgXcQ"
   = Errors.youTubeDataUnparsable "dQw4w9WgXcQ"
   /\ JsVarParser.parse Json.parse "ytInitialPlayerResponse"
        "<html></html>" "dQw4w9WgXcQ"
      = Err (youTubeDataUnparsable "dQw4w9WgXcQ"))
  \/ (Errors.youTubeDataUnparsable "dQw4w9WgXcQ"
      = Errors.transcriptsDisabled "dQw4w9WgXcQ"
      /\ exists playerResponse,
           JsVarParser.parse Json.parse "ytInitialPlayerResponse"
             "<html></html>" "dQw4w9WgXcQ"
           = Ok playerResponse
           /\ extractCaptionsData (Some playerResponse) "dQw4w9WgXcQ"
              = Err (Errors.youTubeDataUnparsable "dQw4w9WgXcQ")).
Proof.
  apply (captionsData_errors Json.parse "<html></html>" "dQw4w9WgXcQ").
  reflexivity.
Defined.

End CaptionsFacts.

Module InnerTubeFacts.
Import Js InnerTube.

Lemma push_in x l s :
  In s (push x l) <->
  In s l \/ (s <> "" /\ exists t, x = Some t /\ simpleText t = Some s).
Proof.
  unfold push. destruct x as [[[[|c r]|]]|].
  - split; [now left|]. intros [H | (Hs & t & [= <-] & [= <-])]; easy.
  - rewrite in_app_iff. simpl. split.
    + intros [H | [<- | []]]; [now left|]. right. split; [discriminate|].
      now eexists.
    + intros [H | (Hs & t & [= <-] & [= <-])]; [now left | right; now left].
  - split; [now left|]. intros [H | (Hs & t & [= <-] & [=])]; easy.
  - split; [now left|]. intros [H | (Hs & t & [=] & _)]; easy.
Qed.

(** X10: the playability check returns exactly on the status [OK]; a
    transcript error it throws is about the caller's video id and says
    unplayable, age-restricted or unavailable; the one other thing it
    throws is the [TypeError] of the missing [PoTokenRequired] class,
    exactly on the status [ERROR] with a reason that names a PO token
    or a proof of origin, in any letter case. *)
Theorem handlePlayabilityStatus_spec videoId playabilityStatus :
  (handlePlayabilityStatus videoId playabilityStatus = None
   <-> status playabilityStatus = "OK")
  /\ (forall e,
        handlePlayabilityStatus videoId playabilityStatus
        = Some (Transcript e) ->
        Errors.videoId e = videoId
        /\ In (Errors.reason e)
              [Some VideoUnplayable; Some AgeRestricted;
               Some VideoUnavailable])
  /\ (handlePlayabilityStatus videoId playabilityStatus = Some TypeError
      <-> status playabilityStatus = "ERROR"
          /\ exists errorMessage,
           reason playabilityStatus = Some errorMessage
           /\ (includes "po token" (toLowerCase errorMessage) = true
               \/ includes "proof of origin" (toLowerCase errorMessage)
                  = true)).
Proof.
  unfold handlePlayabilityStatus. split; [|split].
  - destruct (String.eqb_spec (status playabilityStatus) "OK") as [E | E].
    + now split.
    + split; [|intros H; contradiction].
      repeat match goal with
             | |- context [if ?b then _ else _] => destruct b
             end; discriminate.
  - intros e.
    repeat match goal with
           | |- context [if ?b then _ else _] => destruct b
           end; try discriminate; intros [= <-];
      (split; [reflexivity|]); simpl; tauto.
  - split.
    2:{ intros (-> & errorMessage & -> & H). cbn [String.eqb Ascii.eqb Bool.eqb
                                                   andb].
        destruct errorMessage as [|c r];
          [destruct H as [H | H]; discriminate H|].
        cbn [Errors.orDefault]. apply orb_true_iff in H. now rewrite H. }
    destruct (String.eqb (status playabilityStatus) "OK"); [discriminate|].
    destruct (String.eqb (status playabilityStatus) "UNPLAYABLE");
      [discriminate|].
    destruct (String.eqb (status playabilityStatus) "LOGIN_REQUIRED");
      [discriminate|].
    destruct (String.eqb_spec (status playabilityStatus) "ERROR") as [E | E].
    + destruct (reason playabilityStatus) as [[|c r]|];
        try (cbn; discriminate).
      cbn [Errors.orDefault].
      destruct (includes "po token" (toLowerCase (String c r))) eqn:E1.
      * intros _. split; [exact E|]. exists (String c r). now split; [|left].
      * destruct (includes "proof of origin" (toLowerCase (String c r)))
          eqn:E2; [|discriminate].
        intros _. split; [exact E|]. exists (String c r).
        now split; [|right].
    + destruct (String.eqb (status playabilityStatus)
                  "CONTENT_CHECK_REQUIRED"); discriminate.
Qed.

(** X11: for the status [UNPLAYABLE] the thrown error says unplayable,
    and its message shows the reason YouTube gave, or the words
    [Video is unplayable] when it gave none, followed by a line for the
    text of the error screen's reason and one for its sub-reason. *)
Theorem unplayable_message videoId playabilityStatus :
  status playabilityStatus = "UNPLAYABLE" ->
  exists e,
    handlePlayabilityStatus videoId playabilityStatus = Some (Transcript e)
    /\ Errors.reason e = Some VideoUnplayable
    /\ includes (Errors.orDefault (reason playabilityStatus)
                   "Video is unplayable")
         (Errors.message e) = true
    /\ forall errorRenderer x s,
         errorScreen playabilityStatus
         = Some {| playerErrorMessageRenderer := Some errorRenderer |} ->
         x = Renderer.reason errorRenderer
         \/ x = Renderer.subreason errorRenderer ->
         x = Some {| simpleText := Some s |} -> s <> "" ->
         includes (" - " ++ s ++ Errors.nl) (Errors.message e) = true.
Proof.
  intros E. unfold handlePlayabilityStatus. rewrite E.
  cbn [String.eqb Ascii.eqb Bool.eqb].
  eexists. split; [reflexivity|]. split; [reflexivity|]. split.
  - apply (proj2 (ErrorFacts.unplayable_shows _ _ _)). reflexivity.
  - intros errorRenderer x s Es Hx Ex Hs.
    apply (proj1 (ErrorFacts.unplayable_shows _ _ _)).
    rewrite Es. cbn [subReasonsOf].
    rewrite push_in. destruct Hx as [-> | ->].
    + left. rewrite push_in. right. split; [exact Hs|].
      exists {| simpleText := Some s |}. now split.
    + right. split; [exact Hs|].
      exists {| simpleText := Some s |}. now split.
Qed.

Lemma unplayable_message_witness :
  exists e,
    handlePlayabilityStatus "dQw4w9WgXcQ" Responses.privateVideo
    = Some (Transcript e)
    /\ Errors.reason e = Some VideoUnplayable
    /\ includes "Private video" (Errors.message e) = true
    /\ forall errorRenderer x s,
         errorScreen Responses.privateVideo
         = Some {| playerErrorMessageRenderer := Some errorRenderer |} ->
         x = Renderer.reason errorRenderer
         \/ x = Renderer.subreason errorRenderer ->
         x = Some {| simpleText := Some s |} -> s <> "" ->
         includes (" - " ++ s ++ Errors.nl) (Errors.message e) = true.
Proof.
  apply (unplayable_message "dQw4w9WgXcQ" Responses.privateVideo).
  reflexivity.
Defined.

End InnerTubeFacts.

(* ================================================================== *)
(** * Further properties of the caption decoder *)
(* ================================================================== *)

Module TextFacts.
Import Js JsLib Dom TranscriptParser Wording Shape StringFacts DecoderFacts.

(** ** The clean-up of white space *)

Lemma collapse_blanksOnly s : forall inRun,
  blanksOnly (collapseSpaces inRun s) = true.
Proof.
  induction s as [|c s IH]; intros inRun; simpl; [reflexivity|].
  destruct (isSpace c) eqn:E.
  - destruct inRun; [apply IH|]. simpl. apply IH.
  - simpl. rewrite E. simpl. apply IH.
Qed.

Lemma trimStart_blanksOnly s :
  blanksOnly s = true -> blanksOnly (trimStart s) = true.
Proof.
  induction s as [|c s IH]; simpl; [easy|]. intros H.
  apply andb_true_iff in H. destruct H as [Hc H].
  destruct (isSpace c) eqn:E; [now apply IH|].
  simpl. rewrite E. simpl. exact H.
Qed.

Lemma trimEnd_blanksOnly s :
  blanksOnly s = true -> blanksOnly (trimEnd s) = true.
Proof.
  induction s as [|c s IH]; [easy|]. intros H.
  change (blanksOnly (String c s))
    with ((negb (isSpace c) || Ascii.eqb c " ") && blanksOnly s) in H.
  apply andb_true_iff in H. destruct H as [Hc H]. specialize (IH H).
  simpl. destruct (trimEnd s) as [|d t].
  - destruct (isSpace c) eqn:E; [reflexivity|].
    simpl. rewrite E. reflexivity.
  - change (blanksOnly (String c (String d t)))
      with ((negb (isSpace c) || Ascii.eqb c " ")
            && blanksOnly (String d t)).
    now rewrite Hc, IH.
Qed.

(** On a text whose white space is single blanks, collapsing changes
    nothing. *)
Lemma collapse_fixed s :
  blanksOnly s = true -> hasSpaceRun s = false ->
  collapseSpaces false s = s
  /\ (startsWithSpace s = false -> collapseSpaces true s = s).
Proof.
  induction s as [|c s IH]; [now split|]. intros Hb Hr.
  change (blanksOnly (String c s))
    with ((negb (isSpace c) || Ascii.eqb c " ") && blanksOnly s) in Hb.
  apply andb_true_iff in Hb. destruct Hb as [Hc Hb].
  pose proof (hasSpaceRun_tail _ _ Hr) as Hr'.
  destruct (IH Hb Hr') as [IH0 IH1].
  simpl. destruct (isSpace c) eqn:E.
  - simpl in Hc. apply Ascii.eqb_eq in Hc. subst c. split.
    + rewrite IH1; [reflexivity|].
      destruct s as [|d s]; [reflexivity|].
      change (hasSpaceRun (String " " (String d s)))
        with ((isSpace " " && isSpace d) || hasSpaceRun (String d s)) in Hr.
      rewrite E in Hr. apply orb_false_iff in Hr. exact (proj1 Hr).
    + discriminate.
  - now rewrite IH0.
Qed.

Lemma trimStart_fixed s : startsWithSpace s = false -> trimStart s = s.
Proof. destruct s as [|c s]; simpl; [easy|]. now intros ->. Qed.

Lemma trimEnd_fixed s : endsWithSpace s = false -> trimEnd s = s.
Proof.
  induction s as [|c s IH]; [easy|]. intros H.
  destruct s as [|d s].
  - simpl in *. now rewrite H.
  - change (endsWithSpace (String c (String d s)))
      with (endsWithSpace (String d s)) in H.
    specialize (IH H).
    change (trimEnd (String c (String d s)))
      with (match trimEnd (String d s) with
            | EmptyString =>
                if isSpace c then EmptyString else String c EmptyString
            | t => String c t
            end).
    now rewrite IH.
Qed.

Lemma cleanUp_fixed s :
  trim (collapseSpaces false (trim (collapseSpaces false s)))
  = trim (collapseSpaces false s).
Proof.
  set (y := trim (collapseSpaces false s)).
  assert (Hb : blanksOnly y = true).
  { apply trimEnd_blanksOnly, trimStart_blanksOnly, collapse_blanksOnly. }
  assert (Hr : hasSpaceRun y = false).
  { apply trimEnd_run, trimStart_run, collapseSpaces_shape. }
  assert (Hs : startsWithSpace y = false).
  { apply trimEnd_head, trimStart_head. }
  assert (He : endsWithSpace y = false) by apply trimEnd_tail.
  rewrite (proj1 (collapse_fixed y Hb Hr)).
  unfold trim. rewrite (trimStart_fixed y Hs). now apply trimEnd_fixed.
Qed.

(** X12: cleaning up an emitted text once more changes nothing: the
    white-space clean-up is idempotent, and the text of every snippet
    is a fixed point of it. *)
Theorem cleanUp_idempotent cheerio this element snippet :
  (forall s,
     trim (collapseSpaces false (trim (collapseSpaces false s)))
     = trim (collapseSpaces false s))
  /\ (snippetOf cheerio this element = Some snippet ->
      trim (collapseSpaces false (text snippet)) = text snippet).
Proof.
  split; [exact cleanUp_fixed|]. intros H.
  apply DecoderFacts.snippetOf_normalised in H. destruct H as [_ ->].
  unfold renderText. apply cleanUp_fixed.
Qed.

Lemma cleanUp_idempotent_witness :
  trim (collapseSpaces false "Hello world") = "Hello world".
Proof.
  apply (proj2 (cleanUp_idempotent Mini.engine Samples.plain
                  (Element "text" [("start", "0"); ("dur", "1")]
                     [Text "  Hello   world "])
                  {| text := "Hello world";
                     start := Samples.decimal false 0 0;
                     duration := Samples.decimal false 1 0 |})).
  reflexivity.
Defined.

(** ** The manual decoding of entities *)

Lemma decodeManually_skip x : forall s,
  decodeManually (String.length x) (x ++ s) = decodeManually 0 s.
Proof. induction x as [|c x IH]; intros s; simpl; [reflexivity | apply IH]. Qed.

Lemma entities_table entity decoded :
  entities entity = Some decoded ->
  In (entity, decoded)
     [("&amp;", "&"); ("&lt;", "<"); ("&gt;", ">");
      (qq "&quot;", String dquote ""); ("&#39;", "'"); ("&apos;", "'")].
Proof.
  unfold entities.
  repeat match goal with
         | |- context [String.eqb entity ?e] =>
             destruct (String.eqb_spec entity e) as [-> | _];
             [intros [= <-]; simpl; tauto|]
         end.
  discriminate.
Qed.

Lemma decodeManually_plain s :
  includes "&" s = false -> decodeManually 0 s = s.
Proof.
  induction s as [|c s IH]; [reflexivity|]. intros H.
  pose proof (includes_false_startsWith _ _ H) as Hs.
  pose proof (includes_false_tail _ _ _ H) as Ht.
  change (startsWith "&" (String c s)) with (Ascii.eqb "&" c && true) in Hs.
  rewrite andb_true_r in Hs.
  cbn [decodeManually]. rewrite Ascii.eqb_sym, Hs. now rewrite (IH Ht).
Qed.

(** X13: the manual decoding is one pass: an entity of the table at the
    head of a text is replaced and the decoding goes on after it, so
    that what a replacement and the following text spell together is
    not decoded again; a text without an ampersand is left as it is. *)
Theorem decodeManually_one_pass :
  (forall entity decoded s,
     entities entity = Some decoded ->
     decodeManually 0 (entity ++ s) = decoded ++ decodeManually 0 s)
  /\ (forall s, includes "&" s = false -> decodeManually 0 s = s)
  /\ decodeManually 0 "&amp;lt;" = "&lt;".
Proof.
  split; [|split; [exact decodeManually_plain | reflexivity]].
  intros entity decoded s H. apply entities_table in H.
  simpl in H.
  repeat (destruct H as [[= <- <-] | H];
          [cbn [append]; simpl; reflexivity|]).
  destruct H.
Qed.

(** ** The outcome of [parse] *)

Lemma collect_length cheerio this elements :
  List.length (collect cheerio this elements) <= List.length elements.
Proof.
  induction elements as [|e l IH]; simpl; [lia|].
  destruct (snippetOf cheerio this e); simpl; lia.
Qed.

Lemma snippetOf_timed cheerio this element snippet :
  snippetOf cheerio this element = Some snippet ->
  isNaN (start snippet) = false /\ isNaN (duration snippet) = false.
Proof.
  unfold snippetOf.
  destruct (missing _ || missing _); [discriminate|].
  destruct (isNaN (parseFloat (valueOf (attr "start" (attribsOf element)))))
    eqn:E1; [discriminate|].
  destruct (isNaN (parseFloat (valueOf (attr "dur" (attribsOf element)))))
    eqn:E2; [discriminate|].
  simpl. destruct (renderText cheerio this (childrenOf element));
    [discriminate|].
  intros [= <-]. simpl. now split.
Qed.

Lemma collect_timed cheerio this elements :
  Forall (fun snippet => isNaN (start snippet) = false
                         /\ isNaN (duration snippet) = false)
         (collect cheerio this elements).
Proof.
  induction elements as [|e l IH]; simpl; [constructor|].
  destruct (snippetOf cheerio this e) eqn:E; [|exact IH].
  constructor; [|exact IH]. now apply snippetOf_timed in E.
Qed.

(** X14: whether [parse] fails, and with which message, does not depend
    on the configuration of the decoder: formatting mode and link
    template decide on texts only. *)
Theorem parse_failure_ignores_config cheerio this1 this2 rawData message :
  parse cheerio this1 rawData = Err message
  <-> parse cheerio this2 rawData = Err message.
Proof.
  unfold parse.
  destruct (negb (includes "<transcript" rawData)
            || negb (includes "</transcript>" rawData)); [reflexivity|].
  destruct (negb (countOpenTags 0 rawData
                  =? countLiteral "</text>" 0 rawData)%nat); [reflexivity|].
  destruct (select (isTag "transcript") (loadXml cheerio rawData));
    [reflexivity|].
  split; discriminate.
Qed.

(** X15: a successful [parse] gives at most one snippet for each [text]
    element of the document, and no snippet whose start or duration is
    [NaN]. *)
Theorem parse_ok_bounds cheerio this rawData snippets :
  parse cheerio this rawData = Ok snippets ->
  List.length snippets
  <= List.length (select (isTag "text") (loadXml cheerio rawData))
  /\ Forall (fun snippet => isNaN (start snippet) = false
                            /\ isNaN (duration snippet) = false)
            snippets.
Proof.
  intros H. apply parse_ok in H. subst snippets.
  split; [apply collect_length | apply collect_timed].
Qed.

Lemma parse_ok_bounds_witness :
  List.length [Samples.at0 "ok"]
  <= List.length (select (isTag "text")
                    (loadXml Mini.engine (Samples.segment "ok")))
  /\ Forall (fun snippet => isNaN (start snippet) = false
                            /\ isNaN (duration snippet) = false)
            [Samples.at0 "ok"].
Proof.
  apply (parse_ok_bounds Mini.engine Samples.plain (Samples.segment "ok")).
  reflexivity.
Defined.

(** ** The default link template *)

Lemma startsWith_url_boundary t r :
  startsWith "{url}" (t ++ String " " r) = startsWith "{url}" t.
Proof.
  destruct t as [|c1 [|c2 [|c3 [|c4 [|c5 t]]]]]; simpl;
    repeat match goal with
           | |- context [Ascii.eqb ?a ?b] => destruct (Ascii.eqb a b); simpl
           end; reflexivity.
Qed.

Lemma indexOf_url t :
  includes "{url}" t = false ->
  indexOf "{url}" (t ++ " ({url})") = Some (String.length t + 2).
Proof.
  induction t as [|c t IH]; intros H; [reflexivity|].
  pose proof (includes_false_startsWith _ _ H) as Hs.
  pose proof (includes_false_tail _ _ _ H) as Ht.
  change (indexOf "{url}" (String c t ++ " ({url})"))
    with (if startsWith "{url}" (String c t ++ " ({url})") then Some 0
          else option_map S (indexOf "{url}" (t ++ " ({url})"))).
  rewrite startsWith_url_boundary, Hs, (IH Ht). reflexivity.
Qed.

(** X16: with the default template, an anchor whose text and address
    hold no dollar sign, and whose text does not spell [{url}], is
    replaced by its text followed by its address in parentheses. *)
Theorem default_link preserveFormatting attribs children h hs :
  attr "href" attribs = Some (String h hs) ->
  textContent children <> EmptyString ->
  noDollar (textContent children) = true ->
  noDollar (String h hs) = true ->
  includes "{url}" (textContent children) = false ->
  linkReplacement (new preserveFormatting defaultLinkFormat) attribs children
  = textContent children ++ " (" ++ String h hs ++ ")".
Proof.
  intros Hh Ht Dt Dh Hu.
  rewrite (linkReplacement_literal _ _ _ h hs Hh Ht Dt Dh).
  set (t := textContent children) in *. set (u := String h hs).
  unfold formatLink, new, linkFormat, defaultLinkFormat.
  assert (E : substituteFirst "{text} ({url})" "{text}" t = t ++ " ({url})")
    by reflexivity.
  rewrite E. unfold substituteFirst. rewrite (indexOf_url t Hu).
  replace (String.length t + 2) with (String.length (t ++ " ("))
    by (rewrite append_length; reflexivity).
  replace (t ++ " ({url})") with ((t ++ " (") ++ "{url})")
    by (now rewrite append_assoc).
  rewrite take_app_length.
  replace (String.length (t ++ " (") + String.length "{url}")
    with (String.length ((t ++ " (") ++ "{url}"))
    by (now rewrite append_length).
  replace ((t ++ " (") ++ "{url})") with (((t ++ " (") ++ "{url}") ++ ")")
    by (now rewrite !append_assoc).
  rewrite drop_app_length. now rewrite !append_assoc.
Qed.

Lemma default_link_witness :
  linkReplacement (new false defaultLinkFormat)
    [("href", "https://x.test")] [Text "t"]
  = "t (https://x.test)".
Proof.
  apply (default_link false [("href", "https://x.test")] [Text "t"]
           "h" "ttps://x.test"); try reflexivity.
  discriminate.
Defined.

End TextFacts.

(* ================================================================== *)
(** * Further properties of the extractor *)
(* ================================================================== *)

Module PageFacts.
Import Js JsVarParser Contract Shape StringFacts.

(** ** Occurrences *)

Lemma includes_empty s : includes "" s = true.
Proof. now destruct s. Qed.

Lemma includes_at p : forall s,
  includes p s = true -> exists n, startsWith p (drop n s) = true.
Proof.
  induction s as [|c s IH]; intros H.
  - exists 0. simpl in H. now rewrite orb_false_r in H.
  - rewrite includes_cons in H. apply orb_true_iff in H.
    destruct H as [H | H]; [now exists 0|].
    destruct (IH H) as [n Hn]. now exists (S n).
Qed.

Lemma includes_from_drop p n s :
  includes p (drop n s) = true -> includes p s = true.
Proof. intros H. destruct (includes_drop p n s); congruence. Qed.

Lemma includes_from_take p n s :
  includes p (take n s) = true -> includes p s = true.
Proof. intros H. destruct (includes_take p n s); congruence. Qed.

Lemma includes_trans a b c :
  includes a b = true -> includes b c = true -> includes a c = true.
Proof.
  intros Hab Hbc. apply includes_at in Hbc. destruct Hbc as [n Hn].
  apply startsWith_inv in Hn. apply (includes_from_drop a n).
  rewrite Hn. now apply includes_app_l.
Qed.

Lemma includes_pattern_prefix x y s :
  includes (x ++ y) s = true -> includes x s = true.
Proof.
  intros H. apply includes_at in H. destruct H as [n Hn].
  apply ApiFacts.startsWith_app_l in Hn.
  apply (includes_from_drop x n). now apply startsWith_includes.
Qed.

Lemma endsIn_snoc c x : endsIn c (x ++ String c "") = true.
Proof.
  induction x as [|d x IH]; simpl; [apply Ascii.eqb_refl|].
  destruct (x ++ String c "") eqn:E; [|exact IH].
  destruct x; discriminate.
Qed.

(** ** The parts of [split] *)

Lemma splitOn_parts sep : forall s k p,
  In p (splitOn sep k s) -> includes p s = true.
Proof.
  induction s as [|c s IH]; intros k p H.
  - destruct H as [<- | []]. reflexivity.
  - rewrite includes_cons. destruct k as [|k].
    + simpl in H. destruct (startsWith sep (String c s)).
      * destruct H as [<- | H]; [reflexivity|].
        rewrite (IH _ _ H). apply orb_true_r.
      * destruct (splitOn_head sep s) as (q & qs & rest & E & Es).
        rewrite E in H. destruct H as [<- | H].
        -- assert (Hq : startsWith (String c q) (String c s) = true).
           { cbn [startsWith]. rewrite Ascii.eqb_refl. cbn [andb].
             rewrite Es. apply startsWith_app. }
           now rewrite Hq.
        -- rewrite (IH 0 p); [apply orb_true_r|]. rewrite E. now right.
    + simpl in H. rewrite (IH _ _ H). apply orb_true_r.
Qed.

Lemma split_part sep s :
  sep <> EmptyString ->
  (List.length (split sep s) <=? 1)%nat = false ->
  includes (nth 1 (split sep s) "") s = true.
Proof.
  intros Hsep H. apply Nat.leb_gt in H.
  destruct sep as [|a sep]; [contradiction|].
  unfold split in *. apply (splitOn_parts (String a sep) s 0).
  apply nth_In. lia.
Qed.

Lemma afterMarker_part varName html afterVar :
  varName <> EmptyString ->
  afterMarker varName html = Some afterVar ->
  includes afterVar html = true.
Proof.
  intros Hn. unfold afterMarker.
  destruct (List.length (split ("var " ++ varName) html) <=? 1)%nat eqn:E1.
  - destruct (List.length (split varName html) <=? 1)%nat eqn:E2;
      [discriminate|].
    intros H. injection H as H. rewrite <- H. now apply split_part.
  - intros H. injection H as H. rewrite <- H.
    apply (split_part ("var " ++ varName) html);
      [apply ExtractorFacts.marker_nonempty | exact E1].
Qed.

(** ** What the patterns match *)

Lemma skipSpaces_part p : forall s,
  includes p (skipSpaces s) = true -> includes p s = true.
Proof.
  induction s as [|c s IH]; cbn [skipSpaces]; [easy|].
  destruct (isSpace c); [|easy]. intros H.
  rewrite includes_cons, (IH H). apply orb_true_r.
Qed.

Lemma eat_part p lit s rest :
  eat lit s = Some rest -> includes p rest = true -> includes p s = true.
Proof.
  unfold eat. destruct (startsWith lit s); [|discriminate].
  intros [= <-]. apply includes_from_drop.
Qed.

Lemma eat_includes lit s rest :
  eat lit s = Some rest -> includes lit s = true.
Proof.
  unfold eat. destruct (startsWith lit s) eqn:E; [|discriminate].
  intros _. now apply startsWith_includes.
Qed.

Lemma objectEnd_spec : forall s semi sawOpen n k,
  objectEnd semi sawOpen n s = Some k ->
  exists j, k = n + S j /\ endsIn "}" (take (S j) s) = true.
Proof.
  induction s as [|c s IH]; intros semi sawOpen n k; [discriminate|].
  cbn [objectEnd]. destruct (Ascii.eqb c "}") eqn:Ec.
  - destruct (negb semi || startsWith ";" s).
    + intros [= <-]. exists 0. split; [lia|]. simpl. exact Ec.
    + destruct sawOpen; [|discriminate]. intros H.
      destruct (IH _ _ _ _ H) as (j & -> & Hj).
      exists (S j). split; [lia|].
      change (take (S (S j)) (String c s)) with (String c (take (S j) s)).
      destruct (take (S j) s) eqn:E; [discriminate Hj | exact Hj].
  - intros H. destruct (IH _ _ _ _ H) as (j & -> & Hj).
    exists (S j). split; [lia|].
    change (take (S (S j)) (String c s)) with (String c (take (S j) s)).
    destruct (take (S j) s) eqn:E; [discriminate Hj | exact Hj].
Qed.

Lemma objectLiteral_shape semi s g :
  objectLiteral semi s = Some g ->
  includes g s = true /\ startsWith "{" g = true /\ endsIn "}" g = true.
Proof.
  unfold objectLiteral. destruct s as [|c s]; [discriminate|].
  destruct (Ascii.eqb c "{") eqn:Ec; [|discriminate].
  destruct (objectEnd semi false 1 s) as [k|] eqn:E; [|discriminate].
  intros [= <-]. apply objectEnd_spec in E. destruct E as (j & -> & Hj).
  split; [|split].
  - apply (includes_from_take _ (1 + S j)), ErrorFacts.includes_refl.
  - simpl. apply Ascii.eqb_eq in Ec. subst c. reflexivity.
  - change (take (1 + S j) (String c s)) with (String c (take (S j) s)).
    destruct (take (S j) s) eqn:E; [discriminate Hj | exact Hj].
Qed.

Lemma pattern_shape varName p s g :
  In p (patterns varName) -> p s = Some g ->
  includes g s = true /\ startsWith "{" g = true /\ endsIn "}" g = true.
Proof.
  intros [<- | [<- | [<- | []]]].
  - unfold matchVarAssign.
    destruct (eat "var" s) as [s1|] eqn:E1; [|discriminate].
    destruct s1 as [|c s1]; [discriminate|].
    destruct (isSpace c); [|discriminate].
    destruct (eat varName (skipSpaces (String c s1))) as [s2|] eqn:E2;
      [|discriminate].
    destruct (eat "=" (skipSpaces s2)) as [s3|] eqn:E3; [|discriminate].
    intros H. apply objectLiteral_shape in H. destruct H as (H & Hs).
    split; [|exact Hs].
    apply (eat_part _ _ _ _ E1), skipSpaces_part, (eat_part _ _ _ _ E2),
      skipSpaces_part, (eat_part _ _ _ _ E3), skipSpaces_part, H.
  - unfold matchAssign.
    destruct (eat varName s) as [s2|] eqn:E2; [|discriminate].
    destruct (eat "=" (skipSpaces s2)) as [s3|] eqn:E3; [|discriminate].
    intros H. apply objectLiteral_shape in H. destruct H as (H & Hs).
    split; [|exact Hs].
    apply (eat_part _ _ _ _ E2), skipSpaces_part, (eat_part _ _ _ _ E3),
      skipSpaces_part, H.
  - unfold matchProperty.
    destruct (eat (String dquote varName ++ String dquote "") s)
      as [s2|] eqn:E2; [|discriminate].
    destruct (eat ":" (skipSpaces s2)) as [s3|] eqn:E3; [|discriminate].
    intros H. apply objectLiteral_shape in H. destruct H as (H & Hs).
    split; [|exact Hs].
    apply (eat_part _ _ _ _ E2), skipSpaces_part, (eat_part _ _ _ _ E3),
      skipSpaces_part, H.
Qed.

Lemma pattern_needs_name varName p s g :
  In p (patterns varName) -> p s = Some g -> includes varName s = true.
Proof.
  intros [<- | [<- | [<- | []]]].
  - unfold matchVarAssign.
    destruct (eat "var" s) as [s1|] eqn:E1; [|discriminate].
    destruct s1 as [|c s1]; [discriminate|].
    destruct (isSpace c); [|discriminate].
    destruct (eat varName (skipSpaces (String c s1))) as [s2|] eqn:E2;
      [|discriminate].
    intros _. apply (eat_part _ _ _ _ E1), skipSpaces_part.
    exact (eat_includes _ _ _ E2).
  - unfold matchAssign.
    destruct (eat varName s) as [s2|] eqn:E2; [|discriminate].
    intros _. exact (eat_includes _ _ _ E2).
  - unfold matchProperty.
    destruct (eat (String dquote varName ++ String dquote "") s)
      as [s2|] eqn:E2; [|discriminate].
    intros _. apply eat_includes in E2.
    change (String dquote varName ++ String dquote "")
      with (String dquote "" ++ (varName ++ String dquote "")) in E2.
    apply includes_pattern_suffix, includes_pattern_prefix in E2. exact E2.
Qed.

Lemma regexMatch_at varName p html g :
  regexMatch varName p html = Some g ->
  exists n, p (drop n html) = Some g.
Proof.
  unfold regexMatch. destruct (includes "$" varName); [discriminate|].
  apply ApiFacts.firstMatch_sound.
Qed.

Lemma extracted_text_from_page_parts varName html :
  identifier varName = true ->
  (forall jsonStr,
     extractLiteral varName html = Some jsonStr ->
     includes jsonStr html = true
     /\ startsWith "{" jsonStr = true /\ endsIn "}" jsonStr = true)
  /\ (forall pattern group1,
        In pattern (patterns varName) ->
        regexMatch varName pattern html = Some group1 ->
        includes group1 html = true
        /\ startsWith "{" group1 = true /\ endsIn "}" group1 = true).
Proof.
  intros Hid. pose proof (ExtractorFacts.identifier_nonempty _ Hid) as Hn.
  split.
  - intros jsonStr H.
    destruct (ExtractorFacts.extractLiteral_shape _ _ _ Hn H)
      as (_ & pre & st & Ej & _).
    split;
      [|rewrite Ej;
        split; [reflexivity | apply (endsIn_snoc "}" (String "{" pre))]].
    rewrite ExtractorFacts.extractLiteral_afterMarker in H.
    destruct (afterMarker varName html) as [afterVar|] eqn:Ea;
      [|discriminate].
    destruct (indexOf "{" afterVar) as [startIndex|]; [|discriminate].
    destruct (findEnd startIndex afterVar) as [endIndex|]; [|discriminate].
    injection H as H. rewrite <- H.
    apply (includes_trans _ afterVar);
      [|exact (afterMarker_part _ _ _ Hn Ea)].
    unfold substring. apply (includes_from_drop _ startIndex).
    apply (includes_from_take _ (endIndex + 1 - startIndex)), ErrorFacts.includes_refl.
  - intros pattern group1 Hp H. apply regexMatch_at in H.
    destruct H as [n H].
    destruct (pattern_shape _ _ _ _ Hp H) as (Hi & Hs).
    split; [|exact Hs]. exact (includes_from_drop _ _ _ Hi).
Qed.

(** X17: for an identifier as variable name, neither strategy makes up
    text: what the primary scan hands to [JSON.parse], and what a
    fallback expression captures, is a piece of the page that starts
    with an opening brace and ends with a closing one. *)
Theorem extracted_text_from_page varName html :
  identifier varName = true ->
  (forall jsonStr,
     extractLiteral varName html = Some jsonStr ->
     includes jsonStr html = true
     /\ startsWith "{" jsonStr = true /\ endsIn "}" jsonStr = true)
  /\ (forall pattern group1,
        In pattern (patterns varName) ->
        regexMatch varName pattern html = Some group1 ->
        includes group1 html = true
        /\ startsWith "{" group1 = true /\ endsIn "}" group1 = true).
Proof. apply extracted_text_from_page_parts. Qed.

Lemma extracted_text_from_page_witness :
  includes (qq "{`a`: {`b`: 1}}") (qq "<script>var X = {`a`: {`b`: 1}};</script>")
  = true
  /\ startsWith "{" (qq "{`a`: {`b`: 1}}") = true
  /\ endsIn "}" (qq "{`a`: {`b`: 1}}") = true.
Proof.
  apply (proj1 (extracted_text_from_page "X"
                  (qq "<script>var X = {`a`: {`b`: 1}};</script>")
                  eq_refl)).
  reflexivity.
Defined.

(** X18: a page that does not name the variable fails with "data
    unparsable" for the caller's video id, whatever [JSON.parse] does. *)
Theorem absent_name_fails JSON_parse varName html videoId :
  identifier varName = true ->
  includes varName html = false ->
  parse JSON_parse varName html videoId = Err (youTubeDataUnparsable videoId).
Proof.
  intros Hid Hn.
  pose proof (ExtractorFacts.identifier_nonempty _ Hid) as Hne.
  assert (E : exists e, parse JSON_parse varName html videoId = Err e).
  { unfold parse, parseCharByChar.
    rewrite ExtractorFacts.extractLiteral_afterMarker.
    assert (Ea : afterMarker varName html = None).
    { apply ExtractorFacts.afterMarker_none; [exact Hne|].
      split; [|exact Hn].
      destruct (includes ("var " ++ varName) html) eqn:E; [|reflexivity].
      apply includes_pattern_suffix in E. congruence. }
    rewrite Ea. unfold parseWithRegex.
    apply ExtractorFacts.tryPatterns_fails. intros p Hp.
    unfold patternValue.
    destruct (regexMatch varName p html) as [g|] eqn:Eg; [|reflexivity].
    apply regexMatch_at in Eg. destruct Eg as [n Eg].
    apply (pattern_needs_name _ _ _ _ Hp) in Eg.
    apply includes_from_drop in Eg. congruence. }
  destruct E as [e E]. rewrite E. f_equal.
  exact (ExtractorFacts.parse_error _ _ _ _ _ E).
Qed.

Lemma absent_name_fails_witness :
  parse Json.parse "ytInitialPlayerResponse" "<html></html>" "dQw4w9WgXcQ"
  = Err (youTubeDataUnparsable "dQw4w9WgXcQ").
Proof. apply absent_name_fails; reflexivity. Defined.

(** ** The normalisation of quotes in the fallback *)

Lemma normalizeQuotes_skip k : forall s,
  normalizeQuotes k s = normalizeQuotes 0 (drop k s).
Proof.
  induction k as [|k IH]; intros [|c s]; try reflexivity.
  cbn [normalizeQuotes drop]. apply IH.
Qed.

(** A quoted body ends at a single quote. *)
Lemma quotedBody_spec len : forall s m n,
  String.length s <= len ->
  quotedBody m s = Some n ->
  exists j, n = m + S j
            /\ s = take j s ++ String squote (drop (S j) s).
Proof.
  induction len as [|len IH]; intros [|c s] m n Hl; try discriminate.
  - simpl in Hl. lia.
  - simpl in Hl. cbn [quotedBody].
    destruct (Ascii.eqb c squote) eqn:Ec.
    + intros [= <-]. exists 0. split; [lia|].
      apply Ascii.eqb_eq in Ec. now subst c.
    + destruct (Ascii.eqb c backslash).
      * destruct s as [|d s]; [discriminate|].
        destruct (isLineTerminator d); [discriminate|]. intros H.
        simpl in Hl. apply IH in H; [|lia].
        destruct H as (j & -> & Hs). exists (S (S j)). split; [lia|].
        change (String c (String d s)
                = String c (String d
                    (take j s ++ String squote (drop (S j) s)))).
        now rewrite <- Hs.
      * intros H. apply IH in H; [|lia].
        destruct H as (j & -> & Hs). exists (S j). split; [lia|].
        change (String c s
                = String c (take j s ++ String squote (drop (S j) s))).
        now rewrite <- Hs.
Qed.

Lemma requoted_refl s : requoted s s = true.
Proof.
  induction s as [|c s IH]; [reflexivity|].
  cbn [requoted]. now rewrite Ascii.eqb_refl, IH.
Qed.

Lemma requoted_same_prefix x y y' :
  requoted y y' = true -> requoted (x ++ y) (x ++ y') = true.
Proof.
  intros H. induction x as [|c x IH]; [exact H|].
  cbn [append requoted]. now rewrite Ascii.eqb_refl, IH.
Qed.

Lemma requoted_length : forall s t,
  requoted s t = true -> String.length s = String.length t.
Proof.
  induction s as [|c s IH]; intros [|d t]; try discriminate; [reflexivity|].
  cbn [requoted]. intros H. apply andb_true_iff in H.
  simpl. f_equal. now apply IH.
Qed.

Lemma take_drop_length j s :
  String.length (drop (S j) s) <= String.length s - 1.
Proof.
  destruct s as [|c s]; simpl; [lia|].
  pose proof (ApiFacts.drop_length j s). lia.
Qed.

Lemma normalizeQuotes_requoted len : forall s,
  String.length s <= len -> requoted s (normalizeQuotes 0 s) = true.
Proof.
  induction len as [|len IH]; intros [|c s] Hl; try reflexivity.
  - simpl in Hl. lia.
  - simpl in Hl. cbn [normalizeQuotes].
    assert (Hs : requoted (String c s) (String c (normalizeQuotes 0 s))
                 = true).
    { cbn [requoted]. rewrite Ascii.eqb_refl. apply IH. lia. }
    destruct (Ascii.eqb c squote) eqn:Ec; [|exact Hs].
    destruct (quotedBody 0 s) as [n|] eqn:Eq; [|exact Hs].
    apply (quotedBody_spec (String.length s)) in Eq; [|lia].
    destruct Eq as (j & -> & Es).
    replace (0 + S j - 1) with j by lia.
    rewrite normalizeQuotes_skip.
    cbn [requoted]. rewrite Ec. rewrite Ascii.eqb_refl, orb_true_r.
    cbn [andb]. rewrite Es at 1.
    apply requoted_same_prefix.
    cbn [requoted]. rewrite !Ascii.eqb_refl, orb_true_r. cbn [andb].
    apply IH. pose proof (take_drop_length j s) as Hd.
    change (0 + S j) with (S j). lia.
Qed.

Lemma normalizeQuotes_plain s :
  includes "'" s = false -> normalizeQuotes 0 s = s.
Proof.
  induction s as [|c s IH]; [reflexivity|]. intros H.
  pose proof (includes_false_startsWith _ _ H) as Hs.
  pose proof (includes_false_tail _ _ _ H) as Ht.
  change (startsWith "'" (String c s)) with (Ascii.eqb "'" c && true) in Hs.
  rewrite andb_true_r, Ascii.eqb_sym in Hs.
  cbn [normalizeQuotes]. unfold squote. rewrite Hs. now rewrite (IH Ht).
Qed.

(** X19: the fallback's normalisation of quotes touches single quotes
    only: its result has the length of its argument and differs from it
    at most where a single quote became a double quote; a text without
    a single quote is left as it is. *)
Theorem normalizeQuotes_only_quotes s :
  requoted s (normalizeQuotes 0 s) = true
  /\ String.length (normalizeQuotes 0 s) = String.length s
  /\ (includes "'" s = false -> normalizeQuotes 0 s = s).
Proof.
  pose proof (normalizeQuotes_requoted (String.length s) s (le_n _)) as H.
  split; [exact H|]. split; [|apply normalizeQuotes_plain].
  symmetry. now apply requoted_length.
Qed.

End PageFacts.

(* ================================================================== *)
(** * Properties of the streaming data *)
(* ================================================================== *)

Module VideoInfoFacts.
Import Js CaptionsExtractor VideoInfo.

Lemma orValue_truthy v d : truthy d = true -> truthy (orValue v d) = true.
Proof.
  intros H. unfold orValue. destruct v as [x|]; [|exact H].
  now destruct (truthy x) eqn:E.
Qed.

(** X20: [extractStreamingData] throws "data unparsable" for the
    caller's video id exactly when the response has no truthy
    [streamingData]; what it returns otherwise has a truthy
    [expiresInSeconds], [formats] and [adaptiveFormats], the defaults
    standing in for missing, null, empty and zero members. *)
Theorem extractStreamingData_spec innerTubeResponse videoId :
  (falsy (prop "streamingData" innerTubeResponse) = true ->
   extractStreamingData innerTubeResponse videoId
   = Err (Errors.youTubeDataUnparsable videoId))
  /\ (falsy (prop "streamingData" innerTubeResponse) = false ->
      exists data,
        extractStreamingData innerTubeResponse videoId = Ok data
        /\ truthy (expiresInSeconds data) = true
        /\ truthy (formats data) = true
        /\ truthy (adaptiveFormats data) = true).
Proof.
  unfold extractStreamingData. split; intros H; rewrite H; [reflexivity|].
  eexists. split; [reflexivity|]. cbn [expiresInSeconds formats adaptiveFormats].
  repeat split; now apply orValue_truthy.
Qed.

End VideoInfoFacts.

(* ================================================================== *)
(** * Where a parsed value comes from *)
(* ================================================================== *)

Module OriginFacts.
Import Js JsVarParser Contract Shape StringFacts.

Lemma tryPatterns_ok JSON_parse varName ps html videoId v :
  tryPatterns JSON_parse varName ps html videoId = Ok v ->
  exists pattern group1,
    In pattern ps
    /\ regexMatch varName pattern html = Some group1
    /\ JSON_parse (normalizeQuotes 0 group1) = Some v.
Proof.
  induction ps as [|p ps IH]; simpl; [discriminate|].
  unfold patternValue.
  destruct (regexMatch varName p html) as [g|] eqn:Eg.
  - destruct (JSON_parse (normalizeQuotes 0 g)) as [w|] eqn:Ew.
    + intros [= <-]. exists p, g. now repeat split; [left| |].
    + intros H. destruct (IH H) as (q & g' & Hq & H').
      exists q, g'. split; [now right | exact H'].
  - intros H. destruct (IH H) as (q & g' & Hq & H').
    exists q, g'. split; [now right | exact H'].
Qed.

(** X21: for an identifier as variable name, every value [parse]
    returns was read by [JSON.parse] from a piece of the page that
    starts with an opening brace and ends with a closing one: from the
    piece as it stands in the page when the primary scan found it,
    after the normalisation of its quotes when a fallback expression
    did. *)
Theorem parse_value_from_page JSON_parse varName html videoId v :
  identifier varName = true ->
  parse JSON_parse varName html videoId = Ok v ->
  exists piece,
    includes piece html = true
    /\ startsWith "{" piece = true /\ endsIn "}" piece = true
    /\ (JSON_parse piece = Some v
        \/ JSON_parse (normalizeQuotes 0 piece) = Some v).
Proof.
  intros Hn. unfold parse.
  destruct (parseCharByChar JSON_parse varName html videoId) as [w|e] eqn:E.
  - intros [= <-]. unfold parseCharByChar in E.
    destruct (extractLiteral varName html) as [jsonStr|] eqn:El;
      [|discriminate].
    destruct (JSON_parse jsonStr) as [w'|] eqn:Ej; [|discriminate].
    injection E as <-. exists jsonStr.
    destruct (proj1 (PageFacts.extracted_text_from_page_parts varName html Hn)
                jsonStr El) as (Hi & Hs & He).
    repeat split; try assumption. now left.
  - unfold parseWithRegex. intros H. apply tryPatterns_ok in H.
    destruct H as (p & g & Hp & Hg & Hv). exists g.
    destruct (proj2 (PageFacts.extracted_text_from_page_parts varName html Hn)
                p g Hp Hg) as (Hi & Hs & He).
    repeat split; try assumption. now right.
Qed.

Lemma parse_value_from_page_witness :
  exists piece,
    includes piece (qq "<script>var X = {`a`: {`b`: 1}};</script>") = true
    /\ startsWith "{" piece = true /\ endsIn "}" piece = true
    /\ (Json.parse piece
        = Some (JObject
                  [(codeUnits "a",
                    JObject [(codeUnits "b",
                              JNumber {| negative := false; mantissa := 1;
                                         exponent10 := 0 |})])])
        \/ Json.parse (normalizeQuotes 0 piece)
           = Some (JObject
                     [(codeUnits "a",
                       JObject [(codeUnits "b",
                                 JNumber {| negative := false; mantissa := 1;
                                            exponent10 := 0 |})])])).
Proof.
  apply (parse_value_from_page Json.parse "X"
           (qq "<script>var X = {`a`: {`b`: 1}};</script>") "dQw4w9WgXcQ").
  - reflexivity.
  - reflexivity.
Defined.

End OriginFacts.

(* ================================================================== *)
(** * What [parseFloat] reads *)
(* ================================================================== *)

Module NumberFacts.
Import Js JsLib Numeral StringFacts.

Lemma digitChar_isDigit d : (d <? 10)%nat = true -> isDigit (digitChar d) = true.
Proof.
  intros H. apply Nat.ltb_lt in H.
  do 10 (destruct d as [|d]; [reflexivity|]). lia.
Qed.

Lemma digitChar_value d :
  (d <? 10)%nat = true -> Json.digitValue (digitChar d) = N.of_nat d.
Proof.
  intros H. apply Nat.ltb_lt in H.
  do 10 (destruct d as [|d]; [reflexivity|]). lia.
Qed.

(** A run of digits followed by something else is read whole. *)
Lemma digits_run ds : forall acc count rest,
  allDigits ds = true -> startsWithDigit rest = false ->
  Json.digits acc count (digitsText ds ++ rest)
  = (digitsValue acc ds, count + List.length ds, rest).
Proof.
  induction ds as [|d ds IH]; intros acc count rest Hd Hr.
  - simpl. rewrite Nat.add_0_r. destruct rest as [|c r]; [reflexivity|].
    simpl in Hr. cbn [Json.digits]. now rewrite Hr.
  - cbn [allDigits forallb] in Hd. apply andb_true_iff in Hd.
    destruct Hd as [Hd Hds].
    cbn [digitsText append Json.digits].
    rewrite (digitChar_isDigit d Hd), (digitChar_value d Hd).
    rewrite (IH _ _ _ Hds Hr). cbn [digitsValue List.length].
    f_equal. f_equal. lia.
Qed.

Lemma digits_none acc count s :
  startsWithDigit s = false -> Json.digits acc count s = (acc, count, s).
Proof.
  destruct s as [|c r]; [reflexivity|]. simpl. now intros ->.
Qed.

Lemma digits_some acc count s :
  startsWithDigit s = true ->
  exists v n r, Json.digits acc count s = (v, S n, r).
Proof.
  destruct s as [|c r]; [discriminate|]. cbn [startsWithDigit Json.digits].
  intros ->. clear.
  revert acc count c. induction r as [|d r IH]; intros acc count c.
  - now eexists _, _, _.
  - cbn [Json.digits]. destruct (isDigit d).
    + destruct (IH (acc * 10 + Json.digitValue c)%N (S count) d)
        as (v & n & r' & E).
      cbn [Json.digits] in E. exists v, n, r'. exact E.
    + now eexists _, _, _.
Qed.

Lemma digitsValue_app ds1 : forall acc ds2,
  digitsValue acc (ds1 ++ ds2)%list = digitsValue (digitsValue acc ds1) ds2.
Proof.
  induction ds1 as [|d ds1 IH]; intros acc ds2; [reflexivity|].
  simpl. apply IH.
Qed.

Lemma digitsText_head ds rest :
  allDigits ds = true -> (0 <? List.length ds)%nat = true ->
  exists c r, digitsText ds ++ rest = String c r /\ isDigit c = true.
Proof.
  destruct ds as [|d ds]; [discriminate|]. intros H _.
  cbn [allDigits forallb] in H. apply andb_true_iff in H.
  eexists _, _. split; [reflexivity|]. now apply digitChar_isDigit.
Qed.

Lemma isDigit_not_space c : isDigit c = true -> isSpace c = false.
Proof.
  unfold isDigit, isSpace. set (n := nat_of_ascii c). intros H.
  apply andb_true_iff in H. destruct H as [H1 H2].
  apply Nat.leb_le in H1. apply Nat.leb_le in H2.
  destruct (Nat.leb_spec 9 n), (Nat.leb_spec n 13),
    (Nat.eqb_spec n 32), (Nat.eqb_spec n 160); simpl; try reflexivity; lia.
Qed.

Lemma isDigit_chars c :
  isDigit c = true ->
  Ascii.eqb c "-" = false /\ Ascii.eqb c "+" = false
  /\ Ascii.eqb c "." = false /\ Ascii.eqb c "e" = false
  /\ Ascii.eqb c "E" = false /\ Ascii.eqb c "I" = false.
Proof.
  intros H.
  repeat split;
    match goal with
    | |- Ascii.eqb c ?x = false =>
        destruct (Ascii.eqb_spec c x) as [-> | _];
        [discriminate H | reflexivity]
    end.
Qed.

(** [trimStart] on white space followed by a text that starts with
    none. *)
Lemma trimStart_blank ws s :
  blank ws = true -> trimStart (ws ++ s) = trimStart s.
Proof.
  induction ws as [|c ws IH]; [reflexivity|].
  cbn [blank]. intros H. apply andb_true_iff in H. destruct H as [Hc H].
  cbn [append trimStart]. rewrite Hc. now apply IH.
Qed.

Lemma trimStart_dropBlank s : trimStart s = dropBlank s.
Proof.
  induction s as [|c s IH]; [reflexivity|].
  cbn [trimStart dropBlank]. now rewrite IH.
Qed.

(** [parseFloat] gives [NaN] exactly on the texts that do not begin
    with a number. *)
Lemma parseFloat_NaN s : isNaN (parseFloat s) = negb (beginsNumber s).
Proof.
  unfold parseFloat, beginsNumber. rewrite trimStart_dropBlank.
  set (t := dropBlank s).
  assert (Hsign :
    (let '(neg, t1) :=
       match t with
       | String c r =>
           if Ascii.eqb c "-" then (true, r)
           else if Ascii.eqb c "+" then (false, r)
           else (false, t)
       | EmptyString => (false, t)
       end in t1) = dropSign t).
  { destruct t as [|c r]; [reflexivity|]. unfold dropSign.
    destruct (Ascii.eqb c "-"); [reflexivity|].
    now destruct (Ascii.eqb c "+"). }
  destruct (match t with
            | String c r =>
                if Ascii.eqb c "-" then (true, r)
                else if Ascii.eqb c "+" then (false, r)
                else (false, t)
            | EmptyString => (false, t)
            end) as [neg t1].
  cbn in Hsign. rewrite <- Hsign. clear Hsign.
  destruct (startsWith "Infinity" t1) eqn:EI; [reflexivity|].
  cbn [orb].
  destruct (startsWithDigit t1) eqn:Ed.
  - destruct (digits_some 0 0 t1 Ed) as (i & n & r & E). rewrite E.
    destruct t1 as [|c r1]; [discriminate|]. cbn [startsWithDigit] in Ed.
    rewrite Ed. cbn [orb negb].
    destruct r as [|d r2].
    + reflexivity.
    + destruct (Ascii.eqb d ".").
      * now destruct (Json.digits i 0 r2) as [[m n2] t3].
      * reflexivity.
  - rewrite (digits_none 0 0 t1 Ed).
    destruct t1 as [|c r]; [reflexivity|]. cbn [startsWithDigit] in Ed.
    rewrite Ed. cbn [orb].
    destruct (Ascii.eqb c ".").
    + cbn [andb]. destruct (startsWithDigit r) eqn:Er.
      * destruct (digits_some 0 0 r Er) as (m & n2 & t3 & E). now rewrite E.
      * now rewrite (digits_none 0 0 r Er).
    + reflexivity.
Qed.

(** ** A numeral and what follows it *)

Lemma exponentPart_none s :
  startsExponent s = false -> exponentPart s = 0%Z.
Proof.
  destruct s as [|c r]; [reflexivity|]. unfold startsExponent, exponentPart.
  destruct (Ascii.eqb c "e" || Ascii.eqb c "E"); [|reflexivity].
  cbn [andb]. intros H.
  assert (E : (let '(eneg, r1) :=
                 match r with
                 | String d r' =>
                     if Ascii.eqb d "-" then (true, r')
                     else if Ascii.eqb d "+" then (false, r')
                     else (false, r)
                 | EmptyString => (false, r)
                 end in r1) = dropSign r).
  { destruct r as [|d r']; [reflexivity|]. unfold dropSign.
    destruct (Ascii.eqb d "-"); [reflexivity|].
    now destruct (Ascii.eqb d "+"). }
  destruct (match r with
            | String d r' =>
                if Ascii.eqb d "-" then (true, r')
                else if Ascii.eqb d "+" then (false, r')
                else (false, r)
            | EmptyString => (false, r)
            end) as [eneg r1].
  cbn in E. subst r1. now rewrite (digits_none 0 0 _ H).
Qed.

Lemma exponentPart_some e rest :
  allDigits (expDigits e) = true ->
  (0 <? List.length (expDigits e))%nat = true ->
  startsWithDigit rest = false ->
  exponentPart (exponentText (Some e) ++ rest) = exponentValue (Some e).
Proof.
  intros Hd Hl Hr. unfold exponentText, exponentValue.
  assert (Hrun : forall x : bool,
    (let '(v, n, _) := Json.digits 0 0 (digitsText (expDigits e) ++ rest) in
     match n with
     | 0 => 0%Z
     | S _ => if x then (- Z.of_N v)%Z else Z.of_N v
     end)
    = if x then (- Z.of_N (digitsValue 0 (expDigits e)))%Z
      else Z.of_N (digitsValue 0 (expDigits e))).
  { intros x. rewrite (digits_run _ 0 0 rest Hd Hr).
    apply Nat.ltb_lt in Hl. cbn [Nat.add].
    destruct (List.length (expDigits e)); [lia | reflexivity]. }
  destruct (digitsText_head (expDigits e) rest Hd Hl) as (c & r & Ec & Hc).
  destruct (isDigit_chars c Hc) as (Hm & Hp & _).
  assert (He : forall k : string,
    exponentPart (String (if capital e then "E" else "e")%char k)
    = let '(eneg, r1) :=
        match k with
        | String d r' =>
            if Ascii.eqb d "-" then (true, r')
            else if Ascii.eqb d "+" then (false, r')
            else (false, k)
        | EmptyString => (false, k)
        end in
      let '(v, n, _) := Json.digits 0 0 r1 in
      match n with
      | 0 => 0%Z
      | S _ => if eneg then (- Z.of_N v)%Z else Z.of_N v
      end).
  { intros k. unfold exponentPart. now destruct (capital e). }
  replace ((if capital e then "E" else "e")
           ++ signText (expSign e) ++ digitsText (expDigits e))
    with (String (if capital e then "E" else "e")%char
            (signText (expSign e) ++ digitsText (expDigits e)))
    by now destruct (capital e).
  cbn [append]. rewrite He. rewrite append_assoc.
  destruct (expSign e); cbn [signText append isMinus].
  - rewrite Ec, Hm, Hp, <- Ec. apply (Hrun false).
  - apply (Hrun false).
  - apply (Hrun true).
Qed.

Lemma exponentText_head e rest :
  exists c r, exponentText (Some e) ++ rest = String c r
              /\ (Ascii.eqb c "e" || Ascii.eqb c "E") = true.
Proof.
  unfold exponentText. destruct (capital e); eexists _, _;
    (split; [reflexivity|]); reflexivity.
Qed.

(** After its sign, a well-formed numeral followed by a text that does
    not carry it on is read for its value. *)
Lemma unsigned_read n rest neg :
  wellFormed n = true -> endsBefore n rest = true ->
  (let t1 := digitsText (whole n) ++ fractionText (fraction n)
             ++ exponentText (exponent n) ++ rest in
   if startsWith "Infinity" t1 then Infinity neg
   else
     let '(i, n1, t2) := Json.digits 0 0 t1 in
     let '(m, n2, t3) :=
       match t2 with
       | String c r =>
           if Ascii.eqb c "." then Json.digits i 0 r else (i, 0, t2)
       | EmptyString => (i, 0, t2)
       end in
     match n1 + n2 with
     | 0 => NaN
     | S _ =>
         Finite {| negative := neg; mantissa := m;
                   exponent10 := (exponentPart t3 - Z.of_nat n2)%Z |}
     end)
  = Finite {| negative := neg;
              mantissa := digitsValue 0 (whole n ++ fractionDigits n);
              exponent10 :=
                (exponentValue (exponent n)
                 - Z.of_nat (List.length (fractionDigits n)))%Z |}.
Proof.
  unfold wellFormed, endsBefore. intros Hw He.
  apply andb_true_iff in Hw. destruct Hw as [Hw Hexp].
  apply andb_true_iff in Hw. destruct Hw as [Hw Hlen].
  apply andb_true_iff in Hw. destruct Hw as [Hwhole Hfrac].
  apply andb_true_iff in He. destruct He as [Hrd He].
  apply negb_true_iff in Hrd.
  (* the text after the fraction *)
  set (tail := exponentText (exponent n) ++ rest).
  assert (Htd : startsWithDigit tail = false).
  { unfold tail. destruct (exponent n) as [e|]; [|exact Hrd].
    destruct (exponentText_head e rest) as (c & r & -> & Hc).
    cbn [startsWithDigit]. destruct (isDigit c) eqn:Ec; [|reflexivity].
    destruct (isDigit_chars c Ec) as (_ & _ & _ & H1 & H2 & _).
    rewrite H1, H2 in Hc. discriminate. }
  assert (Hexpo : exponentPart tail = exponentValue (exponent n)).
  { unfold tail. destruct (exponent n) as [e|].
    - apply andb_true_iff in Hexp. destruct Hexp as [H1 H2].
      now apply exponentPart_some.
    - apply andb_true_iff in He. destruct He as [He _].
      apply negb_true_iff in He. now apply exponentPart_none. }
  assert (Hpoint : fraction n = None -> startsWith "." tail = false).
  { intros Hf. unfold tail. destruct (exponent n) as [e|].
    - destruct (exponentText_head e rest) as (c & r & -> & Hc).
      cbn [startsWith]. destruct (Ascii.eqb_spec "." c) as [<- | _];
        [discriminate Hc | reflexivity].
    - apply andb_true_iff in He. destruct He as [_ He]. rewrite Hf in He.
      now apply negb_true_iff in He. }
  rewrite <- append_assoc. fold tail.
  replace ((digitsText (whole n) ++ fractionText (fraction n)) ++ tail)
    with (digitsText (whole n) ++ fractionText (fraction n) ++ tail)
    by (now rewrite append_assoc).
  set (mid := fractionText (fraction n) ++ tail).
  assert (Hmd : startsWithDigit mid = false).
  { unfold mid. destruct (fraction n); [reflexivity | exact Htd]. }
  (* no Infinity *)
  assert (HI : startsWith "Infinity" (digitsText (whole n) ++ mid) = false).
  { destruct (whole n) as [|d ds].
    - cbn [digitsText append]. unfold mid.
      destruct (fraction n) as [f|] eqn:Ef; [reflexivity|].
      cbn [fractionText append]. unfold fractionDigits in Hlen.
      rewrite Ef in Hlen. discriminate.
    - cbn [allDigits forallb] in Hwhole. apply andb_true_iff in Hwhole.
      destruct Hwhole as [Hd _]. apply digitChar_isDigit in Hd.
      cbn [digitsText append startsWith].
      destruct (isDigit_chars _ Hd) as (_ & _ & _ & _ & _ & HIc).
      rewrite Ascii.eqb_sym, HIc. reflexivity. }
  cbv zeta. rewrite HI.
  rewrite (digits_run (whole n) 0 0 mid Hwhole Hmd). cbn [Nat.add].
  unfold mid, fractionDigits in *.
  destruct (fraction n) as [f|] eqn:Ef.
  - cbn [fractionText append]. cbn [Ascii.eqb Bool.eqb].
    rewrite (digits_run f _ 0 tail Hfrac Htd). cbn [Nat.add].
    apply Nat.ltb_lt in Hlen.
    match goal with
           | |- context [match ?x with 0 => NaN | S _ => _ end] =>
               destruct x eqn:El
           end; [lia|].
    rewrite Hexpo, digitsValue_app. reflexivity.
  - cbn [fractionText append]. specialize (Hpoint eq_refl).
    rewrite app_nil_r. cbn [List.length] in *.
    apply Nat.ltb_lt in Hlen.
    destruct tail as [|c r] eqn:Et.
    + match goal with
           | |- context [match ?x with 0 => NaN | S _ => _ end] =>
               destruct x eqn:El
           end; [lia|].
      cbn in Hexpo. rewrite <- Hexpo. reflexivity.
    + cbn [startsWith] in Hpoint. rewrite andb_true_r in Hpoint.
      rewrite Ascii.eqb_sym in Hpoint. rewrite Hpoint.
      match goal with
           | |- context [match ?x with 0 => NaN | S _ => _ end] =>
               destruct x eqn:El
           end; [lia|].
      rewrite Hexpo. reflexivity.
Qed.

(** The first character of a well-formed numeral, after its sign, is a
    digit or a point. *)
Lemma unsigned_head n rest :
  wellFormed n = true ->
  exists c r,
    digitsText (whole n) ++ fractionText (fraction n)
    ++ exponentText (exponent n) ++ rest = String c r
    /\ (isDigit c = true \/ c = "."%char).
Proof.
  unfold wellFormed. intros Hw.
  apply andb_true_iff in Hw. destruct Hw as [Hw _].
  apply andb_true_iff in Hw. destruct Hw as [Hw Hlen].
  apply andb_true_iff in Hw. destruct Hw as [Hwhole _].
  destruct (whole n) as [|d ds].
  - unfold fractionDigits in Hlen.
    destruct (fraction n) as [f|]; [|discriminate].
    eexists _, _. split; [reflexivity | now right].
  - cbn [allDigits forallb] in Hwhole. apply andb_true_iff in Hwhole.
    destruct Hwhole as [Hd _]. eexists _, _. split; [reflexivity|].
    left. now apply digitChar_isDigit.
Qed.

(** A numeric prefix is read for its value, whatever white space comes
    before it and whatever text, not carrying it on, comes after. *)
Lemma parseFloat_numeral ws n rest :
  blank ws = true -> wellFormed n = true -> endsBefore n rest = true ->
  parseFloat (ws ++ text n ++ rest) = Finite (value n).
Proof.
  intros Hb Hw He. unfold parseFloat. rewrite (trimStart_blank ws _ Hb).
  unfold text. rewrite !append_assoc.
  destruct (unsigned_head n rest Hw) as (c & r & Ec & Hc).
  assert (Hns : isSpace c = false).
  { destruct Hc as [Hc | ->]; [now apply isDigit_not_space | reflexivity]. }
  assert (Hnm : Ascii.eqb c "-" = false /\ Ascii.eqb c "+" = false).
  { destruct Hc as [Hc | ->]; [|now split].
    destruct (isDigit_chars c Hc) as (H1 & H2 & _). now split. }
  pose proof (unsigned_read n rest (isMinus (sign n)) Hw He) as H.
  cbv zeta in H. unfold value.
  destruct (sign n); cbn [signText append isMinus] in *.
  - rewrite Ec. cbn [trimStart]. rewrite Hns.
    destruct Hnm as [-> ->]. rewrite <- Ec. exact H.
  - cbn [trimStart]. cbn [isSpace]. exact H.
  - cbn [trimStart]. cbn [isSpace]. exact H.
Qed.

End NumberFacts.

(* ================================================================== *)
(** * The skip rule, on the texts of the attributes *)
(* ================================================================== *)

Module TimingFacts.
Import Js JsLib Dom TranscriptParser Wording Samples Timing.

(** The skip condition of the source is the one on the texts. *)
Lemma skipped_timing element : skipped element = timingUnusable element.
Proof.
  unfold skipped, timingUnusable, unusable, missing, valueOf.
  rewrite !NumberFacts.parseFloat_NaN.
  destruct (attr "start" (attribsOf element)) as [[|c s]|];
    destruct (attr "dur" (attribsOf element)) as [[|d r]|];
    cbn [orb]; try reflexivity;
    try (now rewrite !orb_true_r).
Qed.

Lemma snippetOf_unusable cheerio this element :
  timingUnusable element = true -> snippetOf cheerio this element = None.
Proof.
  rewrite <- skipped_timing. apply DecoderFacts.snippetOf_skipped.
Qed.

Lemma snippetOf_usable cheerio this element :
  timingUnusable element = false ->
  snippetOf cheerio this element =
  match renderText cheerio this (childrenOf element) with
  | EmptyString => None
  | String c r =>
      Some {| text := String c r;
              start := parseFloat (valueOf (attr "start" (attribsOf element)));
              duration := parseFloat (valueOf (attr "dur" (attribsOf element))) |}
  end.
Proof.
  rewrite <- skipped_timing. apply DecoderFacts.snippetOf_kept.
Qed.

Lemma numeral_begins ws n rest :
  Numeral.blank ws = true -> Numeral.wellFormed n = true -> Numeral.endsBefore n rest = true ->
  Numeral.beginsNumber (ws ++ Numeral.text n ++ rest) = true.
Proof.
  intros Hb Hw He.
  pose proof (NumberFacts.parseFloat_NaN (ws ++ Numeral.text n ++ rest)) as H.
  rewrite (NumberFacts.parseFloat_numeral ws n rest Hb Hw He) in H.
  cbn [isNaN] in H.
  now destruct (Numeral.beginsNumber (ws ++ Numeral.text n ++ rest)).
Qed.

Lemma unusable_begins value :
  value <> EmptyString -> Numeral.beginsNumber value = true ->
  unusable (Some value) = false.
Proof.
  intros Hn Hb. destruct value as [|c s]; [contradiction|].
  cbn [unusable]. now rewrite Hb.
Qed.

Lemma numeral_nonempty ws n rest :
  Numeral.wellFormed n = true -> ws ++ Numeral.text n ++ rest <> EmptyString.
Proof.
  intros Hw E. unfold Numeral.text in E.
  destruct (NumberFacts.unsigned_head n rest Hw) as (c & r & Ec & _).
  rewrite !StringFacts.append_assoc in E. rewrite Ec in E.
  destruct ws; [|discriminate E]. cbn [append] in E.
  destruct (Numeral.signText (Numeral.sign n)); discriminate E.
Qed.

(** A segment whose [dur] begins with a numeral, and whose [start]
    begins with a number, is emitted when its text is not empty, with
    the value of the numeral for duration. *)
Lemma prefix_emitted cheerio this element ws n rest startStr :
  attr "dur" (attribsOf element) = Some (ws ++ Numeral.text n ++ rest) ->
  Numeral.blank ws = true -> Numeral.wellFormed n = true -> Numeral.endsBefore n rest = true ->
  attr "start" (attribsOf element) = Some startStr ->
  startStr <> EmptyString -> Numeral.beginsNumber startStr = true ->
  renderText cheerio this (childrenOf element) <> EmptyString ->
  exists snippet,
    snippetOf cheerio this element = Some snippet
    /\ duration snippet = Finite (Numeral.value n)
    /\ start snippet = parseFloat startStr.
Proof.
  intros Hd Hb Hw He Hs Hsn Hsb Ht.
  assert (Hu : timingUnusable element = false).
  { unfold timingUnusable. rewrite Hd, Hs.
    rewrite (unusable_begins _ Hsn Hsb).
    rewrite (unusable_begins _ (numeral_nonempty ws n rest Hw)
               (numeral_begins ws n rest Hb Hw He)).
    reflexivity. }
  rewrite (snippetOf_usable cheerio this element Hu).
  destruct (renderText cheerio this (childrenOf element)) as [|c r];
    [contradiction|].
  eexists. split; [reflexivity|]. cbn [duration start].
  rewrite Hd, Hs. cbn [valueOf]. split; [|reflexivity].
  now apply NumberFacts.parseFloat_numeral.
Qed.

Lemma empty_as_missing cheerio this element name :
  name = "start" \/ name = "dur" ->
  attr name (attribsOf element) = Some EmptyString
  \/ attr name (attribsOf element) = None ->
  snippetOf cheerio this element = None.
Proof.
  intros Hn Ha. apply snippetOf_unusable. unfold timingUnusable.
  destruct Hn as [-> | ->].
  - destruct Ha as [-> | ->]; reflexivity.
  - destruct Ha as [-> | ->]; cbn [unusable]; apply orb_true_r.
Qed.

(** C10: a segment is skipped on its timing attributes exactly when
    [start] or [dur] is absent, or empty, or does not begin with a
    number, which is when [parseFloat] gives [NaN]; an empty attribute
    counts as a missing one.  A value that begins with a numeral, after
    any white space and before any text that does not carry the numeral
    on, is read for the value of the numeral: the segment is emitted,
    if its text is not empty, with that value, so that [dur="1.5abc"]
    gives the duration 1.5.  Numbers are the exact decimals the texts
    denote. *)
Theorem C10_skip_condition :
  (forall cheerio this element,
     timingUnusable element = true -> snippetOf cheerio this element = None)
  /\ (forall cheerio this element,
        timingUnusable element = false ->
        snippetOf cheerio this element =
        match renderText cheerio this (childrenOf element) with
        | EmptyString => None
        | String c r =>
            Some {| text := String c r;
                    start :=
                      parseFloat (valueOf (attr "start" (attribsOf element)));
                    duration :=
                      parseFloat (valueOf (attr "dur" (attribsOf element))) |}
        end)
  /\ (forall s, isNaN (parseFloat s) = negb (Numeral.beginsNumber s))
  /\ (forall ws n rest,
        Numeral.blank ws = true -> Numeral.wellFormed n = true -> Numeral.endsBefore n rest = true ->
        parseFloat (ws ++ Numeral.text n ++ rest) = Finite (Numeral.value n))
  /\ (forall cheerio this element ws n rest startStr,
        attr "dur" (attribsOf element) = Some (ws ++ Numeral.text n ++ rest) ->
        Numeral.blank ws = true -> Numeral.wellFormed n = true -> Numeral.endsBefore n rest = true ->
        attr "start" (attribsOf element) = Some startStr ->
        startStr <> EmptyString -> Numeral.beginsNumber startStr = true ->
        renderText cheerio this (childrenOf element) <> EmptyString ->
        exists snippet,
          snippetOf cheerio this element = Some snippet
          /\ duration snippet = Finite (Numeral.value n)
          /\ start snippet = parseFloat startStr)
  /\ (forall cheerio this element name,
        name = "start" \/ name = "dur" ->
        attr name (attribsOf element) = Some EmptyString
        \/ attr name (attribsOf element) = None ->
        snippetOf cheerio this element = None)
  /\ parse Mini.engine plain trailingLetters
     = Ok [{| text := "ok"; start := decimal false 10 (-1);
              duration := decimal false 15 (-1) |}].
Proof.
  split; [exact snippetOf_unusable|].
  split; [exact snippetOf_usable|].
  split; [exact NumberFacts.parseFloat_NaN|].
  split; [exact NumberFacts.parseFloat_numeral|].
  split; [exact prefix_emitted|].
  split; [exact empty_as_missing | reflexivity].
Qed.

Lemma C10_skip_condition_witness :
  exists snippet,
    snippetOf Mini.engine plain Cases.trailing = Some snippet
    /\ duration snippet = Finite (Numeral.value Cases.onePointFive)
    /\ start snippet = parseFloat " -2e1 s".
Proof.
  apply (proj1 (proj2 (proj2 (proj2 (proj2 C10_skip_condition))))
           Mini.engine plain Cases.trailing "" Cases.onePointFive "abc"
           " -2e1 s");
    try reflexivity; discriminate.
Defined.

(** ** Documents *)

Lemma parse_returns cheerio this rawData :
  passesPreChecks rawData = true ->
  select (isTag "transcript") (loadXml cheerio rawData) <> [] ->
  parse cheerio this rawData
  = Ok (collect cheerio this (select (isTag "text") (loadXml cheerio rawData))).
Proof.
  unfold passesPreChecks, parse. intros H Ht.
  apply andb_true_iff in H. destruct H as [H Hc].
  apply andb_true_iff in H. destruct H as [H1 H2].
  rewrite H1, H2, Hc. cbn [negb orb].
  now destruct (select (isTag "transcript") (loadXml cheerio rawData)).
Qed.

Lemma parse_returned cheerio this rawData snippets :
  parse cheerio this rawData = Ok snippets ->
  passesPreChecks rawData = true
  /\ select (isTag "transcript") (loadXml cheerio rawData) <> [].
Proof.
  unfold passesPreChecks, parse.
  destruct (includes "<transcript" rawData); [|discriminate].
  destruct (includes "</transcript>" rawData); [|discriminate].
  cbn [negb orb andb].
  destruct (countOpenTags 0 rawData =? countLiteral "</text>" 0 rawData)%nat;
    [|discriminate].
  cbn [negb].
  destruct (select (isTag "transcript") (loadXml cheerio rawData));
    [discriminate|].
  intros _. split; [reflexivity | discriminate].
Qed.

Lemma skip_keeps_siblings cheerio this rawData before element after :
  passesPreChecks rawData = true ->
  select (isTag "transcript") (loadXml cheerio rawData) <> [] ->
  select (isTag "text") (loadXml cheerio rawData)
  = (before ++ element :: after)%list ->
  timingUnusable element = true ->
  parse cheerio this rawData
  = Ok (collect cheerio this before ++ collect cheerio this after)%list.
Proof.
  intros Hp Ht Hs Hu. rewrite (parse_returns cheerio this rawData Hp Ht).
  rewrite Hs. f_equal. apply DecoderFacts.collect_skip.
  now apply snippetOf_unusable.
Qed.

Lemma collect_members cheerio this elements snippet :
  In snippet (collect cheerio this elements)
  <-> exists element,
        In element elements /\ snippetOf cheerio this element = Some snippet.
Proof.
  induction elements as [|e elements IH]; cbn [collect].
  - split; [intros [] | intros (element & [] & _)].
  - destruct (snippetOf cheerio this e) as [s0|] eqn:E.
    + cbn [In]. rewrite IH. split.
      * intros [<- | (element & Hin & H)];
          [exists e; split; [now left | exact E]
          | exists element; split; [now right | exact H]].
      * intros (element & [<- | Hin] & H);
          [left; congruence | right; now exists element].
    + rewrite IH. split.
      * intros (element & Hin & H). exists element. split; [now right|].
        exact H.
      * intros (element & [<- | Hin] & H); [congruence|].
        now exists element.
Qed.

(** The snippet of a segment is the one its attributes and its text
    give, and there is one exactly when the attributes are usable and
    the text is not empty. *)
Lemma snippetOf_some cheerio this element snippet :
  snippetOf cheerio this element = Some snippet
  <-> timingUnusable element = false
      /\ text snippet <> EmptyString
      /\ text snippet = renderText cheerio this (childrenOf element)
      /\ start snippet
         = parseFloat (valueOf (attr "start" (attribsOf element)))
      /\ duration snippet
         = parseFloat (valueOf (attr "dur" (attribsOf element))).
Proof.
  destruct (timingUnusable element) eqn:Hu.
  - rewrite (snippetOf_unusable cheerio this element Hu).
    split; [discriminate | intros [H _]; discriminate].
  - rewrite (snippetOf_usable cheerio this element Hu).
    destruct (renderText cheerio this (childrenOf element)) as [|c r].
    + split; [discriminate|]. intros (_ & Hn & Ht & _). congruence.
    + split.
      * intros [= <-]. cbn. repeat split. discriminate.
      * intros (_ & _ & Ht & Hs & Hd). destruct snippet as [t s0 d].
        cbn in Ht, Hs, Hd. now subst.
Qed.

Lemma parse_members cheerio this rawData :
  passesPreChecks rawData = true ->
  select (isTag "transcript") (loadXml cheerio rawData) <> [] ->
  exists snippets,
    parse cheerio this rawData = Ok snippets
    /\ forall snippet,
         In snippet snippets
         <-> exists element,
               In element (select (isTag "text") (loadXml cheerio rawData))
               /\ timingUnusable element = false
               /\ text snippet <> EmptyString
               /\ text snippet
                  = renderText cheerio this (childrenOf element)
               /\ start snippet
                  = parseFloat (valueOf (attr "start" (attribsOf element)))
               /\ duration snippet
                  = parseFloat (valueOf (attr "dur" (attribsOf element))).
Proof.
  intros Hp Ht. eexists. split; [exact (parse_returns _ _ _ Hp Ht)|].
  intros snippet. rewrite collect_members. split.
  - intros (element & Hin & H). exists element. split; [exact Hin|].
    now apply snippetOf_some.
  - intros (element & Hin & H). exists element. split; [exact Hin|].
    now apply snippetOf_some.
Qed.

(** C2 (as amended): [parse] returns, raising nothing, exactly on the
    documents that pass the two pre-checks and show a transcript
    element.  On such a document a segment whose [start] or [dur] is
    missing or empty, or does not begin with a number, adds no snippet,
    and the result is made of the snippets the segments before it and
    after it add on their own; a segment with usable attributes and a
    text that is not empty adds one; and the snippets returned are
    those of the segments with usable attributes and a text that is not
    empty, each with the text and the times of its segment.  The sample
    with an orphan segment yields the single snippet "ok".  A segment
    without [dur] written as an empty-element tag is not skipped: it
    upsets the count of the pre-check and the document is rejected, for
    every engine. *)
Theorem C2_skip_keeps_siblings :
  (forall cheerio this rawData,
     (exists snippets, parse cheerio this rawData = Ok snippets)
     <-> passesPreChecks rawData = true
         /\ select (isTag "transcript") (loadXml cheerio rawData) <> [])
  /\ (forall cheerio this rawData before element after,
        passesPreChecks rawData = true ->
        select (isTag "transcript") (loadXml cheerio rawData) <> [] ->
        select (isTag "text") (loadXml cheerio rawData)
        = (before ++ element :: after)%list ->
        timingUnusable element = true ->
        parse cheerio this rawData
        = Ok (collect cheerio this before ++ collect cheerio this after)%list)
  /\ (forall cheerio this element,
        timingUnusable element = false ->
        renderText cheerio this (childrenOf element) <> EmptyString ->
        exists snippet,
          collect cheerio this [element] = [snippet])
  /\ (forall cheerio this rawData,
        passesPreChecks rawData = true ->
        select (isTag "transcript") (loadXml cheerio rawData) <> [] ->
        exists snippets,
          parse cheerio this rawData = Ok snippets
          /\ forall snippet,
               In snippet snippets
               <-> exists element,
                     In element
                        (select (isTag "text") (loadXml cheerio rawData))
                     /\ timingUnusable element = false
                     /\ text snippet <> EmptyString
                     /\ text snippet
                        = renderText cheerio this (childrenOf element)
                     /\ start snippet
                        = parseFloat
                            (valueOf (attr "start" (attribsOf element)))
                     /\ duration snippet
                        = parseFloat
                            (valueOf (attr "dur" (attribsOf element))))
  /\ parse Mini.engine plain orphanAndOk
     = Ok [{| text := "ok"; start := decimal false 10 (-1);
              duration := decimal false 10 (-1) |}]
  /\ (forall cheerio this,
        parse cheerio this Cases.selfClosed
        = Err (failed "Malformed XML: mismatched text tags")).
Proof.
  split.
  { intros cheerio this rawData. split.
    - intros [snippets H]. exact (parse_returned _ _ _ _ H).
    - intros [Hp Ht]. eexists. exact (parse_returns _ _ _ Hp Ht). }
  split; [exact skip_keeps_siblings|].
  split.
  { intros cheerio this element Hu Ht. cbn [collect].
    rewrite (snippetOf_usable cheerio this element Hu).
    destruct (renderText cheerio this (childrenOf element));
      [contradiction|].
    eexists. reflexivity. }
  split; [exact parse_members|].
  split; reflexivity.
Qed.

Lemma C2_skip_keeps_siblings_witness :
  parse Mini.engine plain orphanAndOk
  = Ok (collect Mini.engine plain []
        ++ collect Mini.engine plain
             [Element "text" [("start", "1.0"); ("dur", "1.0")]
                [Text "ok"]])%list.
Proof.
  apply (proj1 (proj2 C2_skip_keeps_siblings) Mini.engine plain orphanAndOk
           [] (Element "text" [("dur", "1.0")] [Text "orphan"])
           [Element "text" [("start", "1.0"); ("dur", "1.0")] [Text "ok"]]).
  - reflexivity.
  - discriminate.
  - reflexivity.
  - reflexivity.
Defined.

End TimingFacts.

(* ================================================================== *)
(** * The text the primary strategy scans *)
(* ================================================================== *)

Module ExhaustionFacts.
Import Js JsVarParser Contract Page StringFacts.

(** ** [split] and the first occurrences of the separator *)

Lemma indexOf_none p : forall s,
  indexOf p s = None <-> includes p s = false.
Proof.
  induction s as [|c s IH].
  - simpl. rewrite orb_false_r. now destruct (startsWith p "").
  - rewrite includes_cons.
    change (indexOf p (String c s))
      with (if startsWith p (String c s) then Some 0
            else option_map S (indexOf p s)).
    destruct (startsWith p (String c s)); [easy|].
    cbn [orb]. rewrite <- IH. now destruct (indexOf p s).
Qed.

Lemma indexOf_some p s :
  includes p s = true -> exists i, indexOf p s = Some i.
Proof.
  intros H. destruct (indexOf p s) as [i|] eqn:E; [now exists i|].
  apply indexOf_none in E. congruence.
Qed.

Lemma splitOn_first a sep : forall s i,
  indexOf (String a sep) s = Some i ->
  splitOn (String a sep) 0 s
  = take i s
    :: splitOn (String a sep) 0 (drop (i + String.length (String a sep)) s).
Proof.
  induction s as [|c s IH]; intros i.
  - cbn [indexOf startsWith]. discriminate.
  - change (indexOf (String a sep) (String c s))
      with (if startsWith (String a sep) (String c s) then Some 0
            else option_map S (indexOf (String a sep) s)).
    change (splitOn (String a sep) 0 (String c s))
      with (if startsWith (String a sep) (String c s)
            then EmptyString
                 :: splitOn (String a sep)
                      (String.length (String a sep) - 1) s
            else match splitOn (String a sep) 0 s with
                 | [] => [String c EmptyString]
                 | p :: ps => String c p :: ps
                 end).
    destruct (startsWith (String a sep) (String c s)) eqn:E.
    + intros [= <-]. cbn [take]. f_equal.
      apply startsWith_inv in E. cbn [append] in E.
      injection E as _ E.
      change (0 + String.length (String a sep)) with (S (String.length sep)).
      change (drop (S (String.length sep)) (String c s))
        with (drop (String.length sep) s).
      change (String.length (String a sep) - 1)
        with (String.length sep - 0).
      rewrite Nat.sub_0_r.
      cbn [String.length drop] in E. rewrite E at 1.
      apply splitOn_skip.
    + destruct (indexOf (String a sep) s) as [j|] eqn:Ej; [|discriminate].
      intros [= <-]. rewrite (IH j eq_refl). reflexivity.
Qed.

(** The second part of [split] is what follows the first separator, up
    to the next one. *)
Lemma split_second m html :
  m <> EmptyString -> includes m html = true ->
  nth 1 (split m html) EmptyString = upToNext m (afterFirst m html).
Proof.
  intros Hm H. destruct m as [|a sep]; [contradiction|].
  destruct (indexOf_some _ _ H) as [i Ei].
  unfold split, afterFirst, upToNext. rewrite Ei.
  rewrite (splitOn_first a sep html i Ei). cbn [nth].
  set (rest := drop (i + String.length (String a sep)) html).
  destruct (indexOf (String a sep) rest) as [j|] eqn:Ej.
  - now rewrite (splitOn_first a sep rest j Ej).
  - apply indexOf_none in Ej. now rewrite (splitOn_none _ _ Ej).
Qed.

(** The text the source scans is the text that follows the marker up
    to the marker's next occurrence. *)
Lemma afterMarker_reading varName html :
  varName <> EmptyString ->
  afterMarker varName html = upToNextMarker varName html.
Proof.
  intros Hn. unfold afterMarker, upToNextMarker, marker.
  rewrite (split_length _ html (ExtractorFacts.marker_nonempty varName)).
  rewrite (split_length _ html Hn).
  destruct (includes ("var " ++ varName) html) eqn:E1; cbn [negb].
  - f_equal. apply split_second;
      [apply ExtractorFacts.marker_nonempty | exact E1].
  - destruct (includes varName html) eqn:E2; cbn [negb]; [|reflexivity].
    f_equal. now apply split_second.
Qed.

(** ** The literal the scan bounds *)

Lemma take_snoc x c y : take (String.length x + 1) (x ++ String c y)
                        = x ++ String c "".
Proof.
  induction x as [|d x IH]; [reflexivity|].
  cbn [String.length Nat.add take append]. now rewrite IH.
Qed.

Lemma app_same_length (x y x' y' : string) :
  x ++ y = x' ++ y' -> String.length x = String.length x' -> x = x'.
Proof.
  revert x'. induction x as [|c x IH]; intros [|c' x'] E L;
    try discriminate L; [reflexivity|].
  cbn [append] in E. injection E as -> E. f_equal.
  apply IH; [exact E | now injection L].
Qed.

Lemma findEnd_literal i t e :
  findEnd i t = Some e ->
  literalOf (drop i t) (substring i (e + 1) t).
Proof.
  unfold findEnd. intros H. apply ScannerFacts.scanLoop_spec in H.
  destruct H as (pre & post & st & Et & -> & Hrun & He & Hi & Hb).
  exists pre, post. split; [exact Et|]. split; [now exists st|].
  unfold substring. rewrite Et.
  replace (i + String.length pre + 1 - i) with (String.length pre + 1)
    by lia.
  apply take_snoc.
Qed.

Lemma literal_findEnd i t literal :
  literalOf (drop i t) literal ->
  exists e, findEnd i t = Some e /\ substring i (e + 1) t = literal.
Proof.
  intros (pre & post & Et & (st & Hrun & He & Hi & Hb) & ->).
  exists (i + String.length pre). split.
  - unfold findEnd. apply ScannerFacts.scanLoop_spec.
    now exists pre, post, st.
  - unfold substring. rewrite Et.
    replace (i + String.length pre + 1 - i) with (String.length pre + 1)
      by lia.
    apply take_snoc.
Qed.

Lemma literal_unique t literal literal' :
  literalOf t literal -> literalOf t literal' -> literal = literal'.
Proof.
  intros H H'.
  destruct (literal_findEnd 0 t literal H) as (e & E1 & <-).
  destruct (literal_findEnd 0 t literal' H') as (e' & E1' & <-).
  congruence.
Qed.

(** The literal the source extracts, on the text of the page. *)
Lemma extractLiteral_reading varName html :
  varName <> EmptyString ->
  extractLiteral varName html =
  match upToNextMarker varName html with
  | None => None
  | Some t =>
      match indexOf "{" t with
      | None => None
      | Some i =>
          match findEnd i t with
          | None => None
          | Some e => Some (substring i (e + 1) t)
          end
      end
  end.
Proof.
  intros Hn. rewrite ExtractorFacts.extractLiteral_afterMarker.
  now rewrite afterMarker_reading.
Qed.

Lemma extractLiteral_some varName html literal :
  varName <> EmptyString ->
  extractLiteral varName html = Some literal <->
  exists t b,
    upToNextMarker varName html = Some t /\ fromBrace t = Some b
    /\ literalOf b literal.
Proof.
  intros Hn. rewrite (extractLiteral_reading _ _ Hn). unfold fromBrace.
  destruct (upToNextMarker varName html) as [t|].
  2:{ split; [discriminate | intros (t & b & H & _); discriminate]. }
  destruct (indexOf "{" t) as [i|] eqn:Ei.
  2:{ split; [discriminate|]. intros (t' & b & [= <-] & H & _).
      rewrite Ei in H. discriminate. }
  split.
  - destruct (findEnd i t) as [e|] eqn:E; [|discriminate].
    intros [= <-]. exists t, (drop i t).
    split; [reflexivity|]. split; [now rewrite Ei|].
    now apply findEnd_literal.
  - intros (t' & b & [= <-] & Hb & H). rewrite Ei in Hb.
    injection Hb as <-.
    destruct (literal_findEnd i t literal H) as (e & -> & ->). reflexivity.
Qed.

Lemma marker_none varName html :
  marker varName html = None <-> markerAbsent varName html.
Proof.
  unfold marker, markerAbsent.
  destruct (includes ("var " ++ varName) html),
    (includes varName html); split; try easy; intros [? ?]; discriminate.
Qed.

(** The primary strategy gives up exactly for the four reasons, read on
    the text that follows the marker up to its next occurrence. *)
Lemma primary_fails JSON_parse varName html videoId :
  varName <> EmptyString ->
  (exists e, parseCharByChar JSON_parse varName html videoId = Err e)
  <-> primaryFails upToNextMarker JSON_parse varName html.
Proof.
  intros Hn. unfold parseCharByChar, primaryFails, noBrace, unbalanced,
    notJson.
  destruct (extractLiteral varName html) as [literal|] eqn:E.
  - apply (extractLiteral_some _ _ _ Hn) in E.
    destruct E as (t & b & Et & Eb & Hl).
    destruct (JSON_parse literal) eqn:Ej.
    + split; [intros [e He]; discriminate|].
      intros [H | [(t' & Ht & Hb) | [(t' & b' & Ht & Hb & H)
                                        | (t' & b' & l' & Ht & Hb & H & Hj)]]].
      * unfold upToNextMarker in Et.
        now rewrite (proj2 (marker_none _ _) H) in Et.
      * congruence.
      * rewrite Et in Ht. injection Ht as <-. rewrite Eb in Hb.
        injection Hb as <-. now destruct (H literal).
      * rewrite Et in Ht. injection Ht as <-. rewrite Eb in Hb.
        injection Hb as <-. rewrite (literal_unique _ _ _ H Hl) in Hj.
        congruence.
    + split; [|eexists; reflexivity]. intros _. right. right. right.
      now exists t, b, literal.
  - split; [|eexists; reflexivity]. intros _.
    rewrite (extractLiteral_reading _ _ Hn) in E.
    destruct (upToNextMarker varName html) as [t|] eqn:Et.
    2:{ left. apply marker_none. unfold upToNextMarker in Et.
        now destruct (marker varName html). }
    right. unfold fromBrace.
    destruct (indexOf "{" t) as [i|] eqn:Ei.
    2:{ left. exists t. now rewrite Ei. }
    right. left. exists t, (drop i t). rewrite Ei.
    split; [reflexivity|]. split; [reflexivity|]. intros literal H.
    destruct (literal_findEnd i t literal H) as (e & He & _).
    rewrite He in E. discriminate.
Qed.

(** ** Pages on which extraction returns *)

Lemma closes_brace pre :
  closes pre -> startsWith "{" (pre ++ "}") = true ->
  exists pre', pre = String "{" pre'.
Proof.
  intros (st & Hrun & _ & _ & Hb) Hs. destruct pre as [|c pre].
  - injection Hrun as <-. discriminate Hb.
  - cbn [append startsWith] in Hs. rewrite andb_true_r in Hs.
    apply Ascii.eqb_eq in Hs. subst c. now exists pre.
Qed.

(** A plain assignment of a literal the scan bounds, free of the
    marker, is read by the primary strategy. *)
Lemma assignment_read JSON_parse varName literal pre v videoId :
  identifier varName = true ->
  literal = pre ++ "}" -> closes pre -> startsWith "{" literal = true ->
  includes ("var " ++ varName) literal = false ->
  JSON_parse literal = Some v ->
  parse JSON_parse varName (rewrap varName literal) videoId = Ok v.
Proof.
  intros Hid -> Hc Hs Hm Hv.
  destruct (closes_brace pre Hc Hs) as [pre' ->].
  destruct Hc as (st & Hrun & He & Hi & Hb).
  unfold parse, parseCharByChar.
  rewrite (ExtractorFacts.extractLiteral_rewrap varName _ pre' st
             Hid Hm eq_refl Hrun He Hi Hb).
  now rewrite Hv.
Qed.

Lemma skipSpaces_fixed s :
  match s with
  | String c _ => isSpace c = false
  | EmptyString => True
  end -> skipSpaces s = s.
Proof. destruct s as [|c s]; [reflexivity|]. cbn [skipSpaces]. now intros ->. Qed.

Lemma objectEnd_flat body : forall sawOpen n rest,
  includes "}" body = false ->
  objectEnd true sawOpen n (body ++ String "}" (String ";" rest))
  = Some (S (n + String.length body)).
Proof.
  induction body as [|c body IH]; intros sawOpen n rest H.
  - cbn [append objectEnd]. cbn. f_equal. lia.
  - pose proof (includes_false_startsWith _ _ H) as Hs.
    pose proof (includes_false_tail _ _ _ H) as Ht.
    change (startsWith "}" (String c body)) with (Ascii.eqb "}" c && true)
      in Hs.
    rewrite andb_true_r, Ascii.eqb_sym in Hs.
    cbn [append objectEnd]. rewrite Hs.
    rewrite (IH _ _ _ Ht). cbn [String.length]. f_equal. lia.
Qed.

Lemma identifier_head varName :
  identifier varName = true ->
  exists c r, varName = String c r /\ isSpace c = false.
Proof.
  destruct varName as [|c r]; [discriminate|]. cbn [identifier identName].
  intros H. apply andb_true_iff in H. destruct H as [H _].
  exists c, r. split; [reflexivity|].
  unfold identChar in H. destruct (isSpace c) eqn:E; [|reflexivity].
  exfalso. revert H E. unfold isWord, isDigit, isSpace.
  set (n := nat_of_ascii c).
  destruct (Ascii.eqb_spec c "$") as [-> | _]; [discriminate 2|].
  rewrite orb_false_r. intros H E.
  destruct (Nat.leb_spec 9 n), (Nat.leb_spec n 13), (Nat.eqb_spec n 32),
    (Nat.eqb_spec n 160), (Nat.leb_spec 48 n), (Nat.leb_spec n 57),
    (Nat.leb_spec 65 n), (Nat.leb_spec n 90), (Nat.leb_spec 97 n),
    (Nat.leb_spec n 122), (Nat.eqb_spec n 95);
    cbn in H, E; try discriminate; lia.
Qed.

(** The first pattern matches a plain assignment of a flat literal at
    its start. *)
Lemma matchVarAssign_flat varName body :
  identifier varName = true -> includes "}" body = false ->
  matchVarAssign varName (rewrap varName (String "{" body ++ "}"))
  = Some (String "{" body ++ "}").
Proof.
  intros Hid Hb. destruct (identifier_head _ Hid) as (c & r & En & Hc).
  unfold matchVarAssign, rewrap.
  change (eat "var" ("var " ++ varName ++ " = " ++ (String "{" body ++ "}")
                     ++ ";"))
    with (Some (String " " (varName ++ " = " ++ (String "{" body ++ "}")
                            ++ ";"))).
  cbv iota beta. change (isSpace " ") with true. cbv iota.
  change (skipSpaces (String " " (varName ++ " = "
                                  ++ (String "{" body ++ "}") ++ ";")))
    with (skipSpaces (varName ++ " = " ++ (String "{" body ++ "}") ++ ";")).
  rewrite (skipSpaces_fixed (varName ++ _))
    by (rewrite En; exact Hc).
  rewrite ApiFacts.eat_app.
  change (skipSpaces (" = " ++ (String "{" body ++ "}") ++ ";"))
    with ("= " ++ (String "{" body ++ "}") ++ ";").
  change (eat "=" ("= " ++ (String "{" body ++ "}") ++ ";"))
    with (Some (" " ++ (String "{" body ++ "}") ++ ";")).
  cbv iota beta.
  change (skipSpaces (" " ++ (String "{" body ++ "}") ++ ";"))
    with (String "{" ((body ++ "}") ++ ";")).
  unfold objectLiteral. change (Ascii.eqb "{" "{") with true. cbv iota.
  rewrite append_assoc.
  change ("}" ++ ";") with (String "}" (String ";" "")).
  rewrite (objectEnd_flat body false 1 "" Hb). f_equal.
  change (take (S (1 + String.length body))
            (String "{" (body ++ String "}" (String ";" ""))))
    with (String "{" (take (S (String.length body))
                        (body ++ String "}" (String ";" "")))).
  replace (S (String.length body)) with (String.length body + 1) by lia.
  now rewrite take_snoc.
Qed.

End ExhaustionFacts.

(* ================================================================== *)
(** * The fallback expressions and the code that matches them *)
(* ================================================================== *)

Module PatternFacts.
Import Js JsVarParser Pattern StringFacts.

(** ** Object literals *)

Lemma run_cons c w : run (String c w) -> c <> "}"%char /\ run w.
Proof.
  unfold run. rewrite includes_cons. intros H.
  apply orb_false_iff in H. destruct H as [Hs H]. split; [|exact H].
  intros ->. discriminate Hs.
Qed.

Lemma cons_run c w : c <> "}"%char -> run w -> run (String c w).
Proof.
  unfold run. intros Hc H. rewrite includes_cons, H, orb_false_r.
  cbn [startsWith]. rewrite andb_true_r.
  destruct (Ascii.eqb_spec "}" c) as [E|]; [now destruct Hc | reflexivity].
Qed.

Lemma not_close c : c <> "}"%char -> Ascii.eqb c "}" = false.
Proof. intros H. now destruct (Ascii.eqb_spec c "}"). Qed.

Lemma segmented_open a : forall y,
  run a -> segmented true (a ++ y) = segmented true y.
Proof.
  induction a as [|c a IH]; intros y H; [reflexivity|].
  apply run_cons in H. destruct H as [Hc H].
  cbn [append segmented]. rewrite (not_close c Hc). cbn [orb].
  now apply IH.
Qed.

Lemma segmented_run a : forall y sawOpen,
  run a -> (forall b, segmented b y = true) ->
  segmented sawOpen (a ++ y) = true.
Proof.
  induction a as [|c a IH]; intros y sawOpen H Hy; [apply Hy|].
  apply run_cons in H. destruct H as [Hc H].
  cbn [append segmented]. rewrite (not_close c Hc). now apply IH.
Qed.

Lemma segmented_groups gs :
  groups gs -> forall sawOpen, segmented sawOpen gs = true.
Proof.
  induction 1 as [|a b rest Ha Hb _ IH]; intros sawOpen; [reflexivity|].
  change ("{" ++ a ++ "}" ++ b ++ rest)
    with (String "{" (a ++ String "}" (b ++ rest))).
  cbn [segmented]. change (Ascii.eqb "{" "}") with false. cbv iota.
  change (Ascii.eqb "{" "{") with true. rewrite orb_true_r.
  rewrite (segmented_open a _ Ha). cbn [segmented].
  change (Ascii.eqb "}" "}") with true. cbv iota. cbn [andb].
  now apply segmented_run.
Qed.

Lemma inner_cons c x : c <> "}"%char -> inner x -> inner (String c x).
Proof.
  intros Hc (a & gs & Ha & Hg & ->). exists (String c a), gs.
  split; [now apply cons_run|]. now split.
Qed.

Lemma segmented_inner : forall x,
  (segmented false x = true -> inner x)
  /\ (segmented true x = true -> inner x \/ closing x).
Proof.
  induction x as [|c x [IHf IHt]].
  - split; intros _; [|left]; exists "", ""; repeat split; constructor.
  - cbn [segmented]. destruct (Ascii.eqb_spec c "}") as [-> | Hc].
    + split; [discriminate|]. cbn [andb]. intros H. right.
      destruct (IHf H) as (a & gs & Ha & Hg & ->).
      exists "", a, gs. repeat split; [exact Ha | exact Hg].
    + destruct (Ascii.eqb_spec c "{") as [-> | Ho].
      * rewrite orb_true_r.
        assert (Hi : segmented true x = true -> inner (String "{" x)).
        { intros H. destruct (IHt H) as [Hx | (a & b & gs & Ha & Hb & Hg & ->)].
          - now apply inner_cons.
          - exists "", ("{" ++ a ++ "}" ++ b ++ gs).
            split; [reflexivity|]. split; [now constructor | reflexivity]. }
        split; intros H; [|left]; now apply Hi.
      * rewrite !orb_false_r. split; intros H.
        -- apply (inner_cons _ _ Hc), IHf, H.
        -- destruct (IHt H) as [Hx | (a & b & gs & Ha & Hb & Hg & ->)].
           ++ left. now apply inner_cons.
           ++ right. exists (String c a), b, gs.
              split; [now apply cons_run|]. now repeat split.
Qed.

Lemma inner_segmented x : inner x <-> segmented false x = true.
Proof.
  split; [|apply segmented_inner].
  intros (a & gs & Ha & Hg & ->).
  apply (segmented_run a gs false Ha), (segmented_groups gs Hg).
Qed.

Lemma objectText_inner g :
  objectText g <-> exists x, inner x /\ g = String "{" (x ++ "}").
Proof.
  split.
  - intros (a & gs & Ha & Hg & ->). exists (a ++ gs).
    split; [now exists a, gs|]. cbn [append]. now rewrite append_assoc.
  - intros (x & (a & gs & Ha & Hg & ->) & ->). exists a, gs.
    split; [exact Ha|]. split; [exact Hg|]. cbn [append].
    now rewrite append_assoc.
Qed.

(** [objectEnd] stops at a closing brace that ends an object literal
    and is followed by what the expression asks for, *)
Lemma objectEnd_sound : forall s semi sawOpen n k,
  objectEnd semi sawOpen n s = Some k ->
  exists x tail,
    s = x ++ String "}" tail /\ k = n + String.length x + 1
    /\ segmented sawOpen x = true
    /\ (semi = true -> startsWith ";" tail = true).
Proof.
  induction s as [|c s IH]; intros semi sawOpen n k; [discriminate|].
  cbn [objectEnd]. destruct (Ascii.eqb_spec c "}") as [-> | Hc].
  - destruct (negb semi || startsWith ";" s) eqn:E.
    + intros [= <-]. exists "", s. split; [reflexivity|].
      split; [simpl; lia|]. split; [reflexivity|]. intros ->. exact E.
    + destruct sawOpen; [|discriminate]. intros H.
      destruct (IH _ _ _ _ H) as (x & tail & -> & -> & Hx & Ht).
      exists (String "}" x), tail. split; [reflexivity|].
      split; [simpl; lia|]. split; [exact Hx | exact Ht].
  - intros H. destruct (IH _ _ _ _ H) as (x & tail & -> & -> & Hx & Ht).
    exists (String c x), tail. split; [reflexivity|].
    split; [simpl; lia|]. split; [|exact Ht].
    cbn [segmented]. now rewrite (not_close c Hc).
Qed.

(** and at the first of them. *)
Lemma objectEnd_complete : forall x semi sawOpen n tail,
  segmented sawOpen x = true ->
  (semi = true -> startsWith ";" tail = true) ->
  exists k, objectEnd semi sawOpen n (x ++ String "}" tail) = Some k
            /\ k <= n + String.length x + 1.
Proof.
  induction x as [|c x IH]; intros semi sawOpen n tail Hx Ht.
  - exists (S n). cbn [append objectEnd].
    change (Ascii.eqb "}" "}") with true. cbv iota.
    destruct semi; cbn [negb orb]; [rewrite (Ht eq_refl)|];
      (split; [reflexivity | simpl; lia]).
  - cbn [append objectEnd]. cbn [segmented] in Hx.
    destruct (Ascii.eqb c "}").
    + destruct (negb semi || startsWith ";" (x ++ String "}" tail)).
      * exists (S n). split; [reflexivity | simpl; lia].
      * apply andb_true_iff in Hx. destruct Hx as [-> Hx].
        destruct (IH semi false (S n) tail Hx Ht) as (k & -> & Hk).
        exists k. split; [reflexivity | simpl; lia].
    + destruct (IH semi _ (S n) tail Hx Ht) as (k & -> & Hk).
      exists k. split; [reflexivity | simpl; lia].
Qed.

Lemma take_length n : forall s,
  n <= String.length s -> String.length (take n s) = n.
Proof.
  induction n as [|n IH]; intros [|c s] H; cbn in *; try lia.
  rewrite IH; lia.
Qed.

Lemma objectLiteral_sound semi s g :
  objectLiteral semi s = Some g ->
  objectText g
  /\ exists tail, s = g ++ tail
                  /\ (semi = true -> startsWith ";" tail = true).
Proof.
  unfold objectLiteral. destruct s as [|c s]; [discriminate|].
  destruct (Ascii.eqb_spec c "{") as [-> |]; [|discriminate].
  destruct (objectEnd semi false 1 s) as [k|] eqn:E; [|discriminate].
  intros [= <-]. apply objectEnd_sound in E.
  destruct E as (x & tail & -> & -> & Hx & Ht).
  change (take (1 + String.length x + 1) (String "{" (x ++ String "}" tail)))
    with (String "{" (take (String.length x + 1) (x ++ String "}" tail))).
  rewrite ExhaustionFacts.take_snoc. split.
  - apply objectText_inner. exists x. split; [|reflexivity].
    now apply inner_segmented.
  - exists tail. split; [|exact Ht]. cbn [append].
    rewrite append_assoc. reflexivity.
Qed.

Lemma objectLiteral_complete semi g tail :
  objectText g -> (semi = true -> startsWith ";" tail = true) ->
  exists g0, objectLiteral semi (g ++ tail) = Some g0
             /\ String.length g0 <= String.length g
             /\ (String.length g <= String.length g0 -> g0 = g).
Proof.
  intros Hg Ht. apply objectText_inner in Hg. destruct Hg as (x & Hx & ->).
  apply inner_segmented in Hx.
  destruct (objectEnd_complete x semi false 1 tail Hx Ht) as (k & E & Hk).
  unfold objectLiteral. cbn [append]. change (Ascii.eqb "{" "{") with true.
  cbv iota. rewrite append_assoc. cbn [append]. rewrite E.
  exists (take k (String "{" (x ++ String "}" tail))).
  split; [reflexivity|].
  assert (Hl : String.length (String "{" (x ++ "}")) = 1 + String.length x + 1).
  { cbn [String.length]. rewrite append_length. simpl. lia. }
  assert (Hk' : k <= String.length (String "{" (x ++ String "}" tail))).
  { cbn [String.length]. rewrite append_length. simpl. lia. }
  rewrite (take_length k _ Hk'), Hl. split; [exact Hk|]. intros H.
  replace k with (1 + String.length x + 1) by lia.
  change (take (1 + String.length x + 1) (String "{" (x ++ String "}" tail)))
    with (String "{" (take (String.length x + 1) (x ++ String "}" tail))).
  now rewrite ExhaustionFacts.take_snoc.
Qed.

(** ** White space *)

Lemma skipSpaces_spaces ws rest :
  spaces ws = true -> skipSpaces rest = rest ->
  skipSpaces (ws ++ rest) = rest.
Proof.
  intros H Hr. induction ws as [|c ws IH]; [exact Hr|].
  cbn [spaces] in H. apply andb_true_iff in H. destruct H as [Hc H].
  cbn [append skipSpaces]. rewrite Hc. now apply IH.
Qed.

Lemma skipSpaces_split : forall s,
  exists ws, spaces ws = true /\ s = ws ++ skipSpaces s.
Proof.
  induction s as [|c s (ws & Hw & E)]; [now exists ""|].
  cbn [skipSpaces]. destruct (isSpace c) eqn:Ec; [|now exists ""].
  exists (String c ws). split; [cbn [spaces]; now rewrite Ec, Hw|].
  cbn [append]. now rewrite <- E.
Qed.

Lemma skipSpaces_head c s : isSpace c = false ->
  skipSpaces (String c s) = String c s.
Proof. intros H. cbn [skipSpaces]. now rewrite H. Qed.

(** ** The three expressions *)

Lemma objectText_head g : objectText g -> forall tail,
  skipSpaces (g ++ tail) = g ++ tail.
Proof. intros (a & gs & _ & _ & ->) tail. reflexivity. Qed.

Lemma semi_tail tail :
  (true = true -> startsWith ";" tail = true) ->
  exists after, tail = String ";" after.
Proof.
  intros H. specialize (H eq_refl). destruct tail as [|c tail];
    [discriminate|].
  cbn [startsWith] in H. rewrite andb_true_r in H.
  apply Ascii.eqb_eq in H. subst c. now exists tail.
Qed.

Lemma eat_char c s : eat (String c "") (String c s) = Some s.
Proof. exact (ApiFacts.eat_app (String c "") s). Qed.

Lemma assign_sound varName s g :
  matchAssign varName s = Some g ->
  exists m after, s = m ++ after /\ assign varName m g.
Proof.
  unfold matchAssign.
  destruct (eat varName s) as [s2|] eqn:E2; [|discriminate].
  destruct (eat "=" (skipSpaces s2)) as [s3|] eqn:E3; [|discriminate].
  intros H. apply objectLiteral_sound in H.
  destruct H as (Hg & tail & E & Ht).
  destruct (semi_tail _ Ht) as [after ->].
  destruct (skipSpaces_split s2) as (ws2 & H2 & Es2).
  destruct (skipSpaces_split s3) as (ws3 & H3 & Es3).
  apply ApiFacts.eat_inv in E2, E3.
  exists (varName ++ ws2 ++ "=" ++ ws3 ++ g ++ ";"), after. split.
  - rewrite E2, Es2, E3, Es3, E. now rewrite !append_assoc.
  - now exists ws2, ws3.
Qed.

Lemma assign_complete varName m g after :
  assign varName m g ->
  exists g0, matchAssign varName (m ++ after) = Some g0
             /\ String.length g0 <= String.length g
             /\ (String.length g <= String.length g0 -> g0 = g).
Proof.
  intros (ws2 & ws3 & H2 & H3 & Hg & ->). unfold matchAssign.
  rewrite !append_assoc. rewrite ApiFacts.eat_app.
  rewrite (skipSpaces_spaces ws2 _ H2) by reflexivity.
  rewrite (ApiFacts.eat_app "=").
  rewrite (skipSpaces_spaces ws3 _ H3) by apply (objectText_head g Hg).
  apply (objectLiteral_complete true g (";" ++ after) Hg).
  reflexivity.
Qed.

Lemma varAssign_sound varName s g :
  matchVarAssign varName s = Some g ->
  exists m after, s = m ++ after /\ varAssign varName m g.
Proof.
  unfold matchVarAssign.
  destruct (eat "var" s) as [s1|] eqn:E1; [|discriminate].
  destruct s1 as [|c s1]; [discriminate|].
  destruct (isSpace c) eqn:Ec; [|discriminate].
  destruct (eat varName (skipSpaces (String c s1))) as [s2|] eqn:E2;
    [|discriminate].
  destruct (eat "=" (skipSpaces s2)) as [s3|] eqn:E3; [|discriminate].
  intros H. apply objectLiteral_sound in H.
  destruct H as (Hg & tail & E & Ht).
  destruct (semi_tail _ Ht) as [after ->].
  cbn [skipSpaces] in E2. rewrite Ec in E2.
  destruct (skipSpaces_split s1) as (ws1 & H1 & Es1).
  destruct (skipSpaces_split s2) as (ws2 & H2 & Es2).
  destruct (skipSpaces_split s3) as (ws3 & H3 & Es3).
  apply ApiFacts.eat_inv in E1, E2, E3.
  exists ("var" ++ String c ws1 ++ varName ++ ws2 ++ "=" ++ ws3 ++ g ++ ";"),
    after. split.
  - rewrite E1. rewrite Es1, E2, Es2, E3, Es3, E.
    now rewrite !append_assoc.
  - exists (String c ws1), ws2, ws3. cbn [spaces]. rewrite Ec, H1.
    repeat split; try assumption. discriminate.
Qed.

Lemma varAssign_complete varName m g after :
  Contract.identifier varName = true ->
  varAssign varName m g ->
  exists g0, matchVarAssign varName (m ++ after) = Some g0
             /\ String.length g0 <= String.length g
             /\ (String.length g <= String.length g0 -> g0 = g).
Proof.
  intros Hid (ws1 & ws2 & ws3 & H1 & Hn & H2 & H3 & Hg & ->).
  destruct (ExhaustionFacts.identifier_head _ Hid) as (c & r & En & Hc).
  unfold matchVarAssign.
  rewrite !append_assoc. rewrite (ApiFacts.eat_app "var").
  destruct ws1 as [|d ws1]; [contradiction|].
  cbn [spaces] in H1. apply andb_true_iff in H1. destruct H1 as [Hd H1].
  cbn [append]. rewrite Hd. cbn [skipSpaces]. rewrite Hd.
  rewrite (skipSpaces_spaces ws1 _ H1)
    by (rewrite En; apply (skipSpaces_head c _ Hc)).
  rewrite ApiFacts.eat_app.
  rewrite (skipSpaces_spaces ws2 _ H2) by reflexivity.
  rewrite eat_char.
  rewrite (skipSpaces_spaces ws3 _ H3) by apply (objectText_head g Hg).
  apply (objectLiteral_complete true g (";" ++ after) Hg).
  reflexivity.
Qed.

Lemma property_sound varName s g :
  matchProperty varName s = Some g ->
  exists m after, s = m ++ after /\ property varName m g.
Proof.
  unfold matchProperty.
  destruct (eat (String dquote varName ++ String dquote "") s)
    as [s2|] eqn:E2; [|discriminate].
  destruct (eat ":" (skipSpaces s2)) as [s3|] eqn:E3; [|discriminate].
  intros H. apply objectLiteral_sound in H.
  destruct H as (Hg & tail & E & _).
  destruct (skipSpaces_split s2) as (ws2 & H2 & Es2).
  destruct (skipSpaces_split s3) as (ws3 & H3 & Es3).
  apply ApiFacts.eat_inv in E2, E3.
  exists (String dquote varName ++ String dquote "" ++ ws2 ++ ":" ++ ws3 ++ g),
    tail. split.
  - rewrite E2, Es2, E3, Es3, E. now rewrite !append_assoc.
  - now exists ws2, ws3.
Qed.

Lemma property_complete varName m g after :
  property varName m g ->
  exists g0, matchProperty varName (m ++ after) = Some g0
             /\ String.length g0 <= String.length g
             /\ (String.length g <= String.length g0 -> g0 = g).
Proof.
  intros (ws2 & ws3 & H2 & H3 & Hg & ->). unfold matchProperty.
  replace ((String dquote varName ++ String dquote "" ++ ws2 ++ ":"
            ++ ws3 ++ g) ++ after)
    with ((String dquote varName ++ String dquote "")
          ++ ws2 ++ ":" ++ ws3 ++ g ++ after)
    by (now rewrite !append_assoc).
  rewrite ApiFacts.eat_app.
  rewrite (skipSpaces_spaces ws2 _ H2) by reflexivity.
  rewrite (ApiFacts.eat_app ":").
  rewrite (skipSpaces_spaces ws3 _ H3) by apply (objectText_head g Hg).
  apply (objectLiteral_complete false g after Hg). discriminate.
Qed.

(** ** The leftmost match *)

Lemma firstMatch_leftmost m : forall s g,
  firstMatch m s = Some g <->
  exists before rest,
    s = before ++ rest /\ m rest = Some g
    /\ forall before' rest',
         s = before' ++ rest' ->
         String.length before' < String.length before -> m rest' = None.
Proof.
  induction s as [|c s IH]; intros g.
  - cbn [firstMatch]. split.
    + destruct (m "") eqn:E; [|discriminate]. intros [= <-].
      exists "", "". repeat split; [exact E|]. simpl. lia.
    + intros ([|] & rest & E & H & _); [|discriminate].
      cbn [append] in E. subst rest. now rewrite H.
  - cbn [firstMatch]. destruct (m (String c s)) as [g'|] eqn:E.
    + split.
      * intros [= <-]. exists "", (String c s).
        repeat split; [exact E|]. simpl. lia.
      * intros ([|d before] & rest & Es & H & Hl).
        -- cbn [append] in Es. subst rest. congruence.
        -- specialize (Hl "" (String c s) eq_refl). cbn in Hl.
           rewrite Hl in E by lia. discriminate.
    + rewrite IH. split.
      * intros (before & rest & -> & H & Hl).
        exists (String c before), rest. repeat split; [exact H|].
        intros [|d b'] r' Es Hlt.
        -- cbn [append] in Es. now subst r'.
        -- cbn [append] in Es. injection Es as _ Es.
           apply (Hl b' r' Es). simpl in Hlt. lia.
      * intros ([|d before] & rest & Es & H & Hl).
        -- cbn [append] in Es. subst rest. congruence.
        -- cbn [append] in Es. injection Es as _ Es.
           exists before, rest. repeat split; [exact Es | exact H|].
           intros b' r' Es' Hlt.
           apply (Hl (String c b') r'); [now rewrite Es' | simpl; lia].
Qed.

(** [regexMatch] returns what the expression matches in the page, for
    a pattern that finds a match of the expression where one starts and
    ends it at the earliest brace. *)
Lemma regexMatch_matched varName
    (expression : string -> string -> Prop)
    (pattern : string -> option string) html g :
  (forall s g,
     pattern s = Some g ->
     exists m after, s = m ++ after /\ expression m g) ->
  (forall m g after,
     expression m g ->
     exists g0, pattern (m ++ after) = Some g0
                /\ String.length g0 <= String.length g
                /\ (String.length g <= String.length g0 -> g0 = g)) ->
  regexMatch varName pattern html = Some g
  <-> matched varName expression html g.
Proof.
  intros sound complete. unfold regexMatch, matched.
  destruct (includes "$" varName);
    [split; [discriminate | intros [? _]; discriminate]|].
  rewrite firstMatch_leftmost. split.
  - intros (before & rest & -> & H & Hl). split; [reflexivity|].
    destruct (sound _ _ H) as (m & after & -> & He).
    exists before, m, after. split; [reflexivity|]. split; [exact He|].
    intros before' m' after' g' Es He'. split.
    + destruct (Nat.le_gt_cases (String.length before)
                  (String.length before')) as [Hle | Hlt]; [exact Hle|].
      destruct (complete m' g' after' He') as (g0 & E0 & _).
      rewrite (Hl before' (m' ++ after') Es Hlt) in E0. discriminate.
    + intros Hb.
      assert (Eb : before' = before)
        by exact (ExhaustionFacts.app_same_length _ _ _ _ (eq_sym Es) Hb).
      subst before'.
      assert (Er : m' ++ after' = m ++ after).
      { apply (f_equal (drop (String.length before))) in Es.
        now rewrite !drop_app_length in Es. }
      destruct (complete m' g' after' He') as (g0 & E0 & Hg0 & _).
      rewrite Er in E0. congruence.
  - intros (_ & before & m & after & -> & He & Hmin).
    exists before, (m ++ after). split; [reflexivity|]. split.
    + destruct (complete m g after He) as (g0 & E0 & Hle & Heq).
      rewrite E0. f_equal. apply Heq.
      destruct (sound _ _ E0) as (m0 & after0 & Em & He0).
      apply (Hmin before m0 after0 g0); [now rewrite Em | exact He0
                                        | reflexivity].
    + intros before' rest' Es Hlt.
      destruct (pattern rest') as [g1|] eqn:E1; [|reflexivity].
      destruct (sound _ _ E1) as (m1 & after1 & -> & He1).
      destruct (Hmin before' m1 after1 g1 Es He1) as [Hle _]. lia.
Qed.

(** Each pattern of the source returns what its expression matches. *)
Lemma patterns_matched varName html g :
  Contract.identifier varName = true ->
  (regexMatch varName (matchVarAssign varName) html = Some g
   <-> matched varName (varAssign varName) html g)
  /\ (regexMatch varName (matchAssign varName) html = Some g
      <-> matched varName (assign varName) html g)
  /\ (regexMatch varName (matchProperty varName) html = Some g
      <-> matched varName (property varName) html g).
Proof.
  intros Hid. split; [|split]; apply regexMatch_matched.
  - apply varAssign_sound.
  - intros m g' after. now apply varAssign_complete.
  - apply assign_sound.
  - intros m g' after. apply assign_complete.
  - apply property_sound.
  - intros m g' after. apply property_complete.
Qed.

(** ** The replacement of quotes *)

Lemma dot_terminator d : dot d = negb (isLineTerminator d).
Proof. reflexivity. Qed.

Lemma quotedBody_complete body :
  quotedText body -> forall m rest,
  quotedBody m (body ++ String squote rest)
  = Some (m + String.length body + 1).
Proof.
  induction 1 as [|c w Hq Hb _ IH|d w Hd _ IH]; intros m rest.
  - cbn [append quotedBody]. rewrite Ascii.eqb_refl. f_equal. simpl. lia.
  - cbn [append quotedBody].
    destruct (Ascii.eqb_spec c squote) as [|_]; [contradiction|].
    destruct (Ascii.eqb_spec c backslash) as [|_]; [contradiction|].
    rewrite IH. f_equal. simpl. lia.
  - cbn [append quotedBody].
    change (Ascii.eqb backslash squote) with false. cbv iota.
    rewrite Ascii.eqb_refl. rewrite dot_terminator in Hd.
    apply negb_true_iff in Hd. rewrite Hd, IH. f_equal. simpl. lia.
Qed.

Lemma quotedBody_sound len : forall s m n,
  String.length s <= len ->
  quotedBody m s = Some n ->
  exists body rest,
    quotedText body /\ s = body ++ String squote rest
    /\ n = m + String.length body + 1.
Proof.
  induction len as [|len IH]; intros [|c s] m n Hl; try discriminate.
  - simpl in Hl. lia.
  - simpl in Hl. cbn [quotedBody].
    destruct (Ascii.eqb_spec c squote) as [-> | Hq].
    + intros [= <-]. exists "", s. split; [constructor|].
      split; [reflexivity | simpl; lia].
    + destruct (Ascii.eqb_spec c backslash) as [-> | Hb].
      * destruct s as [|d s]; [discriminate|].
        destruct (isLineTerminator d) eqn:Ed; [discriminate|]. intros H.
        simpl in Hl. apply IH in H; [|lia].
        destruct H as (body & rest & Hbody & -> & ->).
        exists (String backslash (String d body)), rest.
        split; [|split; [reflexivity | simpl; lia]].
        constructor; [|exact Hbody]. rewrite dot_terminator.
        now rewrite Ed.
      * intros H. apply IH in H; [|lia].
        destruct H as (body & rest & Hbody & -> & ->).
        exists (String c body), rest.
        split; [now constructor|]. split; [reflexivity | simpl; lia].
Qed.

Lemma drop_close x y : drop (String.length x + 1) (x ++ String squote y) = y.
Proof.
  induction x as [|c x IH]; [reflexivity|]. exact IH.
Qed.

Lemma normalizeQuotes_literal body rest :
  quotedText body ->
  normalizeQuotes 0 (String squote body ++ String squote rest)
  = String dquote body ++ String dquote (normalizeQuotes 0 rest).
Proof.
  intros H. cbn [append normalizeQuotes]. rewrite Ascii.eqb_refl.
  rewrite (quotedBody_complete body H 0 rest).
  replace (0 + String.length body + 1 - 1) with (String.length body) by lia.
  rewrite take_app_length, PageFacts.normalizeQuotes_skip.
  change (0 + String.length body + 1) with (String.length body + 1).
  now rewrite drop_close.
Qed.

Lemma replaced_normalizeQuotes s t :
  replaced s t -> t = normalizeQuotes 0 s.
Proof.
  induction 1 as [|body rest rest' Hb _ IH|c rest rest' Hn _ IH].
  - reflexivity.
  - rewrite (normalizeQuotes_literal body rest Hb). now rewrite IH.
  - cbn [normalizeQuotes]. rewrite <- IH.
    destruct (Ascii.eqb_spec c squote) as [-> |]; [|reflexivity].
    destruct (quotedBody 0 rest) as [n|] eqn:E; [|reflexivity].
    apply (quotedBody_sound (String.length rest)) in E; [|lia].
    destruct E as (body & after & Hbody & -> & _).
    now destruct (Hn body after Hbody).
Qed.

Lemma normalizeQuotes_replaced len : forall s,
  String.length s <= len -> replaced s (normalizeQuotes 0 s).
Proof.
  induction len as [|len IH]; intros [|c s] Hl; try constructor.
  - simpl in Hl. lia.
  - simpl in Hl.
    assert (Hother :
              (forall body after, quotedText body ->
                 String c s <> String squote body ++ String squote after) ->
              replaced (String c s) (String c (normalizeQuotes 0 s))).
    { intros H. constructor; [exact H|]. apply IH. lia. }
    cbn [normalizeQuotes].
    destruct (Ascii.eqb_spec c squote) as [-> | Hc].
    + destruct (quotedBody 0 s) as [n|] eqn:E.
      * apply (quotedBody_sound (String.length s)) in E; [|lia].
        destruct E as (body & rest & Hbody & -> & ->).
        replace (0 + String.length body + 1 - 1) with (String.length body)
          by lia.
        rewrite take_app_length, PageFacts.normalizeQuotes_skip.
        change (0 + String.length body + 1) with (String.length body + 1).
        rewrite drop_close.
        apply (replaced_literal body rest _ Hbody), IH.
        rewrite append_length in Hl. simpl in Hl. lia.
      * apply Hother. intros body after Hbody Es.
        cbn [append] in Es. injection Es as ->.
        rewrite (quotedBody_complete body Hbody) in E. discriminate.
    + apply Hother. intros body after _ Es. cbn [append] in Es.
      injection Es as -> _. now destruct Hc.
Qed.

(** The replacement is the function [normalizeQuotes] computes. *)
Lemma replaced_spec s t : replaced s t <-> t = normalizeQuotes 0 s.
Proof.
  split; [apply replaced_normalizeQuotes|]. intros ->.
  apply (normalizeQuotes_replaced (String.length s)). lia.
Qed.

(** ** When the fallback gives up *)

Lemma fallback_fails JSON_parse varName html videoId :
  Contract.identifier varName = true ->
  (exists e, parseWithRegex JSON_parse varName html videoId = Err e)
  <-> fallbackFails JSON_parse varName html.
Proof.
  intros Hid. unfold parseWithRegex.
  rewrite ExtractorFacts.tryPatterns_fails. unfold fallbackFails. split.
  - intros H expression g t He Hm Ht. apply replaced_spec in Ht. subst t.
    destruct (patterns_matched varName html g Hid) as (H1 & H2 & H3).
    destruct He as [<- | [<- | [<- | []]]].
    + apply H1 in Hm.
      specialize (H (matchVarAssign varName) (or_introl eq_refl)).
      unfold patternValue in H. now rewrite Hm in H.
    + apply H2 in Hm.
      specialize (H (matchAssign varName) (or_intror (or_introl eq_refl))).
      unfold patternValue in H. now rewrite Hm in H.
    + apply H3 in Hm.
      specialize (H (matchProperty varName)
                    (or_intror (or_intror (or_introl eq_refl)))).
      unfold patternValue in H. now rewrite Hm in H.
  - intros H p Hp. unfold patternValue.
    destruct (regexMatch varName p html) as [g|] eqn:E; [|reflexivity].
    destruct (patterns_matched varName html g Hid) as (H1 & H2 & H3).
    destruct Hp as [<- | [<- | [<- | []]]].
    + apply (H (varAssign varName) g); [now left | now apply H1|].
      now apply replaced_spec.
    + apply (H (assign varName) g); [right; now left | now apply H2|].
      now apply replaced_spec.
    + apply (H (property varName) g);
        [right; right; now left | now apply H3|].
      now apply replaced_spec.
Qed.

End PatternFacts.

(* ================================================================== *)
(** * When extraction fails *)
(* ================================================================== *)

Module FailureFacts.
Import Js JsVarParser Contract StringFacts.

(** The one closing brace of a text is where any reading of it finds
    one. *)
Lemma unique_close x : forall rest pre post,
  includes "}" x = false -> includes "}" rest = false ->
  x ++ String "}" rest = pre ++ String "}" post -> pre = x.
Proof.
  induction x as [|d x IH]; intros rest pre post Hx Hr E.
  - destruct pre as [|c pre]; [reflexivity|]. exfalso.
    cbn [append] in E. injection E as _ E.
    rewrite E in Hr.
    rewrite (includes_app_r "}" pre (String "}" post)) in Hr;
      [discriminate | now apply startsWith_includes].
  - destruct pre as [|c pre].
    + exfalso. cbn [append] in E. injection E as -> _.
      rewrite includes_cons in Hx. discriminate Hx.
    + cbn [append] in E. injection E as -> E. f_equal.
      apply (IH rest pre post); [|exact Hr | exact E].
      now apply includes_false_tail in Hx.
Qed.

(** A flat literal in single quotes, assigned once: the primary
    strategy bounds it and gives up on its quotes, the first expression
    matches it. *)
Lemma flat_assignment_primary JSON_parse varName body videoId :
  identifier varName = true -> includes "}" body = false ->
  includes ("var " ++ varName) (String "{" body ++ "}") = false ->
  JSON_parse (String "{" body ++ "}") = None ->
  exists e,
    parseCharByChar JSON_parse varName
      (rewrap varName (String "{" body ++ "}")) videoId = Err e.
Proof.
  intros Hid Hb Hm Hj.
  pose proof (ExtractorFacts.identifier_nonempty _ Hid) as Hn.
  unfold parseCharByChar.
  destruct (extractLiteral varName (rewrap varName (String "{" body ++ "}")))
    as [literal|] eqn:E; [|eexists; reflexivity].
  apply (ExhaustionFacts.extractLiteral_some _ _ _ Hn) in E.
  destruct E as (t & b & Et & Eb & pre & post & Ep & _ & ->).
  rewrite <- (ExhaustionFacts.afterMarker_reading _ _ Hn) in Et.
  rewrite (ExtractorFacts.afterMarker_rewrap _ _ Hid Hm) in Et.
  injection Et as <-.
  change (Page.fromBrace (" = " ++ (String "{" body ++ "}") ++ ";"))
    with (Some ((String "{" body ++ "}") ++ ";")) in Eb.
  injection Eb as <-. rewrite append_assoc in Ep.
  apply (unique_close (String "{" body) ";" pre post) in Ep;
    [|rewrite includes_cons, Hb; reflexivity | reflexivity].
  subst pre. rewrite Hj. eexists; reflexivity.
Qed.

Lemma flat_assignment JSON_parse varName body t v videoId :
  identifier varName = true -> includes "$" varName = false ->
  includes "}" body = false ->
  includes ("var " ++ varName) (String "{" body ++ "}") = false ->
  JSON_parse (String "{" body ++ "}") = None ->
  Pattern.replaced (String "{" body ++ "}") t -> JSON_parse t = Some v ->
  parse JSON_parse varName (rewrap varName (String "{" body ++ "}")) videoId
  = Ok v.
Proof.
  intros Hid Hd Hb Hm Hj Ht Hv.
  destruct (flat_assignment_primary JSON_parse varName body videoId
              Hid Hb Hm Hj) as [e He].
  unfold parse. rewrite He. unfold parseWithRegex, patterns.
  cbn [tryPatterns]. unfold patternValue at 1, regexMatch at 1. rewrite Hd.
  rewrite (ApiFacts.firstMatch_here _ _ _
             (ExhaustionFacts.matchVarAssign_flat varName body Hid Hb)).
  apply PatternFacts.replaced_normalizeQuotes in Ht. subst t.
  now rewrite Hv.
Qed.

(** Extraction fails exactly when both strategies give up. *)
Lemma parse_fails JSON_parse varName html videoId :
  identifier varName = true ->
  parse JSON_parse varName html videoId = Err (youTubeDataUnparsable videoId)
  <-> Page.primaryFails Page.upToNextMarker JSON_parse varName html
      /\ Pattern.fallbackFails JSON_parse varName html.
Proof.
  intros Hid. pose proof (ExtractorFacts.identifier_nonempty _ Hid) as Hn.
  rewrite <- (ExhaustionFacts.primary_fails JSON_parse varName html videoId Hn).
  rewrite <- (PatternFacts.fallback_fails JSON_parse varName html videoId Hid).
  unfold parse.
  destruct (parseCharByChar JSON_parse varName html videoId) as [v|e0].
  - split; [discriminate | intros [[e He] _]; discriminate].
  - split.
    + intros H. split; eexists; [reflexivity | exact H].
    + intros [_ [e He]]. rewrite He. f_equal.
      now apply ExtractorFacts.tryPatterns_error in He.
Qed.

(** C5 (as amended): for an identifier as variable name, extraction
    fails with no other error than "data unparsable" carrying the
    caller's video id, and it fails exactly when both strategies give
    up.  The primary one gives up when the marker occurs neither as
    [var NAME] nor bare, or when, in the text between the first
    occurrence of the marker and its next one, no '{' follows, or no
    '}' closes the scan started at the first '{', or the text the scan
    bounds is not JSON.  The fallback gives up when whatever one of its
    three expressions matches in the page, leftmost and up to the
    earliest closing brace that fits, is not JSON once its
    single-quoted literals are written in double quotes.  So an
    assignment of a literal the scan bounds, free of the marker and
    valid JSON, is read; so is the assignment of a flat literal that
    becomes valid JSON by the replacement of its quotes; and the inputs
    "no such var here" and the unterminated [var X = {"a": 1] fail for
    the name X. *)
Theorem C5_data_unparsable JSON_parse varName html videoId :
  identifier varName = true ->
  (forall e, parse JSON_parse varName html videoId = Err e ->
             e = youTubeDataUnparsable videoId)
  /\ (parse JSON_parse varName html videoId
      = Err (youTubeDataUnparsable videoId)
      <-> Page.primaryFails Page.upToNextMarker JSON_parse varName html
          /\ Pattern.fallbackFails JSON_parse varName html)
  /\ (forall pre v,
        Page.closes pre -> startsWith "{" (pre ++ "}") = true ->
        includes ("var " ++ varName) (pre ++ "}") = false ->
        JSON_parse (pre ++ "}") = Some v ->
        parse JSON_parse varName (rewrap varName (pre ++ "}")) videoId
        = Ok v)
  /\ (forall body t v,
        includes "$" varName = false -> includes "}" body = false ->
        includes ("var " ++ varName) (String "{" body ++ "}") = false ->
        JSON_parse (String "{" body ++ "}") = None ->
        Pattern.replaced (String "{" body ++ "}") t ->
        JSON_parse t = Some v ->
        parse JSON_parse varName (rewrap varName (String "{" body ++ "}"))
          videoId
        = Ok v)
  /\ parse JSON_parse "X" "no such var here" videoId
     = Err (youTubeDataUnparsable videoId)
  /\ parse JSON_parse "X" unterminated videoId
     = Err (youTubeDataUnparsable videoId).
Proof.
  intros Hid.
  split; [intros e; apply ExtractorFacts.parse_error|].
  split; [now apply parse_fails|].
  split.
  { intros pre v Hc Hs Hm Hv.
    now apply (ExhaustionFacts.assignment_read JSON_parse varName
                 (pre ++ "}") pre v videoId Hid eq_refl). }
  split; [|split; reflexivity].
  intros body t v Hd Hb Hm Hj Ht Hv.
  now apply (flat_assignment JSON_parse varName body t v videoId).
Qed.

Lemma C5_data_unparsable_witness :
  parse Json.parse "X" Cases.singleQuoted "dQw4w9WgXcQ"
  = Ok (JObject
          [([97%N],
            JNumber {| negative := false; mantissa := 1;
                       exponent10 := 0 |})]).
Proof.
  apply (proj1 (proj2 (proj2 (proj2
           (C5_data_unparsable Json.parse "X" EmptyString "dQw4w9WgXcQ"
              eq_refl))))
           "'a': 1" (qq "{`a`: 1}")); try reflexivity.
  apply PatternFacts.replaced_spec. reflexivity.
Defined.

(** The reasons of the primary strategy do not hold of a page when read
    on all the text that follows the first occurrence of the marker. *)
Ltac no_reason literal pre post :=
  let t := fresh "t" in
  let b := fresh "b" in
  let l := fresh "l" in
  let Ht := fresh "Ht" in
  let Hb := fresh "Hb" in
  let Hl := fresh "Hl" in
  let Hj := fresh "Hj" in
  let H := fresh "H" in
  let H' := fresh "H" in
  assert (Hlit : forall b0,
            Some b0 = Some (literal ++ post) -> Page.literalOf b0 literal)
    by (intros b0 [= ->]; exists pre, post;
        split; [reflexivity|]; split; [|reflexivity];
        eexists; split; [vm_compute; reflexivity|];
        repeat split);
  intros [[H H'] | [(t & Ht & Hb) | [(t & b & Ht & Hb & H)
                                    | (t & b & l & Ht & Hb & Hl & Hj)]]];
  [ vm_compute in H, H'; first [discriminate H | discriminate H']
  | vm_compute in Ht; injection Ht as <-; vm_compute in Hb; discriminate Hb
  | vm_compute in Ht; injection Ht as <-; vm_compute in Hb;
    apply (H literal), Hlit; symmetry; exact Hb
  | vm_compute in Ht; injection Ht as <-; vm_compute in Hb;
    assert (l = literal)
      by (apply (ExhaustionFacts.literal_unique b); [exact Hl|];
          apply Hlit; symmetry; exact Hb);
    subst l; vm_compute in Hj; discriminate Hj ].

(** C5, counterexample: two pages that assign a well-formed literal to
    X once.  In the first the literal holds the text of the marker, in
    the second the name is mentioned before the assignment.  On each
    the marker occurs, a '{' follows its first occurrence, the braces
    that follow balance and the text they bound is valid JSON, so that
    none of the four reasons holds; yet extraction fails, the primary
    strategy looking no further than the next occurrence of the marker
    and the expressions of the fallback reaching one level of nesting
    only.  So failure is not equivalent to the reasons as they are
    read on all the text that follows the marker. *)
Lemma C5_marker_in_value_counterexample :
  (parse Json.parse "X" Cases.markerInValue "dQw4w9WgXcQ"
   = Err (youTubeDataUnparsable "dQw4w9WgXcQ")
   /\ ~ Page.primaryFails Page.following Json.parse "X" Cases.markerInValue)
  /\ (parse Json.parse "X" Cases.afterBareName "dQw4w9WgXcQ"
      = Err (youTubeDataUnparsable "dQw4w9WgXcQ")
      /\ ~ Page.primaryFails Page.following Json.parse "X"
             Cases.afterBareName)
  /\ ~ (forall html,
          parse Json.parse "X" html "dQw4w9WgXcQ"
          = Err (youTubeDataUnparsable "dQw4w9WgXcQ")
          <-> Page.primaryFails Page.following Json.parse "X" html
              /\ Pattern.fallbackFails Json.parse "X" html).
Proof.
  assert (Hfirst :
            ~ Page.primaryFails Page.following Json.parse "X"
                Cases.markerInValue).
  { no_reason (qq "{`a`: {`b`: {`c`: `var X`}}}")
              (qq "{`a`: {`b`: {`c`: `var X`}}") ";". }
  assert (Hfails :
            parse Json.parse "X" Cases.markerInValue "dQw4w9WgXcQ"
            = Err (youTubeDataUnparsable "dQw4w9WgXcQ"))
    by (vm_compute; reflexivity).
  split; [split; [exact Hfails | exact Hfirst]|].
  split.
  - split; [vm_compute; reflexivity|].
    no_reason (qq "{`a`: {`b`: {`c`: 1}}}")
              (qq "{`a`: {`b`: {`c`: 1}}") ";".
  - intros H. apply Hfirst.
    exact (proj1 (proj1 (H Cases.markerInValue) Hfails)).
Qed.

End FailureFacts.
